(** * TECHMENTORX client: tab store, collaborative edit relay, rename and autosave

    A shallow embedding of the state container of the playground client
    (the zustand store [useCompilerStore]) and of the effects of
    [EditorPanel.jsx] that talk to the collaboration socket, the rename
    endpoint and the save endpoint, followed by the properties of the
    specification that were checked against them.

    Conventions.
    - A JavaScript string is a [string]; a character is a code unit in the
      Latin-1 range.
    - A call that would raise a [TypeError] in the source (a field read on
      [undefined]) is [None]; every store action therefore has type
      [State -> option State].
    - [`${n}`] on a counter is [pretty n], the decimal rendering.
    - Wall-clock milliseconds ([Date.now()], message timestamps) are in [Z]. *)

From Stdlib Require Import Ascii String ZArith.
From stdpp Require Import base option list strings pretty gmap.

Open Scope string_scope.

(** ** JavaScript helpers *)

Module Js.

(** [a || b] on strings: the empty string is falsy. *)
Definition or_str (a b : string) : string :=
  if decide (a = "") then b else a.

(** [a || b] where [a] may be [undefined]. *)
Definition or_opt (a : option string) (b : string) : string :=
  match a with
  | Some s => or_str s b
  | None => b
  end.

(** [x || 0] on a number. *)
Definition or_zero (x : Z) : Z := if decide (x = 0%Z) then 0%Z else x.

(** [a ?? b]. *)
Definition nullish {A} (a : option A) (b : A) : A := default b a.

Definition is_dot (c : ascii) : bool := bool_decide (c = "."%char).

(** [\d] *)
Definition is_digit (c : ascii) : bool :=
  let n := nat_of_ascii c in (48 <=? n)%nat && (n <=? 57)%nat.

(** [[a-z0-9]] under the [i] flag. *)
Definition is_alnum (c : ascii) : bool :=
  let n := nat_of_ascii c in
  is_digit c || ((65 <=? n)%nat && (n <=? 90)%nat)
             || ((97 <=? n)%nat && (n <=? 122)%nat).

(** White space and line terminators removed by [String.prototype.trim]
    (those below U+0100). *)
Definition is_space (c : ascii) : bool :=
  let n := nat_of_ascii c in
  ((9 <=? n)%nat && (n <=? 13)%nat) || (n =? 32)%nat || (n =? 160)%nat.

Fixpoint all_chars (p : ascii -> bool) (s : string) : bool :=
  match s with
  | "" => true
  | String c s' => p c && all_chars p s'
  end.

(** The whole of [s] matches [\.[^.]+]. *)
Definition is_dot_ext (s : string) : bool :=
  match s with
  | String c (String d e) =>
      is_dot c && negb (is_dot d) && all_chars (fun x => negb (is_dot x)) e
  | _ => false
  end.

(** The whole of [s] matches [(\.[^.]+)?]. *)
Definition is_opt_dot_ext (s : string) : bool :=
  match s with
  | "" => true
  | _ => is_dot_ext s
  end.

Fixpoint drop_while (p : ascii -> bool) (s : string) : string :=
  match s with
  | "" => ""
  | String c s' => if p c then drop_while p s' else s
  end.

(** [s.startsWith(p)], returning the rest of [s]. *)
Fixpoint strip_prefix (p s : string) : option string :=
  match p, s with
  | "", _ => Some s
  | String a p', String b s' =>
      if decide (a = b) then strip_prefix p' s' else None
  | String _ _, "" => None
  end.

Definition startsWith (s p : string) : bool :=
  match strip_prefix p s with Some _ => true | None => false end.

(** [s.trim()] *)
Definition trim (s : string) : string :=
  String.rev (drop_while is_space (String.rev (drop_while is_space s))).

(** ASCII part of [toLowerCase]. *)
Definition lower_char (c : ascii) : ascii :=
  let n := nat_of_ascii c in
  if (65 <=? n)%nat && (n <=? 90)%nat then ascii_of_nat (n + 32) else c.

Fixpoint toLowerCase (s : string) : string :=
  match s with
  | "" => ""
  | String c s' => String (lower_char c) (toLowerCase s')
  end.

End Js.

(** ** Tabs and the store state *)

Module Tab.
Record t := mk {
  id : string;
  name : string;
  content : string;
  isCustomName : bool;
  languageId : option Z;
  path : option string
}.

(** [tab.path || tab.name]: the collaboration key. *)
Definition key (x : t) : string := Js.or_opt (path x) (name x).
End Tab.

Record State := mkState {
  tabs : list Tab.t;
  activeTabId : string;
  nextTabCounter : nat;
  source : string;
  languageId : Z;
  leaderboardTick : nat;
  unsavedFiles : gmap string bool;
  isSaving : bool;
  saveStatus : option string
}.

(** [`tab-${n}`] *)
Definition tabIdOf (n : nat) : string := "tab-" +:+ pretty n.

(** [tabs.find((t) => t.id === tabId)] *)
Definition findTab (tabId : string) (l : list Tab.t) : option Tab.t :=
  snd <$> list_find (fun x => Tab.id x = tabId) l.

(** [tabs.findIndex((t) => t.id === tabId)], [-1] when there is none. *)
Definition findIndex (tabId : string) (l : list Tab.t) : Z :=
  match list_find (fun x => Tab.id x = tabId) l with
  | Some (i, _) => Z.of_nat i
  | None => (-1)%Z
  end.

(** [tabs.filter((t) => t.id !== tabId)] *)
Definition withoutTab (tabId : string) (l : list Tab.t) : list Tab.t :=
  filter (fun x => Tab.id x ≠ tabId) l.

(** [tabs.map((t) => (t.id === tabId ? f(t) : t))] *)
Definition mapTab (tabId : string) (f : Tab.t -> Tab.t) (l : list Tab.t)
  : list Tab.t :=
  (fun x => if decide (Tab.id x = tabId) then f x else x) <$> l.

(** [l[Math.max(index - 1, 0)]] *)
Definition fallbackAt (index : Z) (l : list Tab.t) : option Tab.t :=
  l !! Z.to_nat (Z.max (index - 1) 0).

(** ** The copy-name generator of [duplicateTab] *)

(** The whole of [s] matches [/ Copy( \d+)?(\.[^.]+)?/]. *)
Definition isCopySuffix (s : string) : bool :=
  match Js.strip_prefix " Copy" s with
  | None => false
  | Some r =>
      Js.is_opt_dot_ext r ||
      match r with
      | String sp (String d r') =>
          bool_decide (sp = " "%char) && Js.is_digit d &&
          Js.is_opt_dot_ext (Js.drop_while Js.is_digit r')
      | _ => false
      end
  end.

(** [s.replace(/ Copy( \d+)?(\.[^.]+)?$/, "")]: the pattern is anchored at
    the end, so the match is the longest suffix of that shape. *)
Fixpoint stripCopySuffix (s : string) : string :=
  if isCopySuffix s then ""
  else match s with
       | "" => ""
       | String c s' => String c (stripCopySuffix s')
       end.

(** [baseName.replace(/(\.[^.]+)?$/, (m) => m ? `${sfx}${m}` : sfx)] *)
Fixpoint insertBeforeExt (sfx s : string) : string :=
  if Js.is_dot_ext s then sfx +:+ s
  else match s with
       | "" => sfx
       | String c s' => String c (insertBeforeExt sfx s')
       end.

(** The [while (taken.has(candidate))] loop; [fuel] bounds the number of
    iterations and [None] means the bound was reached. *)
Fixpoint copyLoop (fuel : nat) (taken : gset string) (safeBase : string)
    (counter : nat) (candidate : string) : option string :=
  match fuel with
  | O => None
  | S fuel' =>
      if decide (candidate ∈ taken) then
        let counter' := S counter in
        copyLoop fuel' taken safeBase counter'
                 (safeBase +:+ " Copy " +:+ pretty counter')
      else Some candidate
  end.

Definition copyName (fuel : nat) (names : list string) (original : string)
  : option string :=
  let safeBase := stripCopySuffix (Js.or_str original "untitled") in
  let taken : gset string := list_to_set names in
  copyLoop fuel taken safeBase 1 (safeBase +:+ " Copy").

(** ** The store actions ([useCompilerStore])

    [../lib/languageUtils] is imported by the store but is not part of the
    sources at hand; its two functions are an interface here. *)

Class LanguageUtils := {
  getMonacoLanguage : Z -> string;
  getDefaultFileNameForMonaco : string -> string
}.

Module Store.
Section Actions.
Context `{LanguageUtils}.

Definition defaultName (state : State) : string :=
  getDefaultFileNameForMonaco (getMonacoLanguage (languageId state)).

(** The state the module starts with (session and settings fields, which
    no property below reads, are left out of [State]). *)
Definition initial (welcome : string) : State :=
  {| tabs := [ {| Tab.id := "tab-1";
                  Tab.name := getDefaultFileNameForMonaco (getMonacoLanguage 63);
                  Tab.content := welcome;
                  Tab.isCustomName := false;
                  Tab.languageId := Some 63%Z;
                  Tab.path := None |} ];
     activeTabId := "tab-1";
     nextTabCounter := 1;
     source := welcome;
     languageId := 63;
     leaderboardTick := 0;
     unsavedFiles := ∅;
     isSaving := false;
     saveStatus := None |}.

(** The tab [closeAll] and [deleteTab] fall back to. *)
Definition baseTab (state : State) : Tab.t :=
  {| Tab.id := "tab-1";
     Tab.name := defaultName state;
     Tab.content := "";
     Tab.isCustomName := false;
     Tab.languageId := Some (languageId state);
     Tab.path := None |}.

Definition resetToBase (state : State) : State :=
  {| tabs := [baseTab state];
     activeTabId := Tab.id (baseTab state);
     nextTabCounter := 1;
     source := "";
     languageId := languageId state;
     leaderboardTick := leaderboardTick state + 1;
     unsavedFiles := unsavedFiles state;
     isSaving := isSaving state;
     saveStatus := saveStatus state |}.

(** The partial state returned by the actions that open a tab. *)
Definition opened (state : State) (newTab : Tab.t) (next : nat)
    (src : string) (lang : Z) : State :=
  {| tabs := tabs state ++ [newTab];
     activeTabId := Tab.id newTab;
     nextTabCounter := next;
     source := src;
     languageId := lang;
     leaderboardTick := leaderboardTick state + 1;
     unsavedFiles := unsavedFiles state;
     isSaving := isSaving state;
     saveStatus := saveStatus state |}.

(** The partial state returned by the actions that remove tabs. *)
Definition narrowed (state : State) (nextTabs : list Tab.t)
    (nextActive : string) (activeTab : Tab.t) : State :=
  {| tabs := nextTabs;
     activeTabId := nextActive;
     nextTabCounter := nextTabCounter state;
     source := Tab.content activeTab;
     languageId := Js.nullish (Tab.languageId activeTab) (languageId state);
     leaderboardTick := leaderboardTick state + 1;
     unsavedFiles := unsavedFiles state;
     isSaving := isSaving state;
     saveStatus := saveStatus state |}.

Definition withTabs (state : State) (l : list Tab.t) : State :=
  {| tabs := l;
     activeTabId := activeTabId state;
     nextTabCounter := nextTabCounter state;
     source := source state;
     languageId := languageId state;
     leaderboardTick := leaderboardTick state;
     unsavedFiles := unsavedFiles state;
     isSaving := isSaving state;
     saveStatus := saveStatus state |}.

Definition addTab (state : State) : option State :=
  let next := nextTabCounter state + 1 in
  let baseName := defaultName state in
  let name :=
    if decide (next = 1) then baseName
    else insertBeforeExt ("_" +:+ pretty next) baseName in
  let newTab :=
    {| Tab.id := tabIdOf next;
       Tab.name := name;
       Tab.content := "";
       Tab.isCustomName := false;
       Tab.languageId := Some (languageId state);
       Tab.path := None |} in
  Some (opened state newTab next "" (languageId state)).

Definition createTab (name content : string) (isCustomName : bool)
    (path : option string) (state : State) : option State :=
  let next := nextTabCounter state + 1 in
  let safeName := Js.or_str name (defaultName state) in
  let newTab :=
    {| Tab.id := tabIdOf next;
       Tab.name := safeName;
       Tab.content := content;
       Tab.isCustomName := isCustomName;
       Tab.languageId := Some (languageId state);
       Tab.path := path |} in
  Some (opened state newTab next content (languageId state)).

Definition selectTab (tabId : string) (state : State) : option State :=
  tab ← (match findTab tabId (tabs state) with
         | Some x => Some x
         | None => tabs state !! 0
         end);
  Some {| tabs := tabs state;
          activeTabId := Tab.id tab;
          nextTabCounter := nextTabCounter state;
          source := Tab.content tab;
          languageId := Js.nullish (Tab.languageId tab) (languageId state);
          leaderboardTick := leaderboardTick state;
          unsavedFiles := unsavedFiles state;
          isSaving := isSaving state;
          saveStatus := saveStatus state |}.

Definition setContent (content : string) (x : Tab.t) : Tab.t :=
  {| Tab.id := Tab.id x;
     Tab.name := Tab.name x;
     Tab.content := content;
     Tab.isCustomName := Tab.isCustomName x;
     Tab.languageId := Tab.languageId x;
     Tab.path := Tab.path x |}.

Definition updateTabContent (tabId content : string) (state : State)
  : option State :=
  Some (withTabs state (mapTab tabId (setContent content) (tabs state))).

Definition setName (newName : string) (newPath : option string) (x : Tab.t)
  : Tab.t :=
  {| Tab.id := Tab.id x;
     Tab.name := newName;
     Tab.content := Tab.content x;
     Tab.isCustomName := true;
     Tab.languageId := Tab.languageId x;
     Tab.path := match newPath with Some p => Some p | None => Tab.path x end |}.

Definition renameTab (tabId newName : string) (newPath : option string)
    (state : State) : option State :=
  Some (withTabs state (mapTab tabId (setName newName newPath) (tabs state))).

(** The loop of [duplicateTab] is run with one more round than there are
    tabs; [copyName_total] shows that this is always enough. *)
Definition duplicateTab (tabId : string) (state : State) : option State :=
  match findTab tabId (tabs state) with
  | None => Some state
  | Some original =>
      let next := nextTabCounter state + 1 in
      candidate ← copyName (S (length (tabs state)))
                           (Tab.name <$> tabs state) (Tab.name original);
      let lang := Js.nullish (Tab.languageId original) (languageId state) in
      let duplicated :=
        {| Tab.id := tabIdOf next;
           Tab.name := candidate;
           Tab.content := Tab.content original;
           Tab.isCustomName := true;
           Tab.languageId := Some lang;
           Tab.path := None |} in
      Some (opened state duplicated next (Tab.content duplicated) lang)
  end.

(** The common tail of [closeTab] and [deleteTab]. *)
Definition removeAt (tabId : string) (index : Z) (state : State)
  : option State :=
  let nextTabs := withoutTab tabId (tabs state) in
  nextActive ← (if decide (tabId = activeTabId state)
                then Tab.id <$> fallbackAt index nextTabs
                else Some (activeTabId state));
  activeTab ← (match findTab nextActive nextTabs with
               | Some x => Some x
               | None => nextTabs !! 0
               end);
  Some (narrowed state nextTabs nextActive activeTab).

Definition closeTab (tabId : string) (state : State) : option State :=
  if decide (length (tabs state) = 1) then Some state
  else
    let index := findIndex tabId (tabs state) in
    if decide (index = (-1)%Z) then Some state
    else removeAt tabId index state.

Definition closeOthers (tabId : string) (state : State) : option State :=
  target ← (match findTab tabId (tabs state) with
            | Some x => Some x
            | None => tabs state !! 0
            end);
  Some (narrowed state [target] (Tab.id target) target).

Definition closeAll (state : State) : option State :=
  Some (resetToBase state).

Definition deleteTab (tabId : string) (state : State) : option State :=
  match tabs state with
  | [only] =>
      if decide (Tab.id only = tabId) then Some (resetToBase state)
      else removeAt tabId (findIndex tabId (tabs state)) state
  | _ => removeAt tabId (findIndex tabId (tabs state)) state
  end.

Definition setSource (s : string) (state : State) : State :=
  {| tabs := tabs state;
     activeTabId := activeTabId state;
     nextTabCounter := nextTabCounter state;
     source := s;
     languageId := languageId state;
     leaderboardTick := leaderboardTick state;
     unsavedFiles := unsavedFiles state;
     isSaving := isSaving state;
     saveStatus := saveStatus state |}.

(** [setLanguageId(id)] *)
Definition setLanguageId (id : Z) (state : State) : State :=
  {| tabs := tabs state;
     activeTabId := activeTabId state;
     nextTabCounter := nextTabCounter state;
     source := source state;
     languageId := id;
     leaderboardTick := leaderboardTick state;
     unsavedFiles := unsavedFiles state;
     isSaving := isSaving state;
     saveStatus := saveStatus state |}.

Definition setUnsavedFile (tabId : string) (unsaved : bool) (state : State)
  : State :=
  {| tabs := tabs state;
     activeTabId := activeTabId state;
     nextTabCounter := nextTabCounter state;
     source := source state;
     languageId := languageId state;
     leaderboardTick := leaderboardTick state;
     unsavedFiles := <[tabId := unsaved]> (unsavedFiles state);
     isSaving := isSaving state;
     saveStatus := saveStatus state |}.

Definition setIsSaving (v : bool) (state : State) : State :=
  {| tabs := tabs state;
     activeTabId := activeTabId state;
     nextTabCounter := nextTabCounter state;
     source := source state;
     languageId := languageId state;
     leaderboardTick := leaderboardTick state;
     unsavedFiles := unsavedFiles state;
     isSaving := v;
     saveStatus := saveStatus state |}.

Definition setSaveStatus (v : option string) (state : State) : State :=
  {| tabs := tabs state;
     activeTabId := activeTabId state;
     nextTabCounter := nextTabCounter state;
     source := source state;
     languageId := languageId state;
     leaderboardTick := leaderboardTick state;
     unsavedFiles := unsavedFiles state;
     isSaving := isSaving state;
     saveStatus := v |}.

(** The ten tab actions, as data, and a run of them.  An action that
    throws leaves the store as it was and ends the run with [None]. *)
Inductive Action :=
| AddTab
| CreateTab (name content : string) (isCustomName : bool) (path : option string)
| SelectTab (tabId : string)
| UpdateTabContent (tabId content : string)
| RenameTab (tabId newName : string) (newPath : option string)
| DuplicateTab (tabId : string)
| CloseTab (tabId : string)
| CloseOthers (tabId : string)
| CloseAll
| DeleteTab (tabId : string).

Definition perform (a : Action) : State -> option State :=
  match a with
  | AddTab => addTab
  | CreateTab n c b p => createTab n c b p
  | SelectTab i => selectTab i
  | UpdateTabContent i c => updateTabContent i c
  | RenameTab i n p => renameTab i n p
  | DuplicateTab i => duplicateTab i
  | CloseTab i => closeTab i
  | CloseOthers i => closeOthers i
  | CloseAll => closeAll
  | DeleteTab i => deleteTab i
  end.

Fixpoint run (l : list Action) (state : State) : option State :=
  match l with
  | [] => Some state
  | a :: l' => state' ← perform a state; run l' state'
  end.

End Actions.
End Store.


(** ** The collaboration socket ([EditorPanel.jsx])

    [readyState] follows the WebSocket interface: [send] throws while the
    socket is connecting, queues the frame while it is open and drops it
    once it is closing or closed. *)

Inductive ReadyState := CONNECTING | OPEN | CLOSING | CLOSED.

Global Instance ReadyState_eq_dec : EqDecision ReadyState.
Proof. solve_decision. Defined.

(** The JSON text frames the client writes. *)
Inductive Frame :=
| Subscribe (filePath : string)
| Unsubscribe (filePath : string)
| UnsubscribeAll
| EditFrame (filePath content clientId : string) (timestamp : Z).

Global Instance Frame_eq_dec : EqDecision Frame.
Proof. solve_decision. Defined.

Module Socket.
Record t := mk {
  readyState : ReadyState;
  (** the [activePath] captured by each pending [{ once: true }] listener
      of the [open] event, in the order of registration *)
  openListeners : list (option string);
  (** the frames handed to the socket, oldest first *)
  sent : list Frame
}.

Definition send (f : Frame) (ws : t) : option t :=
  match readyState ws with
  | CONNECTING => None
  | OPEN => Some (mk OPEN (openListeners ws) (sent ws ++ [f]))
  | _ => Some ws
  end.

(** [try { ws.send(f) } catch {}] *)
Definition trySend (f : Frame) (ws : t) : t := default ws (send f ws).

Definition addOpenListener (captured : option string) (ws : t) : t :=
  mk (readyState ws) (openListeners ws ++ [captured]) (sent ws).
End Socket.

(** An edit message from the relay, after [JSON.parse]. *)
Module EditMsg.
Record t := mk {
  filePath : string;
  content : string;
  clientId : string;
  timestamp : Z
}.
End EditMsg.

(** What the [message] listener receives: an edit, or anything else (another
    [type], or text that does not parse), which it drops. *)
Inductive Inbound :=
| Edit (m : EditMsg.t)
| NotAnEdit.

(** [lastAppliedRemote.current] *)
Module Marker.
Record t := mk {
  filePath : option string;
  timestamp : Z
}.
Definition initial : t := mk None 0.
End Marker.

(** A pending [setTimeout(sendNow, 800)] with what [sendNow] closed over. *)
Module Timer.
Record t := mk {
  id : nat;
  due : Z;
  filePath : string;
  content : string
}.
End Timer.

(** [activeTab?.path || activeTab?.name]; [None] is [undefined]. *)
Definition activePath (state : State) : option string :=
  Tab.key <$> findTab (activeTabId state) (tabs state).

(** Truthiness of such a value: [undefined] and [""] are falsy. *)
Definition truthyPath (p : option string) : option string :=
  match p with
  | Some s => if decide (s = "") then None else Some s
  | None => None
  end.

(** [HELLO_WORLD_SNIPPETS], by Monaco language.  (The keys of the language
    table are Monaco language ids; none of them is the name of a member of
    [Object.prototype], so a lookup finds a snippet or nothing.) *)
Definition HELLO_WORLD_SNIPPETS : list (string * string) :=
  let nl := String "010" "" in
  let dq := String "034" "" in
  [ ("javascript",
     "// Hello World - JavaScript (Node.js)" +:+ nl +:+
     "console.log('Hello, world!');");
    ("typescript",
     "// Hello World - TypeScript" +:+ nl +:+ "console.log('Hello, world!');");
    ("python", "# Hello World - Python" +:+ nl +:+ "print('Hello, world!')");
    ("java",
     "// Hello World - Java" +:+ nl +:+ "class Main {" +:+ nl +:+
     "  public static void main(String[] args) {" +:+ nl +:+
     "    System.out.println(" +:+ dq +:+ "Hello, world!" +:+ dq +:+ ");" +:+ nl +:+
     "  }" +:+ nl +:+ "}");
    ("c",
     "#include <stdio.h>" +:+ nl +:+ "int main(){" +:+ nl +:+
     "  printf(" +:+ dq +:+ "Hello, world!\n" +:+ dq +:+ ");" +:+ nl +:+
     "  return 0;" +:+ nl +:+ "}");
    ("cpp",
     "#include <iostream>" +:+ nl +:+ "int main(){" +:+ nl +:+
     "  std::cout << " +:+ dq +:+ "Hello, world!\n" +:+ dq +:+ ";" +:+ nl +:+
     "  return 0;" +:+ nl +:+ "}");
    ("go",
     "package main" +:+ nl +:+ "import " +:+ dq +:+ "fmt" +:+ dq +:+ nl +:+
     "func main(){" +:+ nl +:+
     "  fmt.Println(" +:+ dq +:+ "Hello, world!" +:+ dq +:+ ")" +:+ nl +:+ "}");
    ("ruby", "# Hello World - Ruby" +:+ nl +:+ "puts 'Hello, world!'");
    ("php",
     "<?php" +:+ nl +:+ "echo " +:+ dq +:+ "Hello, world!\n" +:+ dq +:+ ";");
    ("rust",
     "fn main(){" +:+ nl +:+
     "  println!(" +:+ dq +:+ "Hello, world!" +:+ dq +:+ ");" +:+ nl +:+ "}") ].

(** [HELLO_WORLD_SNIPPETS[monacoLang] ?? ""] *)
Definition snippetFor (monacoLang : string) : string :=
  match list_find (fun kv : string * string => kv.1 = monacoLang)
                  HELLO_WORLD_SNIPPETS with
  | Some (_, (_, snippet)) => snippet
  | None => ""
  end.

Module Panel.

(** The part of the component that the socket effects use: the store,
    the sockets and the refs, the pending timers and clock of the event
    loop, and which clean-up function each of the two effects returned
    last.  A socket is named by its position in [sockets]. *)
Record t := mk {
  store : State;
  lastAppliedRemote : Marker.t;
  (** the sockets made by [new WebSocket(url)], oldest first; the
      component closes none of them *)
  sockets : list Socket.t;
  (** [wsRef.current]: the socket made last, [None] before the first *)
  wsRef : option nat;
  debouncedSendRef : option nat;
  now : Z;
  nextTimerId : nat;
  (** the pending timers, each with the socket its [sendNow] closed over *)
  pending : list (Timer.t * nat);
  (** [Some (ws, p)]: the subscribe effect returned its clean-up, which
      closed over the socket [ws] and over [activePath = p]; [None]: it
      returned nothing *)
  subscribeCleanup : option (nat * option string);
  (** whether the send effect returned its clean-up *)
  sendCleanup : bool
}.

Definition timers (p : t) : list Timer.t := fst <$> pending p.

Definition withStore (s : State) (p : t) : t :=
  mk s (lastAppliedRemote p) (sockets p) (wsRef p) (debouncedSendRef p) (now p)
     (nextTimerId p) (pending p) (subscribeCleanup p) (sendCleanup p).

Definition withSockets (l : list Socket.t) (p : t) : t :=
  mk (store p) (lastAppliedRemote p) l (wsRef p) (debouncedSendRef p) (now p)
     (nextTimerId p) (pending p) (subscribeCleanup p) (sendCleanup p).

Definition withSubscribeCleanup (c : option (nat * option string)) (p : t) : t :=
  mk (store p) (lastAppliedRemote p) (sockets p) (wsRef p) (debouncedSendRef p)
     (now p) (nextTimerId p) (pending p) c (sendCleanup p).

(** A call on the socket at position [i]. *)
Definition onSocket (i : nat) (f : Socket.t -> Socket.t) (p : t) : t :=
  withSockets (alter f i (sockets p)) p.

(** The frames written so far to the socket at position [i]. *)
Definition framesAt (i : nat) (p : t) : list Frame :=
  match sockets p !! i with Some ws => Socket.sent ws | None => [] end.

(** The frames written so far to the socket [wsRef] holds. *)
Definition frames (p : t) : list Frame :=
  match wsRef p with Some i => framesAt i p | None => [] end.

(** The component before its first effect has run. *)
Definition unmounted (s : State) : t :=
  mk s Marker.initial [] None None 0 0 [] None false.

(** [const ws = new WebSocket(url); wsRef.current = ws]; the URL is a
    constant of the build, so the constructor does not throw. *)
Definition openSocket (p : t) : t :=
  mk (store p) (lastAppliedRemote p)
     (sockets p ++ [Socket.mk CONNECTING [] []]) (Some (length (sockets p)))
     (debouncedSendRef p) (now p) (nextTimerId p) (pending p)
     (subscribeCleanup p) (sendCleanup p).

(** The component right after the first [new WebSocket(url)]. *)
Definition mounted (s : State) : t := openSocket (unmounted s).

Section Effects.
(** [CLIENT_ID], read once from local storage. *)
Variable CLIENT_ID : string.
Context `{LanguageUtils}.

(** *** The [message] listener (the same on every socket) *)

Definition onMessage (msg : Inbound) (p : t) : t :=
  match msg with
  | NotAnEdit => p
  | Edit m =>
      if decide (EditMsg.clientId m = CLIENT_ID) then p
      else
        let state := store p in
        match truthyPath (activePath state) with
        | None => p
        | Some path =>
            if decide (path = EditMsg.filePath m) then
              if decide (Js.or_zero (EditMsg.timestamp m) >
                         Js.or_zero (Marker.timestamp (lastAppliedRemote p)))%Z
              then
                let text := Js.or_str (EditMsg.content m) "" in
                match Store.updateTabContent (activeTabId state) text state with
                | Some s1 =>
                    mk (Store.setSource text s1)
                       (Marker.mk (Some (EditMsg.filePath m)) (EditMsg.timestamp m))
                       (sockets p) (wsRef p) (debouncedSendRef p) (now p)
                       (nextTimerId p) (pending p) (subscribeCleanup p)
                       (sendCleanup p)
                | None => p
                end
              else p
            else p
        end
  end.

(** *** The socket effect, dependencies [[fileNaming.name, monacoLang]]

    It has no clean-up: when it runs again, the socket made before stays
    as it is, with its listeners, and [wsRef] moves on to the new one. *)

(** The values of the dependencies in a render of the store [state]. *)
Definition socketDeps (state : State) : string * string :=
  (Store.defaultName state, getMonacoLanguage (languageId state)).

(** [{ ...t, name }] *)
Definition withName (name : string) (x : Tab.t) : Tab.t :=
  {| Tab.id := Tab.id x;
     Tab.name := name;
     Tab.content := Tab.content x;
     Tab.isCustomName := Tab.isCustomName x;
     Tab.languageId := Tab.languageId x;
     Tab.path := Tab.path x |}.

(** The second half of the effect, which keeps the name of a first tab
    that is not custom named in step with the language: an empty first
    tab takes the default name, otherwise a tab with the snippet of the
    language is opened. *)
Definition syncFirstTab (state : State) : State :=
  match tabs state with
  | [] => state
  | first :: rest =>
      let fileName := Store.defaultName state in
      if negb (Tab.isCustomName first) &&
         negb (bool_decide (Tab.name first = fileName))
      then
        if bool_decide (Tab.content first = "") ||
           bool_decide (Js.trim (Tab.content first) = "")
        then Store.withTabs state (withName fileName first :: rest)
        else
          default state
            (Store.createTab fileName
               (snippetFor (getMonacoLanguage (languageId state))) false None
               state)
      else state
  end.

Definition socketEffect (p : t) : t :=
  let p1 := openSocket p in
  withStore (syncFirstTab (store p1)) p1.

(** *** The subscribe effect, dependencies [[tabs, activeTabId]] *)

Definition subscribeEffect (p : t) : t :=
  let path := truthyPath (activePath (store p)) in
  match wsRef p with
  | None => withSubscribeCleanup None p
  | Some i =>
      match sockets p !! i with
      | None => withSubscribeCleanup None p
      | Some ws =>
          if decide (Socket.readyState ws = OPEN) then
            let subscribe (w : Socket.t) :=
              let w1 := Socket.trySend UnsubscribeAll w in
              match path with
              | Some f => Socket.trySend (Subscribe f) w1
              | None => w1
              end in
            withSubscribeCleanup (Some (i, path)) (onSocket i subscribe p)
          else
            withSubscribeCleanup None
              (onSocket i (Socket.addOpenListener path) p)
      end
  end.

(** The clean-up the subscribe effect returned, if it returned one; it
    writes to the socket it closed over. *)
Definition runSubscribeCleanup (p : t) : t :=
  match subscribeCleanup p with
  | Some (i, Some f) =>
      match sockets p !! i with
      | Some ws =>
          if decide (Socket.readyState ws = OPEN)
          then onSocket i (Socket.trySend (Unsubscribe f)) p
          else p
      | None => p
      end
  | _ => p
  end.

(** The [open] event of a socket: every pending listener runs once, in
    order. *)
Definition fireOpenListener (captured : option string) (ws : Socket.t)
  : Socket.t :=
  match captured with
  | Some f => Socket.trySend (Subscribe f) ws
  | None => ws
  end.

Definition opened (ws : Socket.t) : Socket.t :=
  foldl (fun w c => fireOpenListener c w)
        (Socket.mk OPEN [] (Socket.sent ws)) (Socket.openListeners ws).

Definition socketOpenedAt (i : nat) (p : t) : t := onSocket i opened p.

Definition socketOpened (p : t) : t :=
  match wsRef p with
  | Some i => socketOpenedAt i p
  | None => p
  end.

(** *** The debounced send effect, dependencies [[source, activeTabId, tabs]] *)

Definition clearTimeout (ref : option nat) (l : list (Timer.t * nat))
  : list (Timer.t * nat) :=
  match ref with
  | Some i => filter (fun x => Timer.id x.1 <> i) l
  | None => l
  end.

Definition sendEffect (p : t) : t :=
  let idle :=
    mk (store p) (lastAppliedRemote p) (sockets p) (wsRef p)
       (debouncedSendRef p) (now p) (nextTimerId p) (pending p)
       (subscribeCleanup p) false in
  match wsRef p with
  | None => idle
  | Some i =>
      match sockets p !! i with
      | None => idle
      | Some ws =>
          if decide (Socket.readyState ws = OPEN) then
            match truthyPath (activePath (store p)) with
            | None => idle
            | Some path =>
                let timer :=
                  Timer.mk (nextTimerId p) (now p + 800) path
                           (Js.or_str (source (store p)) "") in
                mk (store p) (lastAppliedRemote p) (sockets p) (wsRef p)
                   (Some (nextTimerId p)) (now p) (S (nextTimerId p))
                   (clearTimeout (debouncedSendRef p) (pending p) ++ [(timer, i)])
                   (subscribeCleanup p) true
            end
          else idle
      end
  end.

Definition runSendCleanup (p : t) : t :=
  if sendCleanup p then
    mk (store p) (lastAppliedRemote p) (sockets p) (wsRef p)
       (debouncedSendRef p) (now p) (nextTimerId p)
       (clearTimeout (debouncedSendRef p) (pending p))
       (subscribeCleanup p) (sendCleanup p)
  else p.

(** [sendNow], run by the event loop at time [at]. *)
Definition sendNow (at_ : Z) (x : Timer.t) (ws : Socket.t) : Socket.t :=
  Socket.trySend
    (EditFrame (Timer.filePath x) (Timer.content x) CLIENT_ID at_) ws.

(** The clock reaches [at]: the timers that are due run and are gone. *)
Definition elapse (at_ : Z) (p : t) : t :=
  let due := filter (fun x => (Timer.due x.1 <= at_)%Z) (pending p) in
  let rest := filter (fun x => ~ (Timer.due x.1 <= at_)%Z) (pending p) in
  mk (store p) (lastAppliedRemote p)
     (foldl (fun l x => alter (sendNow at_ x.1) x.2 l) (sockets p) due)
     (wsRef p) (debouncedSendRef p) at_ (nextTimerId p) rest
     (subscribeCleanup p) (sendCleanup p).

(** *** What happens to the effects

    The events that make the three effects or their timers run.  (A write
    to the store made by the message listener, by the second half of the
    socket effect or by another effect of the component is followed by a
    render of its own, which is a [TabsChanged] with the store as it is
    then.) *)

Inductive Event :=
(** the store changed [tabs] or [activeTabId] (a tab was selected, opened,
    closed, renamed or edited), and possibly [source] and [languageId]
    with them: the subscribe and the send effect run again, after the
    socket effect if the language changed its dependencies *)
| TabsChanged (state : State)
(** only [source] changed: the send effect runs again *)
| SourceChanged (src : string)
(** the socket [wsRef] holds is open *)
| SocketOpened
| Elapsed (at_ : Z)
(** [setLanguageId(id)], from the language menu: only [languageId]
    changed, and the socket effect runs if that changed its dependencies *)
| LanguageChanged (id : Z)
(** the socket at position [i], which need not be the one [wsRef] holds,
    is open *)
| SocketOpenedAt (i : nat).

(** React runs the clean-ups of the effects whose dependencies changed,
    then those effects, both in the order of declaration. *)
Definition step (e : Event) (p : t) : t :=
  match e with
  | TabsChanged state =>
      let cleaned := withStore state (runSendCleanup (runSubscribeCleanup p)) in
      let connected :=
        if decide (socketDeps state = socketDeps (store p)) then cleaned
        else socketEffect cleaned in
      sendEffect (subscribeEffect connected)
  | SourceChanged src =>
      sendEffect (withStore (Store.setSource src (store p)) (runSendCleanup p))
  | SocketOpened => socketOpened p
  | Elapsed at_ => elapse at_ p
  | LanguageChanged id =>
      let state := Store.setLanguageId id (store p) in
      if decide (socketDeps state = socketDeps (store p)) then withStore state p
      else socketEffect (withStore state p)
  | SocketOpenedAt i => socketOpenedAt i p
  end.

Definition steps (l : list Event) (p : t) : t :=
  foldl (fun q e => step e q) p l.

(** The first render: the three effects run for the first time. *)
Definition firstRender (s : State) : t :=
  sendEffect (subscribeEffect (socketEffect (unmounted s))).

End Effects.
End Panel.

(** ** Inline rename ([handleConfirmInlineRename]) *)

(** What the [catch] clauses read from a rejected request. *)
Module ApiError.
Record t := mk {
  (** [err?.response?.data?.error] *)
  responseError : option string;
  (** [err.message] *)
  message : option string;
  (** [String(err)] *)
  rendered : string
}.

(** [err?.response?.data?.error || err.message || String(err)] *)
Definition text (err : t) : string :=
  Js.or_opt (responseError err) (Js.or_opt (message err) (rendered err)).
End ApiError.

Module Rename.

(** [trimmed.match(/\.([a-z0-9]+)$/i)]: the capture group, if the name
    ends in a dot followed by letters and digits. *)
Fixpoint extMatch (s : string) : option string :=
  match s with
  | "" => None
  | String c s' =>
      if Js.is_dot c && negb (bool_decide (s' = "")) && Js.all_chars Js.is_alnum s'
      then Some s'
      else extMatch s'
  end.

Definition allowedExts : gset string :=
  list_to_set
    ["js"; "jsx"; "ts"; "tsx"; "py"; "java"; "c"; "cpp"; "rs"; "go"; "html";
     "css"; "json"; "md"; "txt"; "sh"; "bash"; "yml"; "yaml"].

(** The state of the inline editor of a tab label. *)
Record Ui := mkUi {
  editingTabId : option string;
  editingValue : string;
  editingError : string
}.

(** The component as this handler sees it: the store, the inline editor,
    the calls of [renameFile] made so far and the window events
    dispatched so far. *)
Record World := mkWorld {
  store : State;
  ui : Ui;
  requests : list (string * string);
  events : list string
}.

Definition setEditingError (msg : string) (w : World) : World :=
  mkWorld (store w)
          (mkUi (editingTabId (ui w)) (editingValue (ui w)) msg)
          (requests w) (events w).

Definition handleCancelInlineRename (w : World) : World :=
  mkWorld (store w) (mkUi None "" "") (requests w) (events w).

(** What the tab strip renders for a tab: the inline editor with its
    value while the tab is being renamed, the name of the tab otherwise;
    and whether the dot of unsaved changes is shown. *)
Inductive Label :=
| Editing (value : string)
| Named (name : string).

Definition tabLabel (w : World) (tab : Tab.t) : Label * bool :=
  (if decide (editingTabId (ui w) = Some (Tab.id tab))
   then Editing (editingValue (ui w))
   else Named (Tab.name tab),
   bool_decide (unsavedFiles (store w) !! Tab.id tab = Some true)).

(** [tabs.map((tab) => ...)] of the tab bar. *)
Definition tabStrip (w : World) : list (Label * bool) :=
  tabLabel w <$> tabs (store w).

(** The answer of [renameFile]: the body of the response with its
    [newPath], or a rejection. *)
Inductive Response :=
| Renamed (newPath : option string)
| Failed (err : ApiError.t).

(** A [renameFile] request in flight. *)
Record Pending := mkPending {
  oldPath : string;
  newName : string
}.

(** The handler up to its [await]: the world it leaves, and the request it
    is waiting for, if it made one. *)
Definition start (tabId : string) (w : World) : World * option Pending :=
  let trimmed := Js.trim (Js.or_str (editingValue (ui w)) "") in
  if decide (trimmed = "") then
    (setEditingError "Please provide a name" w, None)
  else
    match extMatch trimmed with
    | None =>
        (setEditingError "File extension required (e.g. main.cpp)" w, None)
    | Some e =>
        let ext := Js.toLowerCase e in
        if decide (ext ∈ allowedExts) then
          match findTab tabId (tabs (store w)) with
          | None => (handleCancelInlineRename w, None)
          | Some tab =>
              let oldPath := Tab.key tab in
              (mkWorld (store w) (ui w)
                       (requests w ++ [(oldPath, trimmed)]) (events w),
               Some (mkPending oldPath trimmed))
          end
        else
          (setEditingError ("Unsupported extension '." +:+ ext +:+ "'.") w,
           None)
    end.

(** The handler after its [await], in the world as it is by then.
    [renameTab] only maps over the tabs and never throws, so the [catch]
    clause is entered by a rejected request alone. *)
Definition finish (tabId trimmed : string) (r : Response) (w : World)
  : World :=
  match r with
  | Renamed newPath =>
      let store' :=
        default (store w)
                (Store.renameTab tabId trimmed (truthyPath newPath) (store w)) in
      handleCancelInlineRename
        (mkWorld store' (ui w) (requests w)
                 (events w ++ ["project-structure-changed"]))
  | Failed err => setEditingError (ApiError.text err) w
  end.

(** The handler when the request is answered before anything else
    happens. *)
Definition handleConfirmInlineRename
    (renameFile : string -> string -> Response) (tabId : string) (w : World)
  : World :=
  match start tabId w with
  | (w', Some pending) =>
      finish tabId (newName pending)
             (renameFile (oldPath pending) (newName pending)) w'
  | (w', None) => w'
  end.

End Rename.

(** ** Autosave (the [tick] of the auto-save effect) *)

Module Autosave.

(** The component as the tick sees it: the store, the calls of
    [saveFile] made so far, and the delays of the pending
    [setTimeout(() => setSaveStatus(null), delay)]. *)
Record World := mkWorld {
  store : State;
  requests : list (string * string);
  statusTimers : list Z
}.

(** The answer of [saveFile]: the body of the response with whether its
    [success] is truthy, or a rejection. *)
Inductive Response :=
| Responded (success : bool)
| Threw.

(** [rawPath.startsWith("/") ? rawPath.slice(1) : rawPath] on
    [tab.path || tab.name || ""] *)
Definition savePath (tab : Tab.t) : string :=
  let rawPath := Js.or_str (Tab.key tab) "" in
  match Js.strip_prefix "/" rawPath with
  | Some rest => rest
  | None => rawPath
  end.

(** A [saveFile] request in flight, with the [activeId] the tick read. *)
Record Pending := mkPending {
  activeId : string;
  filePath : string;
  content : string
}.

(** The tick up to its [await]: the world it leaves, and the request it
    is waiting for, if it made one. *)
Definition tickStart (w : World) : World * option Pending :=
  let state := store w in
  let activeId := activeTabId state in
  if decide (activeId = "") then (w, None)
  else
    match unsavedFiles state !! activeId with
    | Some true =>
        match findTab activeId (tabs state) with
        | None => (w, None)
        | Some tab =>
            let filePath := savePath tab in
            let content := Tab.content tab in
            (mkWorld (Store.setSaveStatus None (Store.setIsSaving true state))
                     (requests w ++ [(filePath, content)])
                     (statusTimers w),
             Some (mkPending activeId filePath content))
        end
    | _ => (w, None)
    end.

(** The tick after its [await], in the world as it is by then. *)
Definition tickFinish (activeId : string) (r : Response) (w : World) : World :=
  let settled :=
    match r with
    | Responded true =>
        mkWorld (Store.setUnsavedFile activeId false
                   (Store.setSaveStatus (Some "success") (store w)))
                (requests w) (statusTimers w ++ [1500%Z])
    | Responded false => w
    | Threw =>
        mkWorld (Store.setSaveStatus (Some "error") (store w))
                (requests w) (statusTimers w ++ [2000%Z])
    end in
  mkWorld (Store.setIsSaving false (store settled))
          (requests settled) (statusTimers settled).

(** The tick when the request is answered before anything else happens. *)
Definition tick (remote : string -> string -> Response) (w : World) : World :=
  match tickStart w with
  | (w', Some pending) =>
      tickFinish (activeId pending)
                 (remote (filePath pending) (content pending)) w'
  | (w', None) => w'
  end.

(** A status timer runs, [setSaveStatus(null)]; they all do the same. *)
Definition statusTimerFired (w : World) : World :=
  match statusTimers w with
  | [] => w
  | _ :: rest => mkWorld (Store.setSaveStatus None (store w)) (requests w) rest
  end.

End Autosave.

(** ** Recently opened files and favourites ([useCompilerStore]) *)

Module Recent.
Record Entry := mkEntry {
  path : string;
  name : string;
  timestamp : string
}.

(** [addRecentlyOpened(path, name)] at the time [now]
    ([new Date().toISOString()]).  The write to local storage and the
    update of the store share one [try]: when the write throws
    ([stored = false]) the store keeps the list it had. *)
Definition addRecentlyOpened (stored : bool) (now path name : string)
    (recentlyOpened : list Entry) : list Entry :=
  let filtered := filter (fun r => Recent.path r <> path) recentlyOpened in
  let updated := take 10 (mkEntry path name now :: filtered) in
  if stored then updated else recentlyOpened.

Definition clearRecentlyOpened (recentlyOpened : list Entry) : list Entry := [].
End Recent.

Module Favorites.
(** [toggleFavorite(filePath)]; the write to local storage has a [try] of
    its own and does not bear on the result. *)
Definition toggleFavorite (filePath : string) (favorites : list string)
  : list string :=
  if decide (filePath ∈ favorites)
  then filter (fun f => f <> filePath) favorites
  else favorites ++ [filePath].

(** [isFavorite(filePath)] *)
Definition isFavorite (filePath : string) (favorites : list string) : bool :=
  bool_decide (filePath ∈ favorites).
End Favorites.

(** ** The daily run counter ([_ensureDaily], [canRun], [recordRun]) *)

Module RunLimit.
(** The fields of the store these actions read and write.  Their writes to
    local storage are wrapped in a [try] of their own and are left out. *)
Record t := mk {
  (** [null] is no limit *)
  runLimit : option Z;
  dailyRunDate : option string;
  dailyRunCount : Z;
  runCount : Z;
  leaderboardTick : Z
}.

(** [_ensureDaily()] on the day [today]
    ([new Date().toISOString().slice(0, 10)]). *)
Definition ensureDaily (today : string) (state : t) : t :=
  if decide (dailyRunDate state = Some today) then state
  else mk (runLimit state) (Some today) 0 (runCount state) (leaderboardTick state).

(** [canRun()]: the answer and the store it leaves.  [state] is read once,
    before [_ensureDaily] runs. *)
Definition canRun (today : string) (state : t) : bool * t :=
  let after := ensureDaily today state in
  match runLimit state with
  | None => (true, after)
  | Some limit => (bool_decide (Js.or_zero (dailyRunCount state) < limit)%Z, after)
  end.

(** [recordRun()]: [today] is the day it reads itself, [today'] the day
    [_ensureDaily] reads if it is called.  [state] is read once, at the
    start. *)
Definition recordRun (today today' : string) (state : t) : t :=
  let ensured :=
    if decide (dailyRunDate state = Some today) then state
    else ensureDaily today' state in
  let nextCount := (Js.or_zero (dailyRunCount state) + 1)%Z in
  mk (runLimit ensured) (Some today) nextCount
     (Js.or_zero (runCount state) + 1)
     (Js.or_zero (leaderboardTick state) + 1).

(** [incrementRunCount()] *)
Definition incrementRunCount (state : t) : t :=
  mk (runLimit state) (dailyRunDate state) (dailyRunCount state)
     (Js.or_zero (runCount state) + 1)
     (Js.or_zero (leaderboardTick state) + 1).

(** [pokeLeaderboard()] *)
Definition pokeLeaderboard (state : t) : t :=
  mk (runLimit state) (dailyRunDate state) (dailyRunCount state)
     (runCount state) (Js.or_zero (leaderboardTick state) + 1).

(** How the submission of the score ended: nobody is signed in
    ([state.currentUser] is falsy) and nothing is submitted, or
    [submitScore] resolved, or it was rejected. *)
Inductive Submission :=
| NotSignedIn
| Submitted
| SubmitFailed.

(** What [onRun] does to the counters once [executeCode] has answered:
    [recordRun], [incrementRunCount], [pokeLeaderboard], and when somebody
    is signed in [submitScore(state.runCount || 0)], followed by one more
    [pokeLeaderboard] if that resolves.  The result is the store and the
    score submitted, if any. *)
Definition afterRun (today today' : string) (submission : Submission)
    (state : t) : t * option Z :=
  let counted := pokeLeaderboard (incrementRunCount (recordRun today today' state)) in
  match submission with
  | NotSignedIn => (counted, None)
  | Submitted => (pokeLeaderboard counted, Some (Js.or_zero (runCount counted)))
  | SubmitFailed => (counted, Some (Js.or_zero (runCount counted)))
  end.
End RunLimit.

(** ** File names made in [EditorPanel.jsx] *)

Module Names.
(** The string cut at its last dot, [lastIndexOf(".")], into what is before
    the dot and what is after it; [None] when it has no dot. *)
Fixpoint splitLastDot (s : string) : option (string * string) :=
  match s with
  | "" => None
  | String c s' =>
      match splitLastDot s' with
      | Some (b, e) => Some (String c b, e)
      | None => if Js.is_dot c then Some ("", s') else None
      end
  end.

(** [fileNaming]: [base] and [ext] of the default file name. *)
Definition fileNaming (name : string) : string * string :=
  match splitLastDot name with
  | None => (name, "")
  | Some (b, e) => (b, e)
  end.

(** [generateFileName(sequence)] for the default file name [name] *)
Definition generateFileName (name : string) (sequence : nat) : string :=
  if decide (sequence = 1) then name
  else
    let suffix := "_" +:+ pretty sequence in
    let '(base, ext) := fileNaming name in
    if decide (ext = "") then base +:+ suffix
    else base +:+ suffix +:+ "." +:+ ext.

(** The loop of [generateDuplicateName], bounded like [copyLoop]. *)
Fixpoint duplicateLoop (fuel : nat) (taken : gset string)
    (safeBase extSegment : string) (counter : nat) (candidate : string)
  : option string :=
  match fuel with
  | O => None
  | S fuel' =>
      if decide (candidate ∈ taken) then
        let counter' := S counter in
        duplicateLoop fuel' taken safeBase extSegment counter'
          (safeBase +:+ " Copy " +:+ pretty counter' +:+ extSegment)
      else Some candidate
  end.

(** [generateDuplicateName(baseName, existingTabs)] *)
Definition generateDuplicateName (fuel : nat) (baseName : string)
    (existingTabs : list Tab.t) : option string :=
  let '(baseSegment, extSegment) :=
    match splitLastDot baseName with
    | Some (b, e) => (b, "." +:+ e)
    | None => (baseName, "")
    end in
  let safeBase := Js.or_str baseSegment "untitled" in
  let taken : gset string := list_to_set (Tab.name <$> existingTabs) in
  duplicateLoop fuel taken safeBase extSegment 1
                (safeBase +:+ " Copy" +:+ extSegment).
End Names.

(** ** The editor widget and the manual save ([EditorPanel.jsx]) *)

Module Editor.
(** [onChange] of the editor widget with the new text [v]. *)
Definition onChange (v : string) (state : State) : State :=
  let s1 := Store.setSource v state in
  if decide (activeTabId s1 = "") then s1
  else
    match Store.updateTabContent (activeTabId s1) v s1 with
    | Some s2 => Store.setUnsavedFile (activeTabId s1) true s2
    | None => s1
    end.

(** The effect that keeps the content of the active tab in step with
    [source], dependencies [[source, activeTabId]]. *)
Definition syncEffect (state : State) : State :=
  if decide (activeTabId state = "") then state
  else
    match findTab (activeTabId state) (tabs state) with
    | None => state
    | Some tab =>
        if decide (Tab.content tab = source state) then state
        else default state
               (Store.updateTabContent (activeTabId state) (source state) state)
    end.

(** What [handleAIRequest] does with a non-blank [suggestion]. *)
Definition insertSuggestion (suggestion : string) (state : State) : State :=
  let marker := String "010" (String "010" "// AI Suggestion:") +:+ String "010" "" in
  let currSource := source state in
  let newContent :=
    if decide (currSource = "") then suggestion
    else currSource +:+ marker +:+ suggestion in
  let s1 := Store.setSource newContent state in
  if decide (activeTabId state = "") then s1
  else
    let tabContent :=
      match findTab (activeTabId state) (tabs state) with
      | Some tab => Tab.content tab
      | None => ""
      end in
    default s1
      (Store.updateTabContent (activeTabId state)
         (tabContent +:+ marker +:+ suggestion) s1).

(** [handleSave] up to its [await], on the world of the autosave tick. *)
Definition handleSaveStart (w : Autosave.World)
  : Autosave.World * option Autosave.Pending :=
  let state := Autosave.store w in
  if decide (activeTabId state = "") then (w, None)
  else if decide (source state = "") then (w, None)
  else
    match findTab (activeTabId state) (tabs state) with
    | None => (w, None)
    | Some activeTab =>
        let rawPath := Tab.key activeTab in
        let filePath := match Js.strip_prefix "/" rawPath with
                        | Some rest => rest
                        | None => rawPath
                        end in
        (Autosave.mkWorld
           (Store.setSaveStatus None (Store.setIsSaving true state))
           (Autosave.requests w ++ [(filePath, source state)])
           (Autosave.statusTimers w),
         Some (Autosave.mkPending (activeTabId state) filePath (source state)))
    end.

(** [handleSave] after its [await]. *)
Definition handleSaveFinish (activeId : string) (r : Autosave.Response)
    (w : Autosave.World) : Autosave.World :=
  let settled :=
    match r with
    | Autosave.Responded true =>
        Autosave.mkWorld
          (Store.setUnsavedFile activeId false
             (Store.setSaveStatus (Some "success") (Autosave.store w)))
          (Autosave.requests w) (Autosave.statusTimers w ++ [2000%Z])
    | Autosave.Responded false => w
    | Autosave.Threw =>
        Autosave.mkWorld
          (Store.setSaveStatus (Some "error") (Autosave.store w))
          (Autosave.requests w) (Autosave.statusTimers w ++ [3000%Z])
    end in
  Autosave.mkWorld (Store.setIsSaving false (Autosave.store settled))
                   (Autosave.requests settled) (Autosave.statusTimers settled).
End Editor.

(** ** Deleting a tab's file ([handleDeleteTab]) *)

Module Delete.
(** The component as this handler sees it: the store, the calls of
    [deleteFile] made so far, the window events dispatched and the alerts
    shown. *)
Record World := mkWorld {
  store : State;
  requests : list string;
  events : list string;
  alerts : list string
}.

Inductive Response :=
| Deleted
| Failed (err : ApiError.t).

(** The handler up to the promise: [confirmed] is the answer of
    [window.confirm]. *)
Definition start (confirmed : bool) (tabId : string) (w : World)
  : World * bool :=
  match findTab tabId (tabs (store w)) with
  | None => (w, false)
  | Some tab =>
      if confirmed then
        (mkWorld (store w) (requests w ++ [Tab.key tab]) (events w) (alerts w),
         true)
      else (w, false)
  end.

Section WithLanguageUtils.
Context `{LanguageUtils}.

(** The [.then] and [.catch] of the promise.  A throw inside [.then] lands
    in [.catch] as well; [thrown] is the error the engine raises then. *)
Definition finish (thrown : ApiError.t) (tabId : string) (r : Response)
    (w : World) : World :=
  let alert (err : ApiError.t) :=
    mkWorld (store w) (requests w) (events w)
            (alerts w ++ ["Failed to delete file: " +:+ ApiError.text err]) in
  match r with
  | Deleted =>
      match Store.deleteTab tabId (store w) with
      | Some s' =>
          mkWorld s' (requests w)
                  (events w ++ ["project-structure-changed"]) (alerts w)
      | None => alert thrown
      end
  | Failed err => alert err
  end.

End WithLanguageUtils.
End Delete.

(** ** Opening a file from the explorer ([handleFilePreview]) *)

Module Explorer.
(** [t.path ? t.path === filePath : t.name === fileName] *)
Definition sameFile (filePath fileName : string) (x : Tab.t) : Prop :=
  match truthyPath (Tab.path x) with
  | Some p => p = filePath
  | None => Tab.name x = fileName
  end.

Global Instance sameFile_dec filePath fileName x :
  Decision (sameFile filePath fileName x).
Proof. unfold sameFile. destruct (truthyPath (Tab.path x)); apply _. Defined.

Section WithLanguageUtils.
Context `{LanguageUtils}.

(** What [handleFilePreview] does to the store once [readFile] has answered
    with [content]. *)
Definition openFile (filePath fileName content : string) (state : State)
  : option State :=
  let text := Js.or_str content "" in
  match snd <$> list_find (sameFile filePath fileName) (tabs state) with
  | Some opened =>
      s1 ← Store.selectTab (Tab.id opened) state;
      Store.updateTabContent (Tab.id opened) text s1
  | None => Store.createTab fileName text true (Some filePath) state
  end.

End WithLanguageUtils.
End Explorer.

(** ** The output panel ([typeOut], [runTyping]) *)

Module Output.
(** The strings [typeOut(str)] yields, with [out] the text typed so far. *)
Fixpoint typeOutFrom (out str : string) : list string :=
  match str with
  | "" => []
  | String c rest =>
      let out' := out +:+ String c "" in
      out' :: typeOutFrom out' rest
  end.

Definition typeOut (str : string) : list string := typeOutFrom "" str.

Definition newline : string := String "010" "".

(** [parts.join(sep)] *)
Fixpoint join (sep : string) (parts : list string) : string :=
  match parts with
  | [] => ""
  | [x] => x
  | x :: rest => x +:+ sep +:+ join sep rest
  end.

(** The text [runTyping] types for the normalized [stdout], [stderr] and
    [compile_output] of a result. *)
Definition fullText (out err comp : string) : string :=
  let parts : list string :=
    ((if decide (Js.trim out = "") then [] else [Js.trim out]) ++
     (if decide (Js.trim err = "") then []
      else ["[stderr]" +:+ newline +:+ Js.trim err]) ++
     (if decide (Js.trim comp = "") then []
      else ["[compile]" +:+ newline +:+ Js.trim comp]))%list in
  let parts := match parts with [] => ["(no output)"] | _ => parts end in
  join (newline +:+ newline) parts.
End Output.

(** ** Vocabulary of the properties and sample stores *)

(** The [k]-th name tried by the loop of [duplicateTab]. *)
Definition candidateAt (safeBase : string) (k : nat) : string :=
  if decide (k = 1) then safeBase +:+ " Copy"
  else safeBase +:+ " Copy " +:+ pretty k.

(** A store is well formed when it has a tab, the active id names one of
    its tabs, no id occurs twice, and every id was issued by the counter. *)
Definition wf (s : State) : Prop :=
  tabs s <> [] /\
  activeTabId s ∈ (Tab.id <$> tabs s) /\
  NoDup (Tab.id <$> tabs s) /\
  Forall (fun x => exists k, k <= nextTabCounter s /\ Tab.id x = tabIdOf k)
         (tabs s).

(** A stand-in for [../lib/languageUtils], used where a concrete store is
    needed. *)
Definition sampleLanguageUtils : LanguageUtils :=
  {| getMonacoLanguage := fun _ => "javascript";
     getDefaultFileNameForMonaco := fun _ => "main.js" |}.

(** The store of the example: [main.py] and [main.py Copy] are open. *)
Definition twoTabs : State :=
  {| tabs := [ Tab.mk "tab-1" "main.py" "print(1)" true (Some 71%Z) (Some "main.py");
               Tab.mk "tab-2" "main.py Copy" "print(2)" true (Some 71%Z) None ];
     activeTabId := "tab-1";
     nextTabCounter := 2;
     source := "print(1)";
     languageId := 71;
     leaderboardTick := 0;
     unsavedFiles := ∅;
     isSaving := false;
     saveStatus := None |}.

(** [twoTabs] after the second tab was selected. *)
Definition twoTabsSecond : State :=
  {| tabs := tabs twoTabs;
     activeTabId := "tab-2";
     nextTabCounter := 2;
     source := "print(2)";
     languageId := 71;
     leaderboardTick := 0;
     unsavedFiles := ∅;
     isSaving := false;
     saveStatus := None |}.

(** In a log of frames, no [subscribe] follows another one without an
    [unsubscribe] or [unsubscribe-all] in between; [outstanding] tells
    whether a [subscribe] is outstanding where the log starts. *)
Fixpoint subscribesBracketed (outstanding : bool) (l : list Frame) : bool :=
  match l with
  | [] => true
  | Subscribe _ :: l' => negb outstanding && subscribesBracketed true l'
  | Unsubscribe _ :: l' => subscribesBracketed false l'
  | UnsubscribeAll :: l' => subscribesBracketed false l'
  | EditFrame _ _ _ _ :: l' => subscribesBracketed outstanding l'
  end.

(** Every pending timer is the one [debouncedSendRef] holds, and the send
    effect returned its clean-up when it set it. *)
Definition timersOwned (p : Panel.t) : Prop :=
  forall x, x ∈ Panel.timers p ->
    Panel.debouncedSendRef p = Some (Timer.id x) /\ Panel.sendCleanup p = true.

(** [twoTabs] with unsaved changes in the active tab. *)
Definition twoTabsUnsaved : State :=
  Store.setUnsavedFile "tab-1" true twoTabs.

(** ** Vocabulary of the further properties *)

(** The tab that takes over when the active tab at index [i] goes: the
    one before it, or the one after it when it was the first. *)
Definition neighbour (i : nat) (l : list Tab.t) : option Tab.t :=
  match i with
  | O => l !! 1
  | S j => l !! j
  end.


(** The heading [handleAIRequest] puts before a suggestion:
    two line feeds, [// AI Suggestion:], one line feed. *)
Definition suggestionHeading : string :=
  String "010" (String "010" "// AI Suggestion:") +:+ String "010" "".

(** The socket [wsRef] holds is open and no listener of [open] is
    pending on it. *)
Definition socketReady (p : Panel.t) : Prop :=
  exists i ws, Panel.wsRef p = Some i /\ Panel.sockets p !! i = Some ws /\
               Socket.readyState ws = OPEN /\ Socket.openListeners ws = [].

(** A render or a choice in the language menu that leaves the
    dependencies of the socket effect at [deps]. *)
Definition keepsLanguage `{LanguageUtils} (deps : string * string)
    (e : Panel.Event) : Prop :=
  match e with
  | Panel.TabsChanged state => Panel.socketDeps state = deps
  | Panel.LanguageChanged id =>
      (getDefaultFileNameForMonaco (getMonacoLanguage id),
       getMonacoLanguage id) = deps
  | _ => True
  end.

(** A second stand-in for [../lib/languageUtils], with two languages:
    Python for the id 71 and JavaScript for every other id. *)
Definition pythonOrJavascript : LanguageUtils :=
  {| getMonacoLanguage := fun id =>
       if decide (id = 71%Z) then "python" else "javascript";
     getDefaultFileNameForMonaco := fun lang =>
       if decide (lang = "python") then "main.py" else "main.js" |}.

(** A store with a Python tab and a JavaScript tab, the first active. *)
Definition mixedTabs : State :=
  {| tabs := [ Tab.mk "tab-1" "main.py" "print(1)" true (Some 71%Z) (Some "main.py");
               Tab.mk "tab-2" "app.js" "let x;" true (Some 63%Z) (Some "app.js") ];
     activeTabId := "tab-1";
     nextTabCounter := 2;
     source := "print(1)";
     languageId := 71;
     leaderboardTick := 0;
     unsavedFiles := ∅;
     isSaving := false;
     saveStatus := None |}.

(** No character of the string is a dot. *)
Definition dotless (s : string) : bool :=
  Js.all_chars (fun x => negb (Js.is_dot x)) s.

(** The [k]-th name tried by the loop of [generateDuplicateName]. *)
Definition duplicateAt (safeBase extSegment : string) (k : nat) : string :=
  if decide (k = 1) then safeBase +:+ " Copy" +:+ extSegment
  else safeBase +:+ " Copy " +:+ pretty k +:+ extSegment.

(** What the pending clean-up of the subscribe effect writes to the
    socket [wsRef] holds, when that socket is open: the [unsubscribe] for
    the path it closed over, if it closed over that socket and a path. *)
Definition unsubscribeFrames (p : Panel.t) : list Frame :=
  match Panel.subscribeCleanup p, Panel.wsRef p with
  | Some (j, Some f), Some i => if decide (j = i) then [Unsubscribe f] else []
  | _, _ => []
  end.

(** What the subscribe effect writes to an open socket for [path]. *)
Definition subscribeFrames (path : option string) : list Frame :=
  UnsubscribeAll :: match path with Some f => [Subscribe f] | None => [] end.

(** The frame is an edit. *)
Definition isEdit (f : Frame) : bool :=
  match f with EditFrame _ _ _ _ => true | _ => false end.

(** * Properties *)

(** ** Strings and the copy-name loop *)

Lemma tabIdOf_inj (j k : nat) : tabIdOf j = tabIdOf k -> j = k.
Proof.
  unfold tabIdOf. intros E.
  apply (inj (String.app "tab-")) in E.
  by apply pretty_nat_inj in E.
Qed.

Lemma candidateAt_inj (b : string) (j k : nat) :
  candidateAt b j = candidateAt b k -> j = k.
Proof.
  unfold candidateAt. intros E.
  repeat case_decide; subst; try done;
    apply (inj (String.app b)) in E; simpl in E.
  - discriminate E.
  - discriminate E.
  - injection E as E. by apply pretty_nat_inj in E.
Qed.

Lemma copyLoop_found (taken : gset string) (b : string) (fuel c k : nat) :
  1 <= c -> c <= k < c + fuel ->
  candidateAt b k ∉ taken ->
  (forall j, c <= j < k -> candidateAt b j ∈ taken) ->
  copyLoop fuel taken b c (candidateAt b c) = Some (candidateAt b k).
Proof.
  revert c. induction fuel as [|fuel IH]; intros c Hc Hk Hfree Hbusy; [lia|].
  simpl. case_decide as Hin.
  - destruct (decide (c = k)) as [->|Hne]; [done|].
    replace (b +:+ " Copy " +:+ pretty (S c)) with (candidateAt b (S c)).
    + apply IH; [lia|lia|done|]. intros j Hj. apply Hbusy. lia.
    + unfold candidateAt. case_decide; [lia|done].
  - destruct (decide (c = k)) as [->|Hne]; [done|].
    exfalso. apply Hin, Hbusy. lia.
Qed.

(** Among the first [S (length names)] candidates one is free. *)
Lemma free_candidate (names : list string) (b : string) :
  exists k, 1 <= k <= S (length names) /\
            (candidateAt b k ∉ names) /\
            forall j, 1 <= j < k -> candidateAt b j ∈ names.
Proof.
  assert (Hex : exists k, 1 <= k <= S (length names) /\ candidateAt b k ∉ names).
  { destruct (decide (Forall (fun k => candidateAt b k ∈ names)
                             (seq 1 (S (length names))))) as [Hall|Hnot].
    - exfalso.
      assert (Hnd : NoDup (candidateAt b <$> seq 1 (S (length names)))).
      { apply NoDup_fmap_2_strong; [|apply NoDup_seq].
        intros ?? _ _. apply candidateAt_inj. }
      assert (Hsub : candidateAt b <$> seq 1 (S (length names)) ⊆+ names).
      { apply NoDup_submseteq; [done|].
        intros x [k [-> Hk]]%list_elem_of_fmap.
        by apply (proj1 (Forall_forall _ _) Hall). }
      apply submseteq_length in Hsub.
      rewrite length_fmap, length_seq in Hsub. lia.
    - apply not_Forall_Exists in Hnot; [|solve_decision].
      apply Exists_exists in Hnot as [k [Hk Hfree]].
      apply elem_of_seq in Hk. exists k. split; [lia|done]. }
  destruct Hex as [k Hk]. revert Hk.
  induction (lt_wf k) as [k _ IH]. intros [Hk Hfree].
  destruct (decide (Forall (fun j => candidateAt b j ∈ names)
                           (seq 1 (k - 1)))) as [Hall|Hnot].
  - exists k. repeat split; [lia|lia|done|].
    intros j Hj. apply (proj1 (Forall_forall _ _) Hall), elem_of_seq. lia.
  - apply not_Forall_Exists in Hnot; [|solve_decision].
    apply Exists_exists in Hnot as [j [Hj Hjfree]].
    apply elem_of_seq in Hj.
    apply (IH j); [lia|]. split; [lia|done].
Qed.

(** The loop of [duplicateTab] ends: with one round more than there are
    names it returns the first free candidate. *)
Lemma copyName_total (names : list string) (original : string) :
  let b := stripCopySuffix (Js.or_str original "untitled") in
  exists k, 1 <= k <= S (length names) /\
    copyName (S (length names)) names original = Some (candidateAt b k) /\
    (candidateAt b k ∉ names) /\
    forall j, 1 <= j < k -> candidateAt b j ∈ names.
Proof.
  intros b. destruct (free_candidate names b) as (k & Hk & Hfree & Hbusy).
  exists k. repeat split; try done; try lia.
  unfold copyName. fold b.
  change (b +:+ " Copy") with (candidateAt b 1).
  apply copyLoop_found; [lia|lia| |].
  - by rewrite elem_of_list_to_set.
  - intros j Hj. rewrite elem_of_list_to_set. by apply Hbusy.
Qed.

(** More fuel does not change an answer once there is one. *)
Lemma copyLoop_more_fuel (taken : gset string) (b : string) (f g c : nat)
    (cand r : string) :
  copyLoop f taken b c cand = Some r -> f <= g ->
  copyLoop g taken b c cand = Some r.
Proof.
  revert g c cand. induction f as [|f IH]; intros g c cand Hr Hfg; [done|].
  destruct g as [|g]; [lia|]. simpl in *.
  case_decide; [|done]. apply IH; [done|lia].
Qed.

(** Hence the bound on the rounds is no restriction: any larger bound
    gives the same name, which is the one the unbounded loop of the source
    stops at. *)
Lemma copyName_fuel (names : list string) (original : string) (fuel : nat) :
  S (length names) <= fuel ->
  copyName fuel names original = copyName (S (length names)) names original.
Proof.
  intros Hfuel.
  destruct (copyName_total names original) as (k & _ & Hname & _).
  rewrite Hname. unfold copyName in *.
  by apply (copyLoop_more_fuel _ _ (S (length names))).
Qed.

(** ** Lookups in the tab list *)

Lemma findTab_Some (i : string) (l : list Tab.t) (x : Tab.t) :
  findTab i l = Some x -> x ∈ l /\ Tab.id x = i.
Proof.
  unfold findTab. destruct (list_find _ l) as [[n y]|] eqn:E; [|done].
  simpl. intros [= ->]. apply list_find_Some in E as (Hl & Hid & _).
  split; [by eapply list_elem_of_lookup_2|done].
Qed.

Lemma findTab_is_Some (i : string) (l : list Tab.t) :
  i ∈ (Tab.id <$> l) -> is_Some (findTab i l).
Proof.
  intros [x [-> Hx]]%list_elem_of_fmap. unfold findTab.
  destruct (list_find (fun y => Tab.id y = Tab.id x) l) as [p|] eqn:E; [by eexists|].
  exfalso. apply list_find_None in E.
  by apply (proj1 (Forall_forall _ _) E x Hx).
Qed.

Lemma findTab_None (i : string) (l : list Tab.t) :
  findTab i l = None -> i ∉ (Tab.id <$> l).
Proof.
  intros E Hin. apply findTab_is_Some in Hin as [x Hx]. congruence.
Qed.

Lemma findTab_or_first (i : string) (l : list Tab.t) :
  l <> [] ->
  exists x, match findTab i l with Some y => Some y | None => l !! 0 end = Some x
            /\ x ∈ l.
Proof.
  intros Hne. destruct (findTab i l) as [y|] eqn:E.
  - exists y. split; [done|]. by apply findTab_Some in E as [? _].
  - destruct l as [|x l]; [done|]. exists x. split; [done|]. by left.
Qed.

Lemma findIndex_range (i : string) (l : list Tab.t) :
  i ∈ (Tab.id <$> l) -> (0 <= findIndex i l < Z.of_nat (length l))%Z.
Proof.
  intros [x Hx]%findTab_is_Some. unfold findTab, findIndex in *.
  destruct (list_find _ l) as [[n y]|] eqn:E; [|done].
  apply list_find_Some in E as (Hl & _). apply lookup_lt_Some in Hl. lia.
Qed.

Lemma findIndex_absent (i : string) (l : list Tab.t) :
  i ∉ (Tab.id <$> l) -> findIndex i l = (-1)%Z.
Proof.
  intros Hout. unfold findIndex.
  destruct (list_find _ l) as [[n y]|] eqn:E; [|done].
  exfalso. apply Hout. apply list_find_Some in E as (Hl & Hid & _).
  apply list_elem_of_fmap. exists y. split; [done|].
  by eapply list_elem_of_lookup_2.
Qed.

Lemma withoutTab_elem (i : string) (l : list Tab.t) (x : Tab.t) :
  x ∈ withoutTab i l <-> Tab.id x <> i /\ x ∈ l.
Proof. unfold withoutTab. by rewrite list_elem_of_filter. Qed.

Lemma withoutTab_absent (i : string) (l : list Tab.t) :
  i ∉ (Tab.id <$> l) -> withoutTab i l = l.
Proof.
  intros Hout. unfold withoutTab. induction l as [|x l IH]; [done|].
  rewrite fmap_cons, not_elem_of_cons in Hout. destruct Hout as [Hx Hl].
  rewrite filter_cons_True by done. by rewrite IH.
Qed.

Lemma withoutTab_length (i : string) (l : list Tab.t) :
  NoDup (Tab.id <$> l) -> length l <= S (length (withoutTab i l)).
Proof.
  unfold withoutTab. induction l as [|x l IH]; intros Hnd; [simpl; lia|].
  rewrite fmap_cons in Hnd. apply NoDup_cons in Hnd as [Hx Hnd].
  destruct (decide (Tab.id x = i)) as [<-|Hne].
  - rewrite filter_cons_False by naive_solver.
    fold (withoutTab (Tab.id x) l). rewrite withoutTab_absent by done.
    simpl. lia.
  - rewrite filter_cons_True by done. simpl. specialize (IH Hnd). lia.
Qed.

Lemma withoutTab_ids_sublist (i : string) (l : list Tab.t) :
  (Tab.id <$> withoutTab i l) `sublist_of` (Tab.id <$> l).
Proof. apply fmap_sublist, sublist_filter. Qed.

Lemma mapTab_ids (i : string) (f : Tab.t -> Tab.t) (l : list Tab.t) :
  (forall x, Tab.id (f x) = Tab.id x) ->
  Tab.id <$> mapTab i f l = Tab.id <$> l.
Proof.
  intros Hf. unfold mapTab. rewrite <- list_fmap_compose.
  apply list_fmap_ext. intros _ x _. simpl. case_decide; [apply Hf|done].
Qed.

(** ** The tab invariant *)

Section TabInvariant.
Context `{LanguageUtils}.

Lemma wf_initial (welcome : string) : wf (Store.initial welcome).
Proof.
  unfold wf, Store.initial. simpl. repeat split.
  - done.
  - by apply list_elem_of_singleton.
  - apply NoDup_singleton.
  - apply Forall_singleton. exists 1. split; [lia|done].
Qed.

Lemma wf_resetToBase (s : State) : wf (Store.resetToBase s).
Proof.
  unfold wf, Store.resetToBase. simpl. repeat split.
  - done.
  - by apply list_elem_of_singleton.
  - apply NoDup_singleton.
  - apply Forall_singleton. exists 1. split; [lia|done].
Qed.

Lemma wf_opened (s : State) (x : Tab.t) (src : string) (lang : Z) :
  wf s -> Tab.id x = tabIdOf (nextTabCounter s + 1) ->
  wf (Store.opened s x (nextTabCounter s + 1) src lang).
Proof.
  intros (Hne & Hact & Hnd & Hall) Hid. unfold wf, Store.opened. simpl.
  repeat split.
  - by destruct (tabs s).
  - rewrite fmap_app. apply elem_of_app. right. by apply list_elem_of_singleton.
  - rewrite fmap_app. apply NoDup_app. repeat split; [done| |apply NoDup_singleton].
    intros i Hi Hi'. apply list_elem_of_singleton in Hi'. subst i.
    apply list_elem_of_fmap in Hi as [y [Hy Hin]].
    apply (proj1 (Forall_forall _ _) Hall) in Hin as [k [Hk Hyk]].
    rewrite Hid, Hyk in Hy. apply tabIdOf_inj in Hy. lia.
  - apply Forall_app. split.
    + eapply Forall_impl; [exact Hall|]. intros y [k [Hk Hy]].
      exists k. split; [lia|done].
    + apply Forall_singleton. exists (nextTabCounter s + 1). split; [lia|done].
Qed.

Lemma wf_withTabs (s : State) (l : list Tab.t) :
  wf s -> Tab.id <$> l = Tab.id <$> tabs s -> wf (Store.withTabs s l).
Proof.
  intros (Hne & Hact & Hnd & Hall) Hids. unfold wf, Store.withTabs. simpl.
  rewrite Hids. repeat split; try done.
  - intros ->. destruct (tabs s); done.
  - apply Forall_forall. intros x Hx.
    assert (Hin : Tab.id x ∈ (Tab.id <$> tabs s)).
    { rewrite <- Hids. apply list_elem_of_fmap. by exists x. }
    apply list_elem_of_fmap in Hin as [y [Hy Hyin]].
    apply (proj1 (Forall_forall _ _) Hall) in Hyin as [k [Hk Hyk]].
    exists k. split; [done|congruence].
Qed.

Lemma wf_narrowed (s : State) (l : list Tab.t) (i : string) (x : Tab.t) :
  wf s -> l <> [] -> l `sublist_of` tabs s -> i ∈ (Tab.id <$> l) ->
  wf (Store.narrowed s l i x).
Proof.
  intros (Hne & Hact & Hnd & Hall) Hl Hsub Hi. unfold wf, Store.narrowed.
  simpl. repeat split; try done.
  - apply (sublist_NoDup _ (Tab.id <$> tabs s)); [exact Hnd|by apply fmap_sublist].
  - apply Forall_forall. intros y Hy.
    apply (proj1 (Forall_forall _ _) Hall). by eapply elem_of_sublist.
Qed.

Lemma removeAt_wf (tabId : string) (s : State) :
  wf s -> (tabId ∈ (Tab.id <$> tabs s) -> 2 <= length (tabs s)) ->
  exists s', Store.removeAt tabId (findIndex tabId (tabs s)) s = Some s' /\ wf s'.
Proof.
  intros Hwf Hlen. pose proof Hwf as (Hne & Hact & Hnd & Hall).
  unfold Store.removeAt.
  set (nextTabs := withoutTab tabId (tabs s)).
  assert (Hsub : nextTabs `sublist_of` tabs s) by apply sublist_filter.
  assert (Hnext : nextTabs <> []).
  { destruct (decide (tabId ∈ (Tab.id <$> tabs s))) as [Hin|Hout].
    - pose proof (withoutTab_length tabId (tabs s) Hnd) as Hle.
      specialize (Hlen Hin). fold nextTabs in Hle.
      intros E. rewrite E in Hle. simpl in Hle. lia.
    - unfold nextTabs. by rewrite withoutTab_absent. }
  assert (Hpick : exists i,
    (if decide (tabId = activeTabId s)
     then Tab.id <$> fallbackAt (findIndex tabId (tabs s)) nextTabs
     else Some (activeTabId s)) = Some i /\ i ∈ (Tab.id <$> nextTabs)).
  { case_decide as Hact'.
    - subst tabId. pose proof (findIndex_range _ _ Hact) as Hr.
      pose proof (withoutTab_length (activeTabId s) (tabs s) Hnd) as Hle.
      fold nextTabs in Hle. specialize (Hlen Hact). unfold fallbackAt.
      destruct (lookup_lt_is_Some_2 nextTabs
        (Z.to_nat (Z.max (findIndex (activeTabId s) (tabs s) - 1) 0)))
        as [y Hy]; [lia|].
      exists (Tab.id y). rewrite Hy. split; [done|].
      apply list_elem_of_fmap. exists y. split; [done|].
      by eapply list_elem_of_lookup_2.
    - exists (activeTabId s). split; [done|].
      apply list_elem_of_fmap in Hact as [y [Hy Hin]].
      apply list_elem_of_fmap. exists y. split; [done|].
      apply withoutTab_elem. split; [congruence|done]. }
  destruct Hpick as (i & -> & Hi). simpl.
  destruct (findTab_or_first i nextTabs Hnext) as (x & -> & Hx). simpl.
  eexists. split; [done|]. by apply wf_narrowed.
Qed.

(** Every action keeps the invariant and none of them throws. *)
Lemma perform_wf (a : Store.Action) (s : State) :
  wf s -> exists s', Store.perform a s = Some s' /\ wf s'.
Proof.
  intros Hwf. pose proof Hwf as (Hne & Hact & Hnd & Hall).
  destruct a as [|n c b p|i|i c|i n p|i|i|i| |i]; simpl.
  - eexists. split; [done|]. by apply wf_opened.
  - eexists. split; [done|]. by apply wf_opened.
  - unfold Store.selectTab.
    destruct (findTab_or_first i (tabs s) Hne) as (x & -> & Hx). simpl.
    eexists. split; [done|]. unfold wf. simpl. repeat split; try done.
    apply list_elem_of_fmap. by exists x.
  - eexists. split; [done|]. apply wf_withTabs; [done|]. by apply mapTab_ids.
  - eexists. split; [done|]. apply wf_withTabs; [done|]. by apply mapTab_ids.
  - unfold Store.duplicateTab. destruct (findTab i (tabs s)) as [o|]; [|by eexists].
    destruct (copyName_total (Tab.name <$> tabs s) (Tab.name o))
      as (k & _ & Hk & _).
    rewrite length_fmap in Hk. rewrite Hk. simpl.
    eexists. split; [done|]. by apply wf_opened.
  - unfold Store.closeTab. case_decide; [by eexists|].
    case_decide as Hidx; [by eexists|].
    apply removeAt_wf; [done|]. intros _.
    destruct (tabs s) as [|? [|? ?]]; simpl in *; [done|done|lia].
  - unfold Store.closeOthers.
    destruct (findTab_or_first i (tabs s) Hne) as (x & -> & Hx). simpl.
    eexists. split; [done|]. apply wf_narrowed; [done|done| |].
    + by apply singleton_sublist_l.
    + by apply list_elem_of_singleton.
  - eexists. split; [done|]. apply wf_resetToBase.
  - unfold Store.deleteTab.
    destruct (tabs s) as [|x [|y l]] eqn:E; [done| |].
    + case_decide as Hx; [eexists; split; [done|apply wf_resetToBase]|].
      rewrite <- E. apply removeAt_wf; [done|].
      rewrite E. intros Hin. apply list_elem_of_singleton in Hin. done.
    + rewrite <- E. apply removeAt_wf; [done|]. rewrite E. simpl. lia.
Qed.

Lemma run_wf (l : list Store.Action) (s : State) :
  wf s -> exists s', Store.run l s = Some s' /\ wf s'.
Proof.
  revert s. induction l as [|a l IH]; intros s Hwf; simpl.
  - by exists s.
  - destruct (perform_wf a s Hwf) as (s1 & -> & Hwf1). simpl. by apply IH.
Qed.

End TabInvariant.

Section TabStore.
Context `{LanguageUtils}.

(** C6. From a well-formed store (the store the module starts with is
    one, [wf_initial]) every sequence of the ten tab actions runs without
    throwing and ends in a store that has at least one tab, whose ids are
    pairwise distinct and whose [activeTabId] is the id of one of its
    tabs.  In such a store [closeTab] on the only tab returns the state
    itself, and [deleteTab] on the only tab leaves exactly one tab, the
    default one: id [tab-1], the default file name of the current
    language, empty content, no custom name, no path. *)
Theorem tab_store_never_empty (l : list Store.Action) (s : State) :
  wf s ->
  exists s',
    Store.run l s = Some s' /\
    tabs s' <> [] /\
    NoDup (Tab.id <$> tabs s') /\
    (exists x, x ∈ tabs s' /\ Tab.id x = activeTabId s') /\
    (forall only i, tabs s' = [only] -> Store.closeTab i s' = Some s') /\
    (forall only, tabs s' = [only] ->
       exists s'',
         Store.deleteTab (Tab.id only) s' = Some s'' /\
         tabs s'' =
           [ {| Tab.id := "tab-1";
                Tab.name := getDefaultFileNameForMonaco
                              (getMonacoLanguage (languageId s'));
                Tab.content := "";
                Tab.isCustomName := false;
                Tab.languageId := Some (languageId s');
                Tab.path := None |} ] /\
         activeTabId s'' = "tab-1" /\
         nextTabCounter s'' = 1 /\
         source s'' = "").
Proof.
  intros Hwf. destruct (run_wf l s Hwf) as (s' & Hrun & Hwf').
  pose proof Hwf' as (Hne & Hact & Hnd & _).
  exists s'. repeat split; try done.
  - apply list_elem_of_fmap in Hact as [x [Hx Hin]]. by exists x.
  - intros only i E. unfold Store.closeTab. rewrite E. done.
  - intros only E. exists (Store.resetToBase s').
    unfold Store.deleteTab. rewrite E. case_decide; done.
Qed.

End TabStore.

(** A run from the initial store: open two tabs, close one, delete the
    others down to the last, delete the last. *)
Lemma tab_store_never_empty_witness :
  wf (Store.initial (H := sampleLanguageUtils) "") /\
  exists s',
    Store.run (H := sampleLanguageUtils)
      [Store.AddTab; Store.DuplicateTab "tab-1"; Store.CloseTab "tab-2";
       Store.DeleteTab "tab-3"; Store.DeleteTab "tab-1"]
      (Store.initial (H := sampleLanguageUtils) "") = Some s' /\
    tabs s' <> [] /\
    exists x, x ∈ tabs s' /\ Tab.id x = activeTabId s'.
Proof.
  split; [apply wf_initial|].
  destruct (tab_store_never_empty (H := sampleLanguageUtils)
              [Store.AddTab; Store.DuplicateTab "tab-1"; Store.CloseTab "tab-2";
               Store.DeleteTab "tab-3"; Store.DeleteTab "tab-1"]
              (Store.initial (H := sampleLanguageUtils) "")
              (wf_initial (H := sampleLanguageUtils) ""))
    as (s' & Hrun & Hne & _ & Hact & _).
  exists s'. repeat split; assumption.
Defined.

(** ** Names given by [duplicateTab] *)

Lemma isCopySuffix_nonempty (m : string) : isCopySuffix m = true -> m <> "".
Proof. by intros E ->. Qed.

Lemma stripCopySuffix_eq (s : string) :
  stripCopySuffix s =
    if isCopySuffix s then ""
    else match s with
         | "" => ""
         | String c s' => String c (stripCopySuffix s')
         end.
Proof. by destruct s. Qed.

(** What [stripCopySuffix] removes from a name that ends in a copy suffix
    is a copy suffix that contains the given one. *)
Lemma stripCopySuffix_app (stem sfx : string) :
  isCopySuffix sfx = true ->
  exists rest, stem = stripCopySuffix (stem +:+ sfx) +:+ rest /\
               isCopySuffix (rest +:+ sfx) = true.
Proof.
  intros Hsfx. induction stem as [|c stem IH].
  - exists "". change ("" +:+ sfx) with sfx.
    rewrite stripCopySuffix_eq, Hsfx. by split.
  - rewrite stripCopySuffix_eq.
    change (String c stem +:+ sfx) with (String c (stem +:+ sfx)).
    destruct (isCopySuffix (String c (stem +:+ sfx))) eqn:E.
    + exists (String c stem). by split.
    + destruct IH as (rest & Hstem & Hrest). exists rest.
      split; [|done].
      change (String c (stripCopySuffix (stem +:+ sfx)) +:+ rest)
        with (String c (stripCopySuffix (stem +:+ sfx) +:+ rest)).
      by rewrite <- Hstem.
Qed.

Lemma duplicateTab_result (tabId : string) (s : State) (original : Tab.t) :
  findTab tabId (tabs s) = Some original ->
  let b := stripCopySuffix (Js.or_str (Tab.name original) "untitled") in
  exists k,
    1 <= k /\
    Store.duplicateTab tabId s =
      Some (Store.opened s
              {| Tab.id := tabIdOf (nextTabCounter s + 1);
                 Tab.name := candidateAt b k;
                 Tab.content := Tab.content original;
                 Tab.isCustomName := true;
                 Tab.languageId :=
                   Some (Js.nullish (Tab.languageId original) (languageId s));
                 Tab.path := None |}
              (nextTabCounter s + 1) (Tab.content original)
              (Js.nullish (Tab.languageId original) (languageId s))) /\
    (candidateAt b k ∉ (Tab.name <$> tabs s)) /\
    forall j, 1 <= j < k -> candidateAt b j ∈ (Tab.name <$> tabs s).
Proof.
  intros Hfind b.
  destruct (copyName_total (Tab.name <$> tabs s) (Tab.name original))
    as (k & Hk & Hname & Hfree & Hbusy).
  exists k. split; [lia|]. split; [|by split].
  unfold Store.duplicateTab. rewrite Hfind.
  rewrite length_fmap in Hname. by rewrite Hname.
Qed.


(** Goes through the tabs of a concrete store: [Hx : x ∈ tabs s], and the
    goal is refuted by computation for each of them. *)
Ltac each_tab Hx :=
  simpl in Hx;
  repeat (apply elem_of_cons in Hx as [->|Hx]; [discriminate|]);
  by apply elem_of_nil in Hx.


(** C10. The tab made by [duplicateTab] always has [isCustomName = true]
    and no [path].  When the name of the original ends in a copy suffix
    [sfx] (the text [ Copy], then optionally a space and digits, then
    optionally an extension), the base of the new name is a prefix of what
    precedes [sfx], and what was cut off is itself a copy suffix: the
    suffix is removed before [ Copy] or [ Copy N] is appended.  A tab
    [main.py Copy] in a store with no tab [main.py Copy 2] is duplicated as
    [main.py Copy 2]. *)
Theorem duplicateTab_strips_copy_suffix
    (tabId : string) (s : State) (original : Tab.t) :
  findTab tabId (tabs s) = Some original ->
  exists (k : nat) (dup : Tab.t) (s' : State),
    Store.duplicateTab tabId s = Some s' /\
    tabs s' = (tabs s ++ [dup])%list /\
    Tab.isCustomName dup = true /\
    Tab.path dup = None /\
    (forall stem sfx,
       Tab.name original = stem +:+ sfx -> isCopySuffix sfx = true ->
       exists base rest,
         stem = base +:+ rest /\
         isCopySuffix (rest +:+ sfx) = true /\
         Tab.name dup = candidateAt base k) /\
    (Tab.name original = "main.py Copy" ->
     (forall x, x ∈ tabs s -> Tab.name x <> "main.py Copy 2") ->
     Tab.name dup = "main.py Copy 2").
Proof.
  intros Hfind.
  destruct (duplicateTab_result tabId s original Hfind)
    as (k & Hk & Hdup & Hfree & Hbusy).
  eexists k, _, _. split; [exact Hdup|]. simpl.
  split; [done|]. split; [done|]. split; [done|]. split.
  - intros stem sfx Hname Hsfx.
    destruct (stripCopySuffix_app stem sfx Hsfx) as (rest & Hstem & Hrest).
    exists (stripCopySuffix (stem +:+ sfx)), rest.
    split; [done|]. split; [done|].
    rewrite Hname. unfold Js.or_str. case_decide as Hempty; [|done].
    apply isCopySuffix_nonempty in Hsfx. destruct stem, sfx; done.
  - intros Hname Hno. rewrite Hname in *.
    change (stripCopySuffix (Js.or_str "main.py Copy" "untitled"))
      with "main.py" in *.
    destruct (decide (k = 1)) as [->|Hk1].
    { exfalso. apply Hfree. apply list_elem_of_fmap. exists original.
      split; [done|]. by apply findTab_Some in Hfind as [? _]. }
    destruct (decide (k = 2)) as [->|Hk2]; [done|].
    exfalso. assert (Hj : 1 <= 2 < k) by lia.
    apply Hbusy in Hj. apply list_elem_of_fmap in Hj as [y [Hy Hin]].
    by apply (Hno y Hin).
Qed.

Lemma duplicateTab_strips_copy_suffix_witness :
  findTab "tab-2" (tabs twoTabs) =
    Some (Tab.mk "tab-2" "main.py Copy" "print(2)" true (Some 71%Z) None) /\
  exists (dup : Tab.t) (s' : State),
    Store.duplicateTab "tab-2" twoTabs = Some s' /\
    tabs s' = (tabs twoTabs ++ [dup])%list /\
    Tab.isCustomName dup = true /\
    Tab.path dup = None /\
    Tab.name dup = "main.py Copy 2".
Proof.
  split; [reflexivity|].
  destruct (duplicateTab_strips_copy_suffix "tab-2" twoTabs
              (Tab.mk "tab-2" "main.py Copy" "print(2)" true (Some 71%Z) None)
              eq_refl)
    as (k & dup & s' & Hdup & Htabs & Hcustom & Hpath & _ & Hex).
  exists dup, s'. repeat split; try assumption.
  apply Hex; [reflexivity|].
  intros x Hx. each_tab Hx.
Defined.

(** ** Inbound edits *)

Lemma or_zero_id (x : Z) : Js.or_zero x = x.
Proof. unfold Js.or_zero. by case_decide. Qed.

Lemma or_str_empty (a : string) : Js.or_str a "" = a.
Proof. unfold Js.or_str. by case_decide. Qed.

Lemma findTab_mapTab (i : string) (f : Tab.t -> Tab.t) (l : list Tab.t) :
  (forall x, Tab.id (f x) = Tab.id x) ->
  findTab i (mapTab i f l) = f <$> findTab i l.
Proof.
  intros Hf. unfold findTab, mapTab. rewrite list_find_fmap.
  rewrite (list_find_ext _ (fun x => Tab.id x = i)).
  - destruct (list_find _ l) as [[n y]|] eqn:E; [|done]. simpl.
    apply list_find_Some in E as (_ & Hy & _). by rewrite decide_True.
  - intros x. simpl. case_decide; [|done]. rewrite Hf. done.
Qed.

Lemma key_setContent (text : string) (x : Tab.t) :
  Tab.key (Store.setContent text x) = Tab.key x.
Proof. done. Qed.

(** The handler on an edit of a peer for the active, keyed file. *)
Lemma onMessage_active (self : string) (m : EditMsg.t) (p : Panel.t) :
  EditMsg.clientId m <> self ->
  activePath (Panel.store p) = Some (EditMsg.filePath m) ->
  EditMsg.filePath m <> "" ->
  Panel.onMessage self (Edit m) p =
    if decide (EditMsg.timestamp m >
               Marker.timestamp (Panel.lastAppliedRemote p))%Z
    then
      Panel.mk
        (Store.setSource (EditMsg.content m)
           (Store.withTabs (Panel.store p)
              (mapTab (activeTabId (Panel.store p))
                      (Store.setContent (EditMsg.content m))
                      (tabs (Panel.store p)))))
        (Marker.mk (Some (EditMsg.filePath m)) (EditMsg.timestamp m))
        (Panel.sockets p) (Panel.wsRef p) (Panel.debouncedSendRef p)
        (Panel.now p) (Panel.nextTimerId p) (Panel.pending p)
        (Panel.subscribeCleanup p) (Panel.sendCleanup p)
    else p.
Proof.
  intros Hpeer Hpath Hkey. unfold Panel.onMessage.
  rewrite decide_False by done. rewrite Hpath. simpl.
  rewrite decide_False by done. rewrite decide_True by done.
  rewrite !or_zero_id, or_str_empty. by case_decide.
Qed.

(** The handler when the active tab has the empty key. *)
Lemma onMessage_no_key (self : string) (msg : Inbound) (p : Panel.t) :
  activePath (Panel.store p) = Some "" -> Panel.onMessage self msg p = p.
Proof.
  intros Hpath. unfold Panel.onMessage. destruct msg as [m|]; [|done].
  case_decide; [done|]. by rewrite Hpath.
Qed.

(** C1, as the code has it.  Take an edit of another client whose
    [filePath] is the collaboration key of the active tab.  When that key
    is the empty string the edit is dropped.  Otherwise the edit is
    applied exactly when its timestamp is strictly greater than the one of
    the last-applied-remote marker: then the active tab keeps its id,
    name, path and language and has the content of the message, the
    source buffer has that content too, and the marker becomes
    [{filePath, timestamp}] of the message; with a timestamp that is not
    greater nothing changes.  Hence, once a message stamped [t2] has been
    applied, a message for the same path stamped [t1 < t2] that arrives
    later is rejected and the content stays that of [t2]. *)
Theorem remote_edit_applied_iff_newer
    (self : string) (m : EditMsg.t) (p : Panel.t) (active : Tab.t) :
  EditMsg.clientId m <> self ->
  findTab (activeTabId (Panel.store p)) (tabs (Panel.store p)) = Some active ->
  Tab.key active = EditMsg.filePath m ->
  let p' := Panel.onMessage self (Edit m) p in
  let applied : Tab.t :=
    Tab.mk (Tab.id active) (Tab.name active) (EditMsg.content m)
           (Tab.isCustomName active) (Tab.languageId active) (Tab.path active) in
  (EditMsg.filePath m = "" -> p' = p) /\
  (EditMsg.filePath m <> "" ->
   ((EditMsg.timestamp m > Marker.timestamp (Panel.lastAppliedRemote p))%Z ->
      activeTabId (Panel.store p') = activeTabId (Panel.store p) /\
      findTab (activeTabId (Panel.store p')) (tabs (Panel.store p')) =
        Some applied /\
      source (Panel.store p') = EditMsg.content m /\
      Panel.lastAppliedRemote p' =
        Marker.mk (Some (EditMsg.filePath m)) (EditMsg.timestamp m)) /\
   ((EditMsg.timestamp m <= Marker.timestamp (Panel.lastAppliedRemote p))%Z ->
      p' = p) /\
   (forall older : EditMsg.t,
      (EditMsg.timestamp m > Marker.timestamp (Panel.lastAppliedRemote p))%Z ->
      EditMsg.clientId older <> self ->
      EditMsg.filePath older = EditMsg.filePath m ->
      (EditMsg.timestamp older < EditMsg.timestamp m)%Z ->
      Panel.onMessage self (Edit older) p' = p')).
Proof.
  intros Hpeer Hfind Hkey p' applied.
  assert (Hpath : activePath (Panel.store p) = Some (EditMsg.filePath m)).
  { unfold activePath. by rewrite Hfind, <- Hkey. }
  split.
  { intros Hempty. apply onMessage_no_key. by rewrite Hpath, Hempty. }
  intros Hne.
  assert (Hp' : p' = _) by exact (onMessage_active self m p Hpeer Hpath Hne).
  assert (Hnew : (EditMsg.timestamp m > Marker.timestamp (Panel.lastAppliedRemote p))%Z ->
            activeTabId (Panel.store p') = activeTabId (Panel.store p) /\
            findTab (activeTabId (Panel.store p')) (tabs (Panel.store p')) =
              Some applied /\
            source (Panel.store p') = EditMsg.content m /\
            Panel.lastAppliedRemote p' =
              Marker.mk (Some (EditMsg.filePath m)) (EditMsg.timestamp m)).
  { intros Hgt. rewrite Hp', decide_True by done. simpl.
    rewrite findTab_mapTab by done. by rewrite Hfind. }
  split; [exact Hnew|]. split.
  - intros Hle. rewrite Hp'. rewrite decide_False by lia. done.
  - intros older Hgt Hpeer' Hsame Hlt.
    destruct (Hnew Hgt) as (_ & Hfind' & _ & Hmark).
    rewrite onMessage_active; [|done| |congruence].
    + rewrite decide_False; [done|]. rewrite Hmark. simpl. lia.
    + unfold activePath. rewrite Hfind'. simpl.
      change (Tab.key applied) with (Tab.key active). congruence.
Qed.

(** The scenario of the specification: [main.py] is active, the marker is
    at 0, client [B] sends [x=1] stamped 1000 and then [x=2] stamped 500. *)
Lemma remote_edit_applied_iff_newer_witness :
  let p := Panel.mounted twoTabs in
  let m := EditMsg.mk "main.py" "x=1" "B" 1000 in
  let p' := Panel.onMessage "A" (Edit m) p in
  findTab "tab-1" (tabs (Panel.store p')) =
    Some (Tab.mk "tab-1" "main.py" "x=1" true (Some 71%Z) (Some "main.py")) /\
  source (Panel.store p') = "x=1" /\
  Panel.lastAppliedRemote p' = Marker.mk (Some "main.py") 1000 /\
  Panel.onMessage "A" (Edit (EditMsg.mk "main.py" "x=2" "B" 500)) p' = p'.
Proof.
  intros p m p'.
  destruct (remote_edit_applied_iff_newer "A" m p
              (Tab.mk "tab-1" "main.py" "print(1)" true (Some 71%Z) (Some "main.py")))
    as (_ & Hkeyed).
  - discriminate.
  - reflexivity.
  - reflexivity.
  - destruct Hkeyed as (Hnew & _ & Hold); [discriminate|].
    destruct Hnew as (_ & Htab & Hsrc & Hmark); [reflexivity|].
    split; [exact Htab|]. split; [exact Hsrc|]. split; [exact Hmark|].
    apply Hold; [reflexivity|discriminate|reflexivity|reflexivity].
Defined.

(** C1, as the specification has it, fails for the empty key.  The second
    tab is active and the store has renamed it to the empty name; it has
    no path, so its key is the empty string.  An edit of client [B] for
    that key, stamped after the marker, is dropped: tabs, source buffer
    and marker stay as they were. *)
Lemma edit_for_empty_key_dropped :
  let unnamed :=
    default twoTabsSecond (Store.renameTab "tab-2" "" None twoTabsSecond) in
  let p := Panel.mounted unnamed in
  let m := EditMsg.mk "" "x=1" "B" 1000 in
  let p' := Panel.onMessage "A" (Edit m) p in
  activePath (Panel.store p) = Some (EditMsg.filePath m) /\
  EditMsg.clientId m <> "A" /\
  (EditMsg.timestamp m > Marker.timestamp (Panel.lastAppliedRemote p))%Z /\
  p' = p /\
  findTab "tab-2" (tabs (Panel.store p')) =
    Some (Tab.mk "tab-2" "" "print(2)" true (Some 71%Z) None) /\
  source (Panel.store p') <> EditMsg.content m /\
  Panel.lastAppliedRemote p' = Marker.initial.
Proof. repeat split; done. Qed.

(** C2. An edit that carries this client's own id changes nothing, whatever
    its path, content and timestamp: the tabs, the source buffer and the
    last-applied-remote marker are as before. *)
Theorem own_echo_ignored
    (self filePath content : string) (timestamp : Z) (p : Panel.t) :
  let p' := Panel.onMessage self
              (Edit (EditMsg.mk filePath content self timestamp)) p in
  tabs (Panel.store p') = tabs (Panel.store p) /\
  source (Panel.store p') = source (Panel.store p) /\
  Panel.lastAppliedRemote p' = Panel.lastAppliedRemote p /\
  p' = p.
Proof.
  intros p'. assert (E : p' = p).
  { unfold p', Panel.onMessage. simpl. by rewrite decide_True. }
  by rewrite E.
Qed.

(** C3. An edit whose [filePath] is not the collaboration key of the active
    tab (its path, or its name when it has no path) leaves every tab as it
    was (the list of tabs, with all their fields, is the same) and leaves
    the source buffer alone. *)
Theorem edit_for_other_file_ignored (self : string) (m : EditMsg.t) (p : Panel.t) :
  activePath (Panel.store p) <> Some (EditMsg.filePath m) ->
  let p' := Panel.onMessage self (Edit m) p in
  tabs (Panel.store p') = tabs (Panel.store p) /\
  source (Panel.store p') = source (Panel.store p) /\
  p' = p.
Proof.
  intros Hother p'. assert (E : p' = p).
  { unfold p', Panel.onMessage. case_decide; [done|].
    destruct (activePath (Panel.store p)) as [k|]; [|done]. simpl.
    case_decide; [done|]. simpl. rewrite decide_False; [done|]. congruence. }
  by rewrite E.
Qed.

Lemma edit_for_other_file_ignored_witness :
  let p := Panel.mounted twoTabs in
  let m := EditMsg.mk "main.py Copy" "x=1" "B" 1000 in
  activePath (Panel.store p) = Some "main.py" /\
  Panel.onMessage "A" (Edit m) p = p.
Proof.
  intros p m. split; [reflexivity|].
  apply (edit_for_other_file_ignored "A" m p). discriminate.
Defined.

(** ** Subscriptions *)

Lemma subscribesBracketed_app (b : bool) (l l' : list Frame) :
  subscribesBracketed b l = true ->
  (forall b', subscribesBracketed b' l' = true) ->
  subscribesBracketed b (l ++ l') = true.
Proof.
  intros Hl Hl'. revert b Hl. induction l as [|f l IH]; intros b Hl; simpl.
  - apply Hl'.
  - destruct f; simpl in *; try by apply IH.
    apply andb_true_iff in Hl as [-> Hl]. simpl. by apply IH.
Qed.

(** *** Calls on one socket *)

Lemma trySend_open (f : Frame) (ls : list (option string)) (fr : list Frame) :
  Socket.trySend f (Socket.mk OPEN ls fr) = Socket.mk OPEN ls (fr ++ [f]).
Proof. done. Qed.

Lemma trySend_connecting (f : Frame) (ls : list (option string))
    (fr : list Frame) :
  Socket.trySend f (Socket.mk CONNECTING ls fr) = Socket.mk CONNECTING ls fr.
Proof. done. Qed.

(** A [send] never changes the state of the socket or its listeners, and
    at most appends its frame. *)
Lemma trySend_frame (f : Frame) (ws : Socket.t) :
  Socket.readyState (Socket.trySend f ws) = Socket.readyState ws /\
  Socket.openListeners (Socket.trySend f ws) = Socket.openListeners ws /\
  (Socket.sent (Socket.trySend f ws) = Socket.sent ws \/
   Socket.sent (Socket.trySend f ws) = (Socket.sent ws ++ [f])%list).
Proof.
  unfold Socket.trySend, Socket.send.
  destruct (Socket.readyState ws) eqn:E; simpl; rewrite ?E; auto.
Qed.

Lemma framesAt_onSocket_eq (i : nat) (f : Socket.t -> Socket.t) (p : Panel.t)
    (ws : Socket.t) :
  Panel.sockets p !! i = Some ws ->
  Panel.framesAt i (Panel.onSocket i f p) = Socket.sent (f ws).
Proof.
  intros Hws. unfold Panel.framesAt, Panel.onSocket. simpl.
  by rewrite list_lookup_alter_eq, Hws.
Qed.

Lemma framesAt_onSocket_ne (i j : nat) (f : Socket.t -> Socket.t) (p : Panel.t) :
  i <> j -> Panel.framesAt j (Panel.onSocket i f p) = Panel.framesAt j p.
Proof.
  intros Hne. unfold Panel.framesAt, Panel.onSocket. simpl.
  by rewrite list_lookup_alter_ne.
Qed.

(** *** Renders that keep the language *)

Section Transport.
Context `{LanguageUtils}.

Lemma steps_cons (self : string) (e : Panel.Event) (l : list Panel.Event)
    (p : Panel.t) :
  Panel.steps self (e :: l) p = Panel.steps self l (Panel.step self e p).
Proof. done. Qed.

(** While the dependencies of the socket effect stay the same, a change
    of the tabs runs the subscribe and the send effect only. *)
Lemma step_tabsChanged_same (self : string) (state : State) (p : Panel.t) :
  Panel.socketDeps state = Panel.socketDeps (Panel.store p) ->
  Panel.step self (Panel.TabsChanged state) p =
    Panel.sendEffect
      (Panel.subscribeEffect
         (Panel.withStore state
            (Panel.runSendCleanup (Panel.runSubscribeCleanup p)))).
Proof. intros Hdeps. simpl. by rewrite decide_True. Qed.

Lemma socketDeps_languageId (s s' : State) :
  languageId s = languageId s' -> Panel.socketDeps s = Panel.socketDeps s'.
Proof. unfold Panel.socketDeps, Store.defaultName. by intros ->. Qed.

(** C4 (the code departs from the specification).  The first render finds the socket
    connecting and registers a listener for [main.py]; the second tab is
    selected before the socket opens, which registers a second listener and
    removes nothing; when the socket opens both listeners run, and the log
    holds two [subscribe] frames with no [unsubscribe] between them. *)
Theorem subscribes_deferred_before_open_pile_up :
  let p := Panel.steps "A" [Panel.TabsChanged twoTabsSecond; Panel.SocketOpened]
             (Panel.firstRender twoTabs) in
  Panel.frames p = [Subscribe "main.py"; Subscribe "main.py Copy"] /\
  subscribesBracketed false (Panel.frames p) = false.
Proof.
  intros p. unfold p. rewrite steps_cons.
  rewrite step_tabsChanged_same by (by apply socketDeps_languageId).
  split; reflexivity.
Qed.

(** ** The debounced publish *)

Lemma filter_none {A} (P : A -> Prop) `{forall x, Decision (P x)} (l : list A) :
  (forall x, x ∈ l -> ~ P x) -> filter P l = [].
Proof.
  intros Hno. destruct (filter P l) as [|x k] eqn:E; [done|].
  assert (Hx : x ∈ filter P l) by (rewrite E; by left).
  apply list_elem_of_filter in Hx as [HP Hin]. by destruct (Hno x Hin).
Qed.

Lemma timers_elem (p : Panel.t) (x : Timer.t) (i : nat) :
  (x, i) ∈ Panel.pending p -> x ∈ Panel.timers p.
Proof.
  intros Hin. unfold Panel.timers. apply list_elem_of_fmap. by exists (x, i).
Qed.

Lemma clearTimeout_owned (p : Panel.t) :
  timersOwned p -> Panel.sendCleanup p = true ->
  Panel.clearTimeout (Panel.debouncedSendRef p) (Panel.pending p) = [].
Proof.
  intros Hown Harmed. unfold Panel.clearTimeout.
  destruct (Panel.pending p) as [|[x i] l] eqn:E.
  { by destruct (Panel.debouncedSendRef p). }
  destruct (Hown x) as [Href _]; [apply (timers_elem p x i); rewrite E; by left|].
  rewrite Href, <- E. apply filter_none. intros [y j] Hy Hne.
  destruct (Hown y (timers_elem p y j Hy)) as [Hrefy _]. simpl in Hne. congruence.
Qed.

Lemma runSendCleanup_no_timers (p : Panel.t) :
  timersOwned p -> Panel.pending (Panel.runSendCleanup p) = [].
Proof.
  intros Hown. unfold Panel.runSendCleanup.
  destruct (Panel.sendCleanup p) eqn:E; simpl.
  - by apply clearTimeout_owned.
  - destruct (Panel.pending p) as [|[x i] l] eqn:El; [done|].
    destruct (Hown x) as [_ Harmed]; [|congruence].
    apply (timers_elem p x i). rewrite El. by left.
Qed.

(** What the clean-up of the subscribe effect, the effect itself and the
    socket effect leave alone: the timers and the clock. *)
Lemma runSubscribeCleanup_timers (p : Panel.t) :
  Panel.pending (Panel.runSubscribeCleanup p) = Panel.pending p /\
  Panel.debouncedSendRef (Panel.runSubscribeCleanup p) = Panel.debouncedSendRef p /\
  Panel.sendCleanup (Panel.runSubscribeCleanup p) = Panel.sendCleanup p /\
  Panel.now (Panel.runSubscribeCleanup p) = Panel.now p /\
  Panel.store (Panel.runSubscribeCleanup p) = Panel.store p.
Proof.
  unfold Panel.runSubscribeCleanup.
  destruct (Panel.subscribeCleanup p) as [[i [f|]]|]; try done.
  destruct (Panel.sockets p !! i); [|done]. by case_decide.
Qed.

Lemma subscribeEffect_timers (p : Panel.t) :
  Panel.pending (Panel.subscribeEffect p) = Panel.pending p /\
  Panel.debouncedSendRef (Panel.subscribeEffect p) = Panel.debouncedSendRef p /\
  Panel.sendCleanup (Panel.subscribeEffect p) = Panel.sendCleanup p /\
  Panel.now (Panel.subscribeEffect p) = Panel.now p /\
  Panel.store (Panel.subscribeEffect p) = Panel.store p /\
  Panel.wsRef (Panel.subscribeEffect p) = Panel.wsRef p.
Proof.
  unfold Panel.subscribeEffect.
  destruct (Panel.wsRef p) as [i|] eqn:E; [|done].
  destruct (Panel.sockets p !! i); [|done]. by case_decide.
Qed.

Lemma timersOwned_ext (p q : Panel.t) :
  Panel.pending q = Panel.pending p ->
  Panel.debouncedSendRef q = Panel.debouncedSendRef p ->
  Panel.sendCleanup q = Panel.sendCleanup p ->
  timersOwned p -> timersOwned q.
Proof.
  intros Hp Hr Hc Hown x Hx. unfold Panel.timers in Hx. rewrite Hp in Hx.
  rewrite Hr, Hc. by apply Hown.
Qed.

(** The send effect, run where no timer is pending, leaves at most the
    timer it sets: due 800 ms from now, with the key of the active tab and
    the source of the store as they are at that moment. *)
Lemma sendEffect_fresh (p : Panel.t) :
  Panel.pending p = [] ->
  let p' := Panel.sendEffect p in
  timersOwned p' /\
  Panel.sockets p' = Panel.sockets p /\
  Panel.wsRef p' = Panel.wsRef p /\
  Panel.now p' = Panel.now p /\
  forall x, x ∈ Panel.timers p' ->
    truthyPath (activePath (Panel.store p)) = Some (Timer.filePath x) /\
    Timer.content x = source (Panel.store p) /\
    Timer.due x = (Panel.now p + 800)%Z.
Proof.
  intros Hnone p'. unfold p', Panel.sendEffect, timersOwned, Panel.timers.
  destruct (Panel.wsRef p) as [i|]; simpl; [|by rewrite Hnone; set_solver].
  destruct (Panel.sockets p !! i) as [ws|]; simpl;
    [|by rewrite Hnone; set_solver].
  case_decide; simpl; [|by rewrite Hnone; set_solver].
  destruct (truthyPath (activePath (Panel.store p))) as [f|]; simpl;
    [|by rewrite Hnone; set_solver].
  rewrite Hnone. replace (Panel.clearTimeout _ []) with (@nil (Timer.t * nat))
    by (by destruct (Panel.debouncedSendRef p)).
  simpl. split; [|split; [done|split; [done|split; [done|]]]].
  - intros x Hx. by apply list_elem_of_singleton in Hx as ->.
  - intros x Hx. apply list_elem_of_singleton in Hx as ->. simpl.
    split; [done|]. split; [apply or_str_empty|done].
Qed.

(** The socket effect leaves [wsRef] at a socket that is connecting and
    has no listener yet. *)
Lemma socketEffect_connecting (p : Panel.t) :
  let q := Panel.socketEffect p in
  Panel.wsRef q = Some (length (Panel.sockets p)) /\
  Panel.sockets q = (Panel.sockets p ++ [Socket.mk CONNECTING [] []])%list /\
  Panel.pending q = Panel.pending p /\
  Panel.debouncedSendRef q = Panel.debouncedSendRef p /\
  Panel.sendCleanup q = Panel.sendCleanup p /\
  Panel.subscribeCleanup q = Panel.subscribeCleanup p /\
  Panel.now q = Panel.now p /\
  Panel.store q = Panel.syncFirstTab (Panel.store p).
Proof. done. Qed.

(** After the socket effect has run, the subscribe effect only adds a
    listener and the send effect sets no timer. *)
Lemma effects_on_new_socket (p : Panel.t) :
  let q := Panel.sendEffect (Panel.subscribeEffect (Panel.socketEffect p)) in
  Panel.wsRef q = Some (length (Panel.sockets p)) /\
  Panel.sockets q =
    (Panel.sockets p ++
     [Socket.mk CONNECTING
        [truthyPath (activePath (Panel.syncFirstTab (Panel.store p)))] []])%list /\
  Panel.pending q = Panel.pending p /\
  Panel.debouncedSendRef q = Panel.debouncedSendRef p /\
  Panel.now q = Panel.now p /\
  Panel.subscribeCleanup q = None /\
  Panel.sendCleanup q = false /\
  Panel.store q = Panel.syncFirstTab (Panel.store p).
Proof.
  intros q. unfold q, Panel.sendEffect, Panel.subscribeEffect. simpl.
  rewrite list_lookup_middle by done. simpl.
  rewrite list_lookup_alter_eq, list_lookup_middle by done. simpl.
  repeat split; try done.
  rewrite <- (Nat.add_0_r (length (Panel.sockets p))).
  by rewrite alter_app_r.
Qed.

(** Where the send effect starts after a change of tab that keeps the
    language. *)
Lemma before_sendEffect (sB : State) (p : Panel.t) :
  timersOwned p ->
  let q := Panel.subscribeEffect
             (Panel.withStore sB
                (Panel.runSendCleanup (Panel.runSubscribeCleanup p))) in
  Panel.pending q = [] /\ Panel.store q = sB /\ Panel.now q = Panel.now p.
Proof.
  intros Hown q.
  destruct (runSubscribeCleanup_timers p) as (Hp & Hr & Hc & Hn & _).
  destruct (subscribeEffect_timers
              (Panel.withStore sB
                 (Panel.runSendCleanup (Panel.runSubscribeCleanup p))))
    as (Hp' & _ & _ & Hn' & Hs' & _).
  fold q in Hp', Hn', Hs'. rewrite Hp', Hn', Hs'.
  split; [|split; [done|]].
  - change (Panel.pending (Panel.runSendCleanup (Panel.runSubscribeCleanup p)) = []).
    apply runSendCleanup_no_timers. by apply (timersOwned_ext p).
  - change (Panel.now (Panel.runSendCleanup (Panel.runSubscribeCleanup p)) =
            Panel.now p).
    rewrite <- Hn. unfold Panel.runSendCleanup.
    by destruct (Panel.sendCleanup (Panel.runSubscribeCleanup p)).
Qed.

(** After a change of the tabs, whether it changed the language or not,
    the only timer that can be pending is the one the change set. *)
Lemma tabsChanged_timers (self : string) (sB : State) (p : Panel.t) :
  timersOwned p ->
  let p' := Panel.step self (Panel.TabsChanged sB) p in
  timersOwned p' /\
  forall x, x ∈ Panel.timers p' ->
    truthyPath (activePath sB) = Some (Timer.filePath x) /\
    Timer.content x = source sB /\
    Timer.due x = (Panel.now p + 800)%Z.
Proof.
  intros Hown p'. unfold p'. simpl. case_decide as Hdeps.
  - destruct (before_sendEffect sB p Hown) as (Hnone & Hstore & Hnow).
    destruct (sendEffect_fresh _ Hnone) as (Hown' & _ & _ & _ & Hfresh).
    rewrite Hstore, Hnow in Hfresh. by split.
  - set (cleaned := Panel.withStore sB
                      (Panel.runSendCleanup (Panel.runSubscribeCleanup p))).
    destruct (effects_on_new_socket cleaned) as (_ & _ & Hp & _).
    assert (Hnone : Panel.pending cleaned = []).
    { apply runSendCleanup_no_timers.
      destruct (runSubscribeCleanup_timers p) as (? & ? & ? & _).
      by apply (timersOwned_ext p). }
    rewrite Hnone in Hp. unfold timersOwned, Panel.timers. rewrite Hp.
    split; intros x Hx; by apply elem_of_nil in Hx.
Qed.

Lemma step_owned (self : string) (e : Panel.Event) (p : Panel.t) :
  timersOwned p -> timersOwned (Panel.step self e p).
Proof.
  intros Hown. destruct e as [s|src| |at_|id|i].
  - by apply tabsChanged_timers.
  - simpl. apply sendEffect_fresh. simpl. by apply runSendCleanup_no_timers.
  - simpl. unfold Panel.socketOpened. by destruct (Panel.wsRef p).
  - unfold Panel.step, Panel.elapse, timersOwned, Panel.timers. simpl.
    intros x Hx. apply list_elem_of_fmap in Hx as ([y j] & -> & Hy).
    apply list_elem_of_filter in Hy as [_ Hy]. simpl.
    by apply Hown, (timers_elem p y j).
  - simpl. by case_decide.
  - done.
Qed.

Lemma firstRender_owned (s : State) : timersOwned (Panel.firstRender s).
Proof.
  unfold Panel.firstRender.
  destruct (effects_on_new_socket (Panel.unmounted s)) as (_ & _ & Hp & _).
  unfold timersOwned, Panel.timers. rewrite Hp. simpl.
  by intros x Hx%elem_of_nil.
Qed.

Lemma steps_owned (self : string) (l : list Panel.Event) (p : Panel.t) :
  timersOwned p -> timersOwned (Panel.steps self l p).
Proof.
  revert p. induction l as [|e l IH]; intros p Hown; [done|].
  simpl. apply IH. by apply step_owned.
Qed.

(** The frames that the timers run at [at_] write to a socket are edits
    made from those timers. *)
Lemma sendNow_frames (self : string) (at_ : Z) (i : nat) (f : Frame)
    (due : list (Timer.t * nat)) (socks : list Socket.t) :
  f ∈ default [] (Socket.sent <$>
        foldl (fun l x => alter (Panel.sendNow self at_ x.1) x.2 l) socks due !! i) ->
  f ∈ default [] (Socket.sent <$> socks !! i) \/
  exists x, x ∈ due /\
            f = EditFrame (Timer.filePath x.1) (Timer.content x.1) self at_.
Proof.
  revert socks. induction due as [|x due IH]; intros socks; simpl; [by left|].
  intros Hf. apply IH in Hf as [Hf|(y & Hy & ->)].
  - destruct (decide (x.2 = i)) as [<-|Hne].
    + rewrite list_lookup_alter_eq in Hf.
      destruct (socks !! x.2) as [ws|]; simpl in *; [|by left].
      destruct (trySend_frame
                  (EditFrame (Timer.filePath x.1) (Timer.content x.1) self at_) ws)
        as (_ & _ & [E|E]); unfold Panel.sendNow in Hf; rewrite E in Hf;
        [by left|].
      apply elem_of_app in Hf as [Hf|Hf]; [by left|].
      apply list_elem_of_singleton in Hf. right. exists x. split; [by left|done].
    + rewrite list_lookup_alter_ne in Hf by done. by left.
  - right. exists y. split; [by right|done].
Qed.

(** The frames written when the clock reaches [at_] are edits made from the
    timers that were pending. *)
Lemma elapse_frames (self : string) (at_ : Z) (p : Panel.t) (f : Frame) :
  f ∈ Panel.frames (Panel.elapse self at_ p) ->
  f ∈ Panel.frames p \/
  exists x, x ∈ Panel.timers p /\
            f = EditFrame (Timer.filePath x) (Timer.content x) self at_.
Proof.
  unfold Panel.frames, Panel.framesAt, Panel.elapse. simpl.
  destruct (Panel.wsRef p) as [i|]; [|by left].
  intros Hf.
  destruct (sendNow_frames self at_ i f
              (filter (fun x => (Timer.due x.1 <= at_)%Z) (Panel.pending p))
              (Panel.sockets p)) as [Hold|(x & Hx & ->)].
  - by destruct (foldl _ _ _ !! i).
  - left. by destruct (Panel.sockets p !! i).
  - right. exists x.1. split; [|done].
    apply list_elem_of_filter in Hx as [_ Hx]. destruct x as [x j].
    by apply (timers_elem p x j).
Qed.

(** C5, as the code has it.  In every state the component can reach, a
    change of the active tab clears the pending publish: the only timer
    that can be pending afterwards is the one set by that very change, due
    800 ms later, with the key of the newly active tab and the source of
    the store at the time of the change; and whatever the timers write
    later is an edit with that key and that content. *)
Theorem tab_switch_replaces_pending_publish
    (self : string) (s0 : State) (evs : list Panel.Event) (sB : State) :
  let p := Panel.steps self evs (Panel.firstRender s0) in
  let p' := Panel.step self (Panel.TabsChanged sB) p in
  (forall x, x ∈ Panel.timers p' ->
     truthyPath (activePath sB) = Some (Timer.filePath x) /\
     Timer.content x = source sB /\
     Timer.due x = (Panel.now p + 800)%Z) /\
  (forall at_ f,
     f ∈ Panel.frames (Panel.step self (Panel.Elapsed at_) p') ->
     f ∈ Panel.frames p' \/
     exists path, truthyPath (activePath sB) = Some path /\
                  f = EditFrame path (source sB) self at_).
Proof.
  intros p p'.
  assert (Hown : timersOwned p) by apply steps_owned, firstRender_owned.
  destruct (tabsChanged_timers self sB p Hown) as (_ & Hfresh).
  split; [exact Hfresh|].
  intros at_ f Hf. apply elapse_frames in Hf as [Hf|(x & Hx & ->)]; [by left|].
  right. destruct (Hfresh x Hx) as (Hpath & Hcontent & _).
  exists (Timer.filePath x). by rewrite Hcontent.
Qed.

End Transport.

(** C5, as the specification has it, fails.  A publish of [main.py] is pending from
    time 0; at 100 ms the second tab is selected; the timer of [main.py]
    is gone, and when the clock has passed every deadline the socket has
    written an edit of [main.py Copy] only. *)
Lemma pending_publish_cancelled_by_tab_switch :
  let scheduled :=
    Panel.steps (H := sampleLanguageUtils) "A"
      [Panel.SocketOpened; Panel.SourceChanged "x=1"]
      (Panel.firstRender (H := sampleLanguageUtils) twoTabs) in
  let switched :=
    Panel.steps (H := sampleLanguageUtils) "A"
      [Panel.Elapsed 100; Panel.TabsChanged twoTabsSecond]
      scheduled in
  let final :=
    Panel.step (H := sampleLanguageUtils) "A" (Panel.Elapsed 5000) switched in
  Panel.timers scheduled = [Timer.mk 0 800 "main.py" "x=1"] /\
  Panel.timers switched = [Timer.mk 1 900 "main.py Copy" "print(2)"] /\
  Panel.frames final =
    [Subscribe "main.py"; UnsubscribeAll; Subscribe "main.py Copy";
     EditFrame "main.py Copy" "print(2)" "A" 5000] /\
  ~ exists content clientId timestamp,
      EditFrame "main.py" content clientId timestamp ∈ Panel.frames final.
Proof.
  intros scheduled switched final.
  assert (Hfinal : Panel.frames final =
    [Subscribe "main.py"; UnsubscribeAll; Subscribe "main.py Copy";
     EditFrame "main.py Copy" "print(2)" "A" 5000]) by reflexivity.
  repeat split; try reflexivity.
  intros (c & i & t & Hin). rewrite Hfinal in Hin.
  repeat (apply elem_of_cons in Hin as [Hin|Hin]; [discriminate Hin|]).
  by apply elem_of_nil in Hin.
Qed.

(** ** Rename *)

(** The tab strip does not read the error text of the inline editor. *)
Lemma tabStrip_setEditingError (msg : string) (w : Rename.World) :
  Rename.tabStrip (Rename.setEditingError msg w) = Rename.tabStrip w.
Proof. done. Qed.

(** C8 (the code departs from the specification: the error text is stored
    and never shown).  A rename whose trimmed name is empty, has no
    extension, or has an extension outside the allowed set makes no
    request and leaves the store as it is; all it does is put a non-empty
    text into [editingError], which the tab strip does not render: what
    the user sees is what was there before.  A valid name for an open tab
    makes one request, with the key of the tab and the trimmed name.  When
    that request succeeds the tab gets the trimmed name, is custom named
    and gets the [newPath] of the response if it has one, the inline
    editor closes and the structure-changed event is dispatched.  When it
    fails the store is as it was and the error text, the [error] of the
    server's response whenever there is one, goes to [editingError] again,
    with the tab strip unchanged. *)
Theorem rename_validates_then_calls_remote
    (renameFile : string -> string -> Rename.Response) (tabId : string)
    (w : Rename.World) :
  let trimmed := Js.trim (Js.or_str (Rename.editingValue (Rename.ui w)) "") in
  let w' := Rename.handleConfirmInlineRename renameFile tabId w in
  (trimmed = "" \/
   Rename.extMatch trimmed = None \/
   (exists e, Rename.extMatch trimmed = Some e /\
              Js.toLowerCase e ∉ Rename.allowedExts) ->
   exists msg, msg <> "" /\
     w' = Rename.setEditingError msg w /\
     Rename.store w' = Rename.store w /\
     Rename.requests w' = Rename.requests w /\
     Rename.events w' = Rename.events w /\
     Rename.editingError (Rename.ui w') = msg /\
     Rename.tabStrip w' = Rename.tabStrip w) /\
  (forall e tab,
     trimmed <> "" ->
     Rename.extMatch trimmed = Some e ->
     Js.toLowerCase e ∈ Rename.allowedExts ->
     findTab tabId (tabs (Rename.store w)) = Some tab ->
     Rename.requests w' = (Rename.requests w ++ [(Tab.key tab, trimmed)])%list /\
     match renameFile (Tab.key tab) trimmed with
     | Rename.Renamed newPath =>
         findTab tabId (tabs (Rename.store w')) =
           Some (Tab.mk (Tab.id tab) trimmed (Tab.content tab) true
                        (Tab.languageId tab)
                        (match truthyPath newPath with
                         | Some path => Some path
                         | None => Tab.path tab
                         end)) /\
         Some (Rename.store w') =
           Store.renameTab tabId trimmed (truthyPath newPath) (Rename.store w) /\
         Rename.ui w' = Rename.mkUi None "" "" /\
         Rename.events w' =
           (Rename.events w ++ ["project-structure-changed"])%list
     | Rename.Failed err =>
         Rename.store w' = Rename.store w /\
         Rename.editingError (Rename.ui w') = ApiError.text err /\
         (forall text, ApiError.responseError err = Some text -> text <> "" ->
            Rename.editingError (Rename.ui w') = text) /\
         Rename.events w' = Rename.events w /\
         Rename.tabStrip w' = Rename.tabStrip w
     end).
Proof.
  intros trimmed w'. split.
  - intros Hbad.
    assert (Hstart : exists msg, msg <> "" /\
              Rename.start tabId w = (Rename.setEditingError msg w, None)).
    { unfold Rename.start. fold trimmed.
      destruct (decide (trimmed = "")) as [E0|E0].
      { exists "Please provide a name". by split. }
      destruct Hbad as [E|[E|(e & E & Hout)]]; [done| |].
      - rewrite E. exists "File extension required (e.g. main.cpp)". by split.
      - rewrite E, decide_False by done.
        exists ("Unsupported extension '." +:+ Js.toLowerCase e +:+ "'.").
        by split. }
    destruct Hstart as (msg & Hmsg & Hstart). exists msg.
    assert (E : w' = Rename.setEditingError msg w).
    { unfold w', Rename.handleConfirmInlineRename. by rewrite Hstart. }
    by rewrite E.
  - intros e tab Hne Hext Hok Hfind.
    assert (Hstart : Rename.start tabId w =
              (Rename.mkWorld (Rename.store w) (Rename.ui w)
                 (Rename.requests w ++ [(Tab.key tab, trimmed)])
                 (Rename.events w),
               Some (Rename.mkPending (Tab.key tab) trimmed))).
    { unfold Rename.start. fold trimmed.
      rewrite decide_False by done. rewrite Hext.
      rewrite decide_True by done. by rewrite Hfind. }
    unfold w', Rename.handleConfirmInlineRename. rewrite Hstart. simpl.
    destruct (renameFile (Tab.key tab) trimmed) as [newPath|err]; simpl.
    + split; [done|]. split; [|done].
      rewrite findTab_mapTab by done. by rewrite Hfind.
    + split; [done|]. split; [done|]. split; [done|]. split; [|done].
      intros text He Htext. unfold ApiError.text. rewrite He. simpl.
      unfold Js.or_str. by rewrite decide_False.
Qed.

(** A name that reaches [renameFile], and from there [renameTab], is not
    empty and ends in one of the allowed extensions. *)
Lemma rename_request_name
    (tabId : string) (request : Rename.Pending) (w w1 : Rename.World) :
  Rename.start tabId w = (w1, Some request) ->
  Rename.newName request <> "" /\
  exists e, Rename.extMatch (Rename.newName request) = Some e /\
            Js.toLowerCase e ∈ Rename.allowedExts.
Proof.
  unfold Rename.start.
  set (trimmed := Js.trim (Js.or_str (Rename.editingValue (Rename.ui w)) "")).
  case_decide as Hne; [done|].
  destruct (Rename.extMatch trimmed) as [e|] eqn:E; [|done].
  case_decide as Hok; [|done].
  destruct (findTab tabId (tabs (Rename.store w))); [|done].
  intros [= _ <-]. split; [done|]. by exists e.
Qed.

(** The name [ notes.exe ] typed into the label of the first tab: the
    text [Unsupported extension '.exe'.] is stored, and the tab strip
    still shows the inline editor with what was typed and the name of the
    other tab, nothing else. *)
Lemma rename_validates_then_calls_remote_witness :
  let w := Rename.mkWorld twoTabs (Rename.mkUi (Some "tab-1") " notes.exe " "") [] [] in
  let w' := Rename.handleConfirmInlineRename
              (fun _ _ => Rename.Renamed None) "tab-1" w in
  (exists e, Rename.extMatch (Js.trim " notes.exe ") = Some e /\
             Js.toLowerCase e ∉ Rename.allowedExts) /\
  Rename.editingError (Rename.ui w') = "Unsupported extension '.exe'." /\
  Rename.requests w' = [] /\
  Rename.store w' = twoTabs /\
  Rename.tabStrip w' =
    [(Rename.Editing " notes.exe ", false); (Rename.Named "main.py Copy", false)] /\
  Rename.tabStrip w' = Rename.tabStrip w.
Proof.
  intros w w'.
  assert (Hext : exists e, Rename.extMatch (Js.trim " notes.exe ") = Some e /\
                           Js.toLowerCase e ∉ Rename.allowedExts).
  { exists "exe". split; [reflexivity|]. vm_compute. done. }
  split; [exact Hext|].
  destruct (rename_validates_then_calls_remote
              (fun _ _ => Rename.Renamed None) "tab-1" w) as (Hbad & _).
  destruct Hbad as (msg & _ & _ & Hstore & Hreq & _ & _ & Hstrip).
  { right. right. exact Hext. }
  split; [reflexivity|]. split; [exact Hreq|]. split; [exact Hstore|].
  split; [reflexivity|exact Hstrip].
Defined.

(** ** Autosave *)

Lemma savePath_relative (tab : Tab.t) :
  Js.startsWith (Tab.key tab) "/" = false -> Autosave.savePath tab = Tab.key tab.
Proof.
  unfold Autosave.savePath, Js.startsWith. rewrite or_str_empty.
  by destruct (Js.strip_prefix "/" (Tab.key tab)).
Qed.

(** A response without a truthy [success] sets no status at all. *)
Lemma tickFinish_not_successful (activeId : string) (w : Autosave.World) :
  Autosave.tickFinish activeId (Autosave.Responded false) w =
    Autosave.mkWorld (Store.setIsSaving false (Autosave.store w))
                     (Autosave.requests w) (Autosave.statusTimers w).
Proof. done. Qed.

(** C9, as the code has it.  A tick that finds no active tab
    ([activeTabId] empty or naming no tab), or finds the unsaved flag of
    the active tab not set, makes no request and leaves everything as it
    is.  Otherwise it calls [saveFile] once, with the key of the active
    tab (its path, or its name when it has none, less a leading slash) and
    the content of that tab, and [isSaving] is false again when it ends.
    When the response reports success the tick sets the unsaved flag of
    that tab to false and the status to [success], and a timer puts the
    status back to none.  When the request is rejected the status is
    [error], again put back by a timer, and the unsaved flags are as they
    were.  When the request is answered without a report of success, the
    unsaved flags are as they were too, but no status is set and no timer
    started. *)
Theorem autosave_tick
    (remote : string -> string -> Autosave.Response) (w : Autosave.World) :
  let state := Autosave.store w in
  let w' := Autosave.tick remote w in
  (activeTabId state = "" \/
   findTab (activeTabId state) (tabs state) = None \/
   unsavedFiles state !! activeTabId state <> Some true ->
   w' = w) /\
  (forall tab,
     activeTabId state <> "" ->
     findTab (activeTabId state) (tabs state) = Some tab ->
     unsavedFiles state !! activeTabId state = Some true ->
     Autosave.requests w' =
       (Autosave.requests w ++ [(Autosave.savePath tab, Tab.content tab)])%list /\
     (Js.startsWith (Tab.key tab) "/" = false ->
      Autosave.savePath tab = Tab.key tab) /\
     tabs (Autosave.store w') = tabs state /\
     isSaving (Autosave.store w') = false /\
     match remote (Autosave.savePath tab) (Tab.content tab) with
     | Autosave.Responded true =>
         unsavedFiles (Autosave.store w') =
           <[activeTabId state := false]> (unsavedFiles state) /\
         saveStatus (Autosave.store w') = Some "success" /\
         Autosave.statusTimers w' = (Autosave.statusTimers w ++ [1500%Z])%list /\
         (Autosave.statusTimers w = [] ->
          saveStatus (Autosave.store (Autosave.statusTimerFired w')) = None)
     | Autosave.Threw =>
         unsavedFiles (Autosave.store w') = unsavedFiles state /\
         saveStatus (Autosave.store w') = Some "error" /\
         Autosave.statusTimers w' = (Autosave.statusTimers w ++ [2000%Z])%list /\
         (Autosave.statusTimers w = [] ->
          saveStatus (Autosave.store (Autosave.statusTimerFired w')) = None)
     | Autosave.Responded false =>
         unsavedFiles (Autosave.store w') = unsavedFiles state /\
         saveStatus (Autosave.store w') = None /\
         Autosave.statusTimers w' = Autosave.statusTimers w
     end).
Proof.
  intros state w'. split.
  - intros Hskip. unfold w', Autosave.tick, Autosave.tickStart. fold state.
    case_decide as Hid; [done|].
    destruct (unsavedFiles state !! activeTabId state) as [[|]|] eqn:Hflag;
      try done.
    destruct (findTab (activeTabId state) (tabs state)) eqn:Hfind; [|done].
    by destruct Hskip as [?|[?|?]].
  - intros tab Hid Hfind Hflag.
    unfold w', Autosave.tick, Autosave.tickStart. fold state.
    rewrite decide_False by done. rewrite Hflag, Hfind. simpl.
    unfold Autosave.tickFinish.
    destruct (remote (Autosave.savePath tab) (Tab.content tab)) as [[|]|];
      simpl; (split; [done|]); (split; [apply savePath_relative|]);
      (split; [done|]); (split; [done|]); repeat (split; [done|]);
      try done; intros E; unfold Autosave.statusTimerFired; simpl;
      by rewrite E.
Qed.

(** The first tab of [twoTabsUnsaved] is active and flagged; the save
    succeeds. *)
Lemma autosave_tick_witness :
  let w := Autosave.mkWorld twoTabsUnsaved [] [] in
  let w' := Autosave.tick (fun _ _ => Autosave.Responded true) w in
  unsavedFiles twoTabsUnsaved !! "tab-1" = Some true /\
  Autosave.requests w' = [("main.py", "print(1)")] /\
  unsavedFiles (Autosave.store w') !! "tab-1" = Some false /\
  saveStatus (Autosave.store w') = Some "success" /\
  Autosave.statusTimers w' = [1500%Z].
Proof.
  intros w w'. split; [reflexivity|].
  destruct (autosave_tick (fun _ _ => Autosave.Responded true) w) as (_ & Hsave).
  destruct (Hsave (Tab.mk "tab-1" "main.py" "print(1)" true (Some 71%Z)
                           (Some "main.py")))
    as (Hreq & _ & _ & _ & Hflags & Hstatus & Htimers & _);
    [discriminate|reflexivity|reflexivity|].
  split; [exact Hreq|]. split; [|split; [exact Hstatus|exact Htimers]].
  unfold w'. rewrite Hflags. apply lookup_insert_eq.
Defined.

(** C9, as the specification has it, fails when the save is answered
    without success.  The first tab is active and flagged; [saveFile]
    answers with a body whose [success] is not truthy.  The tick made its
    request, and afterwards there is no [error] status and no timer, and
    the tab is still flagged. *)
Lemma autosave_silent_without_success :
  let w := Autosave.mkWorld twoTabsUnsaved [] [] in
  let w' := Autosave.tick (fun _ _ => Autosave.Responded false) w in
  Autosave.requests w' = [("main.py", "print(1)")] /\
  saveStatus (Autosave.store w') = None /\
  saveStatus (Autosave.store w') <> Some "error" /\
  Autosave.statusTimers w' = [] /\
  unsavedFiles (Autosave.store w') !! "tab-1" = Some true.
Proof. repeat split; done. Qed.

(** * Further properties of the store and of the panel *)

(** ** Which tab becomes active *)

Lemma findTab_unique (l : list Tab.t) (x : Tab.t) :
  NoDup (Tab.id <$> l) -> x ∈ l -> findTab (Tab.id x) l = Some x.
Proof.
  intros Hnd Hx.
  destruct (findTab_is_Some (Tab.id x) l) as [y Hy].
  { apply list_elem_of_fmap. by exists x. }
  rewrite Hy. f_equal. apply findTab_Some in Hy as [Hyl Hyid].
  apply list_elem_of_lookup in Hx as [i Hi].
  apply list_elem_of_lookup in Hyl as [j Hj].
  assert (i = j); [|congruence].
  eapply (NoDup_lookup _ _ _ (Tab.id x) Hnd);
    rewrite list_lookup_fmap; [by rewrite Hi|by rewrite Hj, <- Hyid].
Qed.

Lemma findIndex_unique (l : list Tab.t) (i : nat) (x : Tab.t) :
  NoDup (Tab.id <$> l) -> l !! i = Some x ->
  findIndex (Tab.id x) l = Z.of_nat i.
Proof.
  intros Hnd Hi. unfold findIndex.
  destruct (list_find _ l) as [[j y]|] eqn:E.
  - apply list_find_Some in E as (Hj & Hy & _).
    f_equal. eapply (NoDup_lookup _ _ _ (Tab.id x) Hnd);
      rewrite list_lookup_fmap; [by rewrite Hj, <- Hy|by rewrite Hi].
  - apply list_find_None in E. exfalso.
    apply (proj1 (Forall_forall _ _) E x); [by eapply list_elem_of_lookup_2|done].
Qed.

Lemma withoutTab_delete (l : list Tab.t) (i : nat) (x : Tab.t) :
  NoDup (Tab.id <$> l) -> l !! i = Some x ->
  withoutTab (Tab.id x) l = delete i l.
Proof.
  revert i. induction l as [|y l IH]; intros i Hnd Hi; [done|].
  rewrite fmap_cons in Hnd. apply NoDup_cons in Hnd as [Hy Hnd].
  unfold withoutTab in *. destruct i as [|i]; simpl in Hi.
  - injection Hi as ->. rewrite filter_cons_False by naive_solver.
    simpl. by apply withoutTab_absent.
  - rewrite filter_cons_True.
    + simpl. f_equal. by apply IH.
    + intros E. apply Hy. rewrite E. apply list_elem_of_fmap. exists x.
      split; [done|]. by eapply list_elem_of_lookup_2.
Qed.

Lemma fallbackAt_delete (l : list Tab.t) (i : nat) :
  fallbackAt (Z.of_nat i) (delete i l) = neighbour i l.
Proof.
  unfold fallbackAt, neighbour. destruct i as [|j].
  - simpl. by rewrite list_lookup_delete_ge by lia.
  - replace (Z.to_nat (Z.max (Z.of_nat (S j) - 1) 0)) with j by lia.
    by rewrite list_lookup_delete_lt by lia.
Qed.

Lemma removeAt_active (s : State) (i : nat) (x y : Tab.t) :
  NoDup (Tab.id <$> tabs s) ->
  tabs s !! i = Some x -> Tab.id x = activeTabId s ->
  neighbour i (tabs s) = Some y ->
  Store.removeAt (Tab.id x) (Z.of_nat i) s =
    Some (Store.narrowed s (delete i (tabs s)) (Tab.id y) y).
Proof.
  intros Hnd Hi Hact Hy. unfold Store.removeAt.
  rewrite (withoutTab_delete _ i x) by done.
  rewrite decide_True by done. rewrite fallbackAt_delete, Hy. simpl.
  rewrite findTab_unique; [done| |].
  - apply (sublist_NoDup _ (Tab.id <$> tabs s)); [exact Hnd|].
    apply fmap_sublist, sublist_delete.
  - unfold neighbour in Hy. destruct i as [|j].
    + apply (list_elem_of_lookup_2 _ 0). by rewrite list_lookup_delete_ge by lia.
    + apply (list_elem_of_lookup_2 _ j). by rewrite list_lookup_delete_lt by lia.
Qed.

Section Fallback.
Context `{LanguageUtils}.

(** X1. In a well-formed store, closing or deleting the active tab while
    another tab is open removes exactly that tab and makes its neighbour
    active: the tab before it in the list, or the next one when it was the
    first.  The source buffer and the language become those of the
    neighbour.  [closeTab] and [deleteTab] agree here. *)
Theorem closing_active_tab_selects_neighbour
    (s : State) (i : nat) (x y : Tab.t) :
  wf s ->
  tabs s !! i = Some x -> Tab.id x = activeTabId s ->
  neighbour i (tabs s) = Some y ->
  exists s',
    Store.closeTab (activeTabId s) s = Some s' /\
    Store.deleteTab (activeTabId s) s = Some s' /\
    tabs s' = delete i (tabs s) /\
    activeTabId s' = Tab.id y /\
    source s' = Tab.content y /\
    languageId s' = Js.nullish (Tab.languageId y) (languageId s).
Proof.
  intros (Hne & Hact & Hnd & _) Hi Hx Hy.
  assert (Hlen : 2 <= length (tabs s)).
  { unfold neighbour in Hy. destruct i as [|j].
    - apply lookup_lt_Some in Hy. lia.
    - apply lookup_lt_Some in Hi. lia. }
  pose proof (findIndex_unique _ _ _ Hnd Hi) as Hidx. rewrite Hx in Hidx.
  pose proof (removeAt_active s i x y Hnd Hi Hx Hy) as Hrm. rewrite Hx in Hrm.
  eexists. split.
  { unfold Store.closeTab. rewrite decide_False by lia.
    rewrite Hidx. rewrite decide_False by lia. exact Hrm. }
  split; [|done].
  unfold Store.deleteTab. rewrite Hidx.
  destruct (tabs s) as [|a [|b l]]; simpl in Hlen; [lia|lia|exact Hrm].
Qed.

(** X2. Closing a tab that is open but not active keeps the active tab;
    the source buffer is set again from the content the store holds for
    the active tab. *)
Theorem closing_other_tab_keeps_active (s : State) (tabId : string) (a : Tab.t) :
  wf s ->
  tabId ∈ (Tab.id <$> tabs s) -> tabId <> activeTabId s ->
  findTab (activeTabId s) (tabs s) = Some a ->
  exists s',
    Store.closeTab tabId s = Some s' /\
    tabs s' = withoutTab tabId (tabs s) /\
    activeTabId s' = activeTabId s /\
    a ∈ tabs s' /\
    source s' = Tab.content a.
Proof.
  intros (Hne & Hact & Hnd & _) Hin Hother Ha.
  pose proof (findIndex_range _ _ Hin) as Hr.
  assert (Hlen : length (tabs s) <> 1).
  { intros Hone. destruct (tabs s) as [|b [|c l]] eqn:E; try done.
    apply list_elem_of_fmap in Hin as [u [-> Hu]].
    apply list_elem_of_fmap in Hact as [v [Hv Hvin]].
    apply list_elem_of_singleton in Hu, Hvin. congruence. }
  assert (Ha' : a ∈ withoutTab tabId (tabs s)).
  { apply findTab_Some in Ha as [Hain Haid].
    apply withoutTab_elem. split; [congruence|done]. }
  assert (Hfind : findTab (activeTabId s) (withoutTab tabId (tabs s)) = Some a).
  { apply findTab_Some in Ha as [Hain Haid]. rewrite <- Haid.
    apply findTab_unique; [|done].
    apply (sublist_NoDup _ (Tab.id <$> tabs s)); [exact Hnd|].
    apply withoutTab_ids_sublist. }
  eexists. split.
  - unfold Store.closeTab. rewrite decide_False by done.
    rewrite decide_False by lia. unfold Store.removeAt.
    rewrite decide_False by done. simpl. by rewrite Hfind.
  - done.
Qed.

(** X3. After [deleteTab] the id that was deleted names no tab any more,
    with one exception: when the only tab of the store is deleted and its
    id is [tab-1], the default tab that replaces it has the same id. *)
Theorem deleteTab_forgets_the_id (s s' : State) (tabId : string) :
  Store.deleteTab tabId s = Some s' ->
  (tabId ∈ (Tab.id <$> tabs s') <->
   tabId = "tab-1" /\ exists x, tabs s = [x] /\ Tab.id x = tabId).
Proof.
  intros Hdel.
  assert (Hrm : forall idx, Store.removeAt tabId idx s = Some s' ->
                            tabId ∉ (Tab.id <$> tabs s')).
  { intros idx. unfold Store.removeAt.
    destruct (if decide (tabId = activeTabId s) then _ else _) as [n|]; [|done].
    simpl. destruct (match findTab n _ with Some _ => _ | None => _ end);
      [|done].
    intros [= <-]. simpl. intros [u [Hu Hin]]%list_elem_of_fmap.
    apply withoutTab_elem in Hin as [? _]. congruence. }
  unfold Store.deleteTab in Hdel.
  destruct (tabs s) as [|a [|b l]] eqn:E.
  - apply Hrm in Hdel. split; [done|]. by intros [_ (x & ? & _)].
  - case_decide as Ha.
    + injection Hdel as <-. simpl. rewrite list_elem_of_singleton.
      split; [|by intros [? _]]. intros ->. split; [done|]. by exists a.
    + apply Hrm in Hdel. split; [done|].
      intros [_ (x & [= <-] & ?)]. done.
  - apply Hrm in Hdel. split; [done|]. by intros [_ (x & ? & _)].
Qed.

End Fallback.

Lemma wf_twoTabs : wf twoTabs.
Proof.
  unfold wf, twoTabs. simpl. repeat split.
  - done.
  - by left.
  - apply NoDup_cons. split; [|apply NoDup_singleton].
    intros Hin. apply list_elem_of_singleton in Hin. discriminate Hin.
  - apply Forall_cons. split; [exists 1; split; [lia|done]|].
    apply Forall_singleton. exists 2. split; [lia|done].
Qed.

Lemma closing_active_tab_selects_neighbour_witness :
  exists s',
    Store.closeTab "tab-1" twoTabs = Some s' /\
    activeTabId s' = "tab-2" /\ source s' = "print(2)".
Proof.
  destruct (closing_active_tab_selects_neighbour (H := sampleLanguageUtils)
              twoTabs 0
              (Tab.mk "tab-1" "main.py" "print(1)" true (Some 71%Z) (Some "main.py"))
              (Tab.mk "tab-2" "main.py Copy" "print(2)" true (Some 71%Z) None)
              wf_twoTabs eq_refl eq_refl eq_refl)
    as (s' & Hclose & _ & _ & Hact & Hsrc & _).
  exists s'. by repeat split.
Defined.

Lemma closing_other_tab_keeps_active_witness :
  exists s',
    Store.closeTab "tab-2" twoTabs = Some s' /\
    activeTabId s' = "tab-1" /\ source s' = "print(1)".
Proof.
  destruct (closing_other_tab_keeps_active twoTabs "tab-2"
              (Tab.mk "tab-1" "main.py" "print(1)" true (Some 71%Z) (Some "main.py"))
              wf_twoTabs)
    as (s' & Hclose & _ & Hact & _ & Hsrc).
  - right. left.
  - discriminate.
  - reflexivity.
  - exists s'. by repeat split.
Defined.

Lemma deleteTab_forgets_the_id_witness :
  exists s',
    Store.deleteTab (H := sampleLanguageUtils) "tab-2" twoTabs = Some s' /\
    "tab-2" ∉ (Tab.id <$> tabs s').
Proof.
  eexists. split; [reflexivity|].
  intros Hin.
  apply (deleteTab_forgets_the_id (H := sampleLanguageUtils) twoTabs _ "tab-2"
           eq_refl) in Hin as [Hone _].
  discriminate Hone.
Defined.

Section Reuse.
Context `{LanguageUtils}.

(** X4. [closeAll] puts the counter of ids back to 1 and leaves the map of
    unsaved flags alone.  So the tab that [addTab] opens next is [tab-2]
    again, and if the store still held an unsaved flag for a former
    [tab-2], the new, empty tab carries it: the next autosave tick sends
    its empty content to [saveFile] under its default name. *)
Theorem closeAll_then_addTab_reuses_id
    (s : State) (requests : list (string * string)) (timers : list Z) :
  unsavedFiles s !! "tab-2" = Some true ->
  exists s1 s2 fresh w,
    Store.closeAll s = Some s1 /\
    Store.addTab s1 = Some s2 /\
    tabs s2 = [Store.baseTab s; fresh] /\
    Tab.id fresh = "tab-2" /\
    Tab.content fresh = "" /\
    Tab.path fresh = None /\
    activeTabId s2 = "tab-2" /\
    unsavedFiles s2 = unsavedFiles s /\
    Autosave.tickStart (Autosave.mkWorld s2 requests timers) =
      (w, Some (Autosave.mkPending "tab-2" (Autosave.savePath fresh) "")) /\
    Autosave.requests w = (requests ++ [(Autosave.savePath fresh, "")])%list.
Proof.
  intros Hflag. eexists _, _, _, _.
  split; [reflexivity|]. split; [reflexivity|].
  split; [reflexivity|]. split; [reflexivity|].
  split; [reflexivity|]. split; [reflexivity|].
  split; [reflexivity|]. split; [reflexivity|].
  unfold Autosave.tickStart. simpl.
  change (tabIdOf 2) with "tab-2". rewrite Hflag.
  unfold findTab. simpl. split; reflexivity.
Qed.

End Reuse.

Lemma closeAll_then_addTab_reuses_id_witness :
  let s := Store.setUnsavedFile "tab-2" true twoTabs in
  unsavedFiles s !! "tab-2" = Some true /\
  exists s1 s2 w,
    Store.closeAll (H := sampleLanguageUtils) s = Some s1 /\
    Store.addTab (H := sampleLanguageUtils) s1 = Some s2 /\
    activeTabId s2 = "tab-2" /\
    Autosave.tickStart (Autosave.mkWorld s2 [] []) =
      (w, Some (Autosave.mkPending "tab-2" "main_2.js" "")).
Proof.
  intros s. split; [reflexivity|].
  destruct (closeAll_then_addTab_reuses_id (H := sampleLanguageUtils) s [] []
              eq_refl)
    as (s1 & s2 & fresh & w & H1 & H2 & Htabs & _ & _ & _ & Hact & _ & Htick & _).
  exists s1, s2, w. split; [exact H1|]. split; [exact H2|]. split; [exact Hact|].
  rewrite Htick. do 3 f_equal.
  injection H1 as <-. injection H2 as <-. simpl in Htabs.
  injection Htabs as <-. reflexivity.
Defined.

(** ** Selecting and re-opening *)

(** X5. [selectTab] never changes the tabs.  With an id that names a tab
    it makes that tab active; with any other id it makes the first tab
    active.  Either way the source buffer becomes the content of the tab
    that is now active. *)
Theorem selectTab_falls_back_to_first
    (s : State) (tabId : string) (first : Tab.t) (rest : list Tab.t) :
  tabs s = first :: rest ->
  exists s' x,
    Store.selectTab tabId s = Some s' /\
    tabs s' = tabs s /\
    x ∈ tabs s /\
    activeTabId s' = Tab.id x /\
    source s' = Tab.content x /\
    (tabId ∈ (Tab.id <$> tabs s) -> Tab.id x = tabId) /\
    (tabId ∉ (Tab.id <$> tabs s) -> x = first).
Proof.
  intros Htabs. unfold Store.selectTab.
  destruct (findTab tabId (tabs s)) as [x|] eqn:E; simpl.
  - apply findTab_Some in E as [Hin Hid].
    eexists _, x. split; [done|]. simpl. repeat split; try done.
    intros Hout. exfalso. apply Hout. apply list_elem_of_fmap. by exists x.
  - apply findTab_None in E. rewrite Htabs in *. simpl.
    eexists _, first. split; [done|]. simpl.
    repeat split; try done. by left.
Qed.

Lemma selectTab_falls_back_to_first_witness :
  exists s',
    Store.selectTab "tab-9" twoTabsSecond = Some s' /\
    activeTabId s' = "tab-1" /\ source s' = "print(1)".
Proof.
  destruct (selectTab_falls_back_to_first twoTabsSecond "tab-9" _ _ eq_refl)
    as (s' & x & Hsel & _ & _ & Hact & Hsrc & _ & Hfirst).
  exists s'. split; [exact Hsel|].
  rewrite Hact, Hsrc, Hfirst; [by split|].
  intros Hin. simpl in Hin.
  repeat (apply elem_of_cons in Hin as [Hin|Hin]; [discriminate Hin|]).
  by apply elem_of_nil in Hin.
Defined.

Lemma setContent_same (x : Tab.t) : Store.setContent (Tab.content x) x = x.
Proof. by destruct x. Qed.

Lemma same_id_same_tab (l : list Tab.t) (x y : Tab.t) :
  NoDup (Tab.id <$> l) -> x ∈ l -> y ∈ l -> Tab.id y = Tab.id x -> y = x.
Proof.
  intros Hnd Hx Hy Hid.
  pose proof (findTab_unique l x Hnd Hx) as Ex.
  pose proof (findTab_unique l y Hnd Hy) as Ey. congruence.
Qed.

(** Writing a content into a tab and then the old content back restores
    the list of tabs. *)
Lemma mapTab_restore (l : list Tab.t) (x : Tab.t) (c : string) :
  NoDup (Tab.id <$> l) -> x ∈ l ->
  mapTab (Tab.id x) (Store.setContent (Tab.content x))
         (mapTab (Tab.id x) (Store.setContent c) l) = l.
Proof.
  intros Hnd Hx. unfold mapTab. rewrite <- list_fmap_compose.
  rewrite <- (list_fmap_id l) at 2. apply list_fmap_ext.
  intros _ y Hy%list_elem_of_lookup_2. simpl.
  destruct (decide (Tab.id y = Tab.id x)) as [E|E]; simpl.
  - rewrite decide_True by done.
    rewrite (same_id_same_tab l x y Hnd Hx Hy E). by destruct x.
  - by rewrite decide_False.
Qed.

Lemma mapTab_same (l : list Tab.t) (x : Tab.t) :
  NoDup (Tab.id <$> l) -> x ∈ l ->
  mapTab (Tab.id x) (Store.setContent (Tab.content x)) l = l.
Proof.
  intros Hnd Hx. unfold mapTab.
  rewrite <- (list_fmap_id l) at 2. apply list_fmap_ext.
  intros _ y Hy%list_elem_of_lookup_2. simpl.
  case_decide as E; [|done].
  rewrite (same_id_same_tab l x y Hnd Hx Hy E). by destruct x.
Qed.

Section Opening.
Context `{LanguageUtils}.

(** X6. Opening from the explorer a file that is already open in a tab
    selects that tab and stores the content just read in it, but the
    source buffer is left at the content the tab had before.  When the
    effect that keeps tab and buffer in step runs on that state, it writes
    the old content back: the tabs are as they were before the file was
    opened. *)
Theorem reopening_open_file_keeps_old_source
    (s : State) (filePath fileName content : string) (i : nat) (opened : Tab.t) :
  wf s ->
  list_find (Explorer.sameFile filePath fileName) (tabs s) = Some (i, opened) ->
  exists s',
    Explorer.openFile filePath fileName content s = Some s' /\
    activeTabId s' = Tab.id opened /\
    findTab (Tab.id opened) (tabs s') = Some (Store.setContent content opened) /\
    source s' = Tab.content opened /\
    tabs (Editor.syncEffect s') = tabs s /\
    source (Editor.syncEffect s') = Tab.content opened.
Proof.
  intros Hwf Hfound. pose proof Hwf as (Hne & Hact & Hnd & Hall).
  assert (Hin : opened ∈ tabs s).
  { apply list_find_Some in Hfound as (Hl & _). by eapply list_elem_of_lookup_2. }
  assert (Hid : Tab.id opened <> "").
  { apply (proj1 (Forall_forall _ _) Hall) in Hin as (k & _ & ->). done. }
  unfold Explorer.openFile. rewrite Hfound. simpl. rewrite or_str_empty.
  unfold Store.selectTab. rewrite (findTab_unique _ _ Hnd Hin). simpl.
  eexists. split; [done|]. simpl.
  assert (Hfind : findTab (Tab.id opened)
                    (mapTab (Tab.id opened) (Store.setContent content) (tabs s)) =
                  Some (Store.setContent content opened)).
  { rewrite findTab_mapTab by done. by rewrite (findTab_unique _ _ Hnd Hin). }
  split; [done|]. split; [exact Hfind|]. split; [done|].
  unfold Editor.syncEffect. simpl. rewrite decide_False by done.
  rewrite Hfind. simpl. case_decide as Hsame; simpl.
  - split; [|done]. simpl in Hsame. subst content.
    by apply mapTab_same.
  - split; [|done]. by apply mapTab_restore.
Qed.

(** X7. Opening a file that no tab holds adds one tab at the end and makes
    it active: it has the name and the path of the file, the content just
    read, a custom name, and the language of the store, whatever the
    extension of the file is.  The store stays well formed. *)
Theorem opening_new_file_adds_tab
    (s : State) (filePath fileName content : string) :
  wf s -> fileName <> "" ->
  list_find (Explorer.sameFile filePath fileName) (tabs s) = None ->
  exists s' fresh,
    Explorer.openFile filePath fileName content s = Some s' /\
    wf s' /\
    tabs s' = (tabs s ++ [fresh])%list /\
    activeTabId s' = Tab.id fresh /\
    source s' = content /\
    Tab.name fresh = fileName /\
    Tab.path fresh = Some filePath /\
    Tab.content fresh = content /\
    Tab.isCustomName fresh = true /\
    Tab.languageId fresh = Some (languageId s) /\
    languageId s' = languageId s.
Proof.
  intros Hwf Hname Hnone. unfold Explorer.openFile. rewrite Hnone. simpl.
  rewrite or_str_empty. unfold Store.createTab.
  eexists _, _. split; [done|]. split; [by apply wf_opened|]. simpl.
  unfold Js.or_str. rewrite decide_False by done. by repeat split.
Qed.

End Opening.

Lemma wf_twoTabsSecond : wf twoTabsSecond.
Proof.
  destruct wf_twoTabs as (Hne & _ & Hnd & Hall).
  unfold wf. repeat split; try done. right. left.
Qed.

Lemma reopening_open_file_keeps_old_source_witness :
  exists s',
    Explorer.openFile (H := sampleLanguageUtils)
      "main.py" "main.py" "print(3)" twoTabsSecond = Some s' /\
    activeTabId s' = "tab-1" /\
    source s' = "print(1)" /\
    tabs (Editor.syncEffect s') = tabs twoTabsSecond.
Proof.
  pose proof wf_twoTabsSecond as Hwf.
  destruct (reopening_open_file_keeps_old_source (H := sampleLanguageUtils)
              twoTabsSecond "main.py" "main.py" "print(3)" 0
              (Tab.mk "tab-1" "main.py" "print(1)" true (Some 71%Z) (Some "main.py"))
              Hwf eq_refl)
    as (s' & Hopen & Hact & _ & Hsrc & Hsync & _).
  exists s'. by repeat split.
Defined.

Lemma opening_new_file_adds_tab_witness :
  exists s' fresh,
    Explorer.openFile (H := sampleLanguageUtils)
      "src/util.py" "util.py" "x = 1" twoTabs = Some s' /\
    tabs s' = (tabs twoTabs ++ [fresh])%list /\
    Tab.languageId fresh = Some 71%Z /\
    Tab.path fresh = Some "src/util.py".
Proof.
  destruct (opening_new_file_adds_tab (H := sampleLanguageUtils)
              twoTabs "src/util.py" "util.py" "x = 1" wf_twoTabs)
    as (s' & fresh & Hopen & _ & Htabs & _ & _ & _ & Hpath & _ & _ & Hlang & _).
  - discriminate.
  - reflexivity.
  - exists s', fresh. by repeat split.
Defined.

(** ** Typing, saving and the buffer *)

(** X8. The effect that keeps the active tab in step with the source
    buffer changes nothing but the content of the active tab, which it
    sets to the buffer; it keeps a well-formed store well formed, and
    running it a second time changes nothing more. *)
Theorem syncEffect_aligns_active_tab (s : State) (active : Tab.t) :
  wf s ->
  findTab (activeTabId s) (tabs s) = Some active ->
  let s' := Editor.syncEffect s in
  findTab (activeTabId s') (tabs s') =
    Some (Store.setContent (source s) active) /\
  source s' = source s /\
  activeTabId s' = activeTabId s /\
  (forall x, x ∈ tabs s -> Tab.id x <> activeTabId s -> x ∈ tabs s') /\
  wf s' /\
  Editor.syncEffect s' = s'.
Proof.
  intros Hwf Hfind s'. pose proof Hwf as (Hne & Hact & Hnd & Hall).
  assert (Hid : activeTabId s <> "").
  { apply findTab_Some in Hfind as [Hin Hid'].
    apply (proj1 (Forall_forall _ _) Hall) in Hin as (k & _ & Hk).
    rewrite <- Hid', Hk. done. }
  assert (Hstep : forall t a, activeTabId t <> "" ->
            findTab (activeTabId t) (tabs t) = Some a ->
            Editor.syncEffect t =
              if decide (Tab.content a = source t) then t
              else Store.withTabs t
                     (mapTab (activeTabId t) (Store.setContent (source t)) (tabs t))).
  { intros t a Ht Ha. unfold Editor.syncEffect.
    rewrite decide_False by done. rewrite Ha. by case_decide. }
  unfold s'. rewrite (Hstep s active Hid Hfind).
  case_decide as Hsame.
  - rewrite <- Hsame, setContent_same. repeat split; try done.
    rewrite (Hstep s active Hid Hfind). by rewrite decide_True.
  - assert (Hfind' : findTab (activeTabId s)
                       (mapTab (activeTabId s) (Store.setContent (source s)) (tabs s)) =
                     Some (Store.setContent (source s) active)).
    { rewrite findTab_mapTab by done. by rewrite Hfind. }
    simpl. split; [exact Hfind'|]. split; [done|]. split; [done|].
    split; [|split].
    + intros x Hx Hother. unfold mapTab. apply list_elem_of_fmap.
      exists x. by rewrite decide_False.
    + apply (wf_withTabs s); [done|]. by apply mapTab_ids.
    + rewrite (Hstep _ (Store.setContent (source s) active)); [|done|exact Hfind'].
      by rewrite decide_True.
Qed.

Lemma syncEffect_aligns_active_tab_witness :
  let s := Store.setSource "print(9)" twoTabs in
  let s' := Editor.syncEffect s in
  findTab "tab-1" (tabs s') =
    Some (Tab.mk "tab-1" "main.py" "print(9)" true (Some 71%Z) (Some "main.py")) /\
  Editor.syncEffect s' = s'.
Proof.
  intros s s'.
  assert (Hwf : wf s).
  { destruct wf_twoTabs as (? & ? & ? & ?). by repeat split. }
  destruct (syncEffect_aligns_active_tab s
              (Tab.mk "tab-1" "main.py" "print(1)" true (Some 71%Z) (Some "main.py"))
              Hwf eq_refl)
    as (Hfind & _ & _ & _ & _ & Hidem).
  split; [exact Hfind|exact Hidem].
Defined.

(** X9. After the editor widget reports a new text for the active tab, the
    buffer and the active tab hold that text and the tab is flagged
    unsaved; the next autosave tick then calls [saveFile] with the key of
    that tab, less a leading slash, and that text. *)
Theorem typing_is_picked_up_by_autosave
    (v : string) (s : State) (active : Tab.t)
    (requests : list (string * string)) (timers : list Z) :
  activeTabId s <> "" ->
  findTab (activeTabId s) (tabs s) = Some active ->
  let s' := Editor.onChange v s in
  source s' = v /\
  findTab (activeTabId s') (tabs s') = Some (Store.setContent v active) /\
  unsavedFiles s' !! activeTabId s' = Some true /\
  exists w,
    Autosave.tickStart (Autosave.mkWorld s' requests timers) =
      (w, Some (Autosave.mkPending (activeTabId s) (Autosave.savePath active) v)) /\
    Autosave.requests w = (requests ++ [(Autosave.savePath active, v)])%list.
Proof.
  intros Hid Hfind s'.
  assert (Hfind' : findTab (activeTabId s)
                     (mapTab (activeTabId s) (Store.setContent v) (tabs s)) =
                   Some (Store.setContent v active)).
  { rewrite findTab_mapTab by done. by rewrite Hfind. }
  unfold s', Editor.onChange. simpl. rewrite decide_False by done. simpl.
  split; [done|]. split; [exact Hfind'|].
  split; [apply lookup_insert_eq|].
  unfold Autosave.tickStart. simpl. rewrite decide_False by done.
  rewrite lookup_insert_eq, Hfind'. eexists. by split.
Qed.

Lemma typing_is_picked_up_by_autosave_witness :
  exists w,
    Autosave.tickStart (Autosave.mkWorld (Editor.onChange "print(7)" twoTabs) [] []) =
      (w, Some (Autosave.mkPending "tab-1" "main.py" "print(7)")).
Proof.
  destruct (typing_is_picked_up_by_autosave "print(7)" twoTabs
              (Tab.mk "tab-1" "main.py" "print(1)" true (Some 71%Z) (Some "main.py"))
              [] [])
    as (_ & _ & _ & w & Htick & _); [discriminate|reflexivity|].
  exists w. exact Htick.
Defined.

(** X10. The manual save sends the source buffer, not the content of the
    tab, and does nothing at all while the buffer is empty, even for a tab
    flagged unsaved: such a tab is saved by the autosave tick only, which
    sends the empty content of the tab. *)
Theorem manual_save_skips_empty_buffer (w : Autosave.World) (active : Tab.t) :
  let state := Autosave.store w in
  activeTabId state <> "" ->
  findTab (activeTabId state) (tabs state) = Some active ->
  (source state = "" -> Editor.handleSaveStart w = (w, None)) /\
  (source state <> "" ->
   exists w1,
     Editor.handleSaveStart w =
       (w1, Some (Autosave.mkPending (activeTabId state)
                                     (Autosave.savePath active) (source state))) /\
     Autosave.requests w1 =
       (Autosave.requests w ++ [(Autosave.savePath active, source state)])%list) /\
  (source state = "" -> Tab.content active = "" ->
   unsavedFiles state !! activeTabId state = Some true ->
   exists w1,
     Autosave.tickStart w =
       (w1, Some (Autosave.mkPending (activeTabId state)
                                     (Autosave.savePath active) ""))).
Proof.
  intros state Hid Hfind. split; [|split].
  - intros Hempty. unfold Editor.handleSaveStart. fold state.
    rewrite decide_False by done. by rewrite decide_True.
  - intros Hsrc. unfold Editor.handleSaveStart. fold state.
    rewrite !decide_False by done. rewrite Hfind.
    unfold Autosave.savePath. rewrite or_str_empty. eexists. by split.
  - intros _ Hcontent Hflag. unfold Autosave.tickStart. fold state.
    rewrite decide_False by done. rewrite Hflag, Hfind, Hcontent. by eexists.
Qed.

Lemma manual_save_skips_empty_buffer_witness :
  let w := Autosave.mkWorld (Editor.onChange "" twoTabs) [] [] in
  Editor.handleSaveStart w = (w, None) /\
  exists w1,
    Autosave.tickStart w =
      (w1, Some (Autosave.mkPending "tab-1" "main.py" "")).
Proof.
  intros w.
  destruct (manual_save_skips_empty_buffer w
              (Tab.mk "tab-1" "main.py" "" true (Some 71%Z) (Some "main.py")))
    as (Hskip & _ & Hauto); [discriminate|reflexivity|].
  split; [by apply Hskip|]. by apply Hauto.
Defined.

(** X11. Once a save, manual or automatic, has succeeded for the active
    tab, the autosave tick makes no request until the tab is flagged
    again. *)
Theorem nothing_to_autosave_after_success
    (activeId : string) (w : Autosave.World) :
  activeTabId (Autosave.store w) = activeId ->
  let saved := Editor.handleSaveFinish activeId (Autosave.Responded true) w in
  let autosaved := Autosave.tickFinish activeId (Autosave.Responded true) w in
  Autosave.tickStart saved = (saved, None) /\
  Autosave.tickStart autosaved = (autosaved, None).
Proof.
  intros Hid saved autosaved.
  split; unfold Autosave.tickStart; simpl; rewrite Hid;
    (case_decide; [done|]); by rewrite lookup_insert_eq.
Qed.

Lemma nothing_to_autosave_after_success_witness :
  let w := Autosave.mkWorld twoTabsUnsaved [] [] in
  let saved := Editor.handleSaveFinish "tab-1" (Autosave.Responded true) w in
  unsavedFiles twoTabsUnsaved !! "tab-1" = Some true /\
  Autosave.tickStart saved = (saved, None).
Proof.
  intros w saved. split; [reflexivity|].
  by destruct (nothing_to_autosave_after_success "tab-1" w eq_refl) as [Hs _].
Defined.

Lemma string_app_length (a b : string) :
  String.length (a +:+ b) = String.length a + String.length b.
Proof. induction a as [|c a IH]; simpl; [done|]. by rewrite IH. Qed.

Lemma string_app_nil_r (a : string) : a +:+ "" = a.
Proof.
  induction a as [|c a IH]; [done|].
  change (String c (a +:+ "") = String c a). by f_equal.
Qed.

Lemma string_app_assoc (a b c : string) : (a +:+ b) +:+ c = a +:+ b +:+ c.
Proof.
  induction a as [|x a IH]; [done|].
  change (String x ((a +:+ b) +:+ c) = String x (a +:+ b +:+ c)). by f_equal.
Qed.

(** X12. Inserting an AI suggestion into a tab that is in step with a
    non-empty buffer appends the heading and the suggestion to both, which
    stay in step.  With an empty buffer the buffer becomes the suggestion
    alone while the tab gets the heading as well: the two differ until the
    effect that keeps them in step runs, which leaves the suggestion alone
    in the tab. *)
Theorem suggestion_into_empty_buffer_drops_heading
    (suggestion : string) (s : State) (active : Tab.t) :
  wf s ->
  findTab (activeTabId s) (tabs s) = Some active ->
  Tab.content active = source s ->
  let s1 := Editor.insertSuggestion suggestion s in
  (source s <> "" ->
   source s1 = source s +:+ suggestionHeading +:+ suggestion /\
   findTab (activeTabId s1) (tabs s1) = Some (Store.setContent (source s1) active) /\
   Editor.syncEffect s1 = s1) /\
  (source s = "" ->
   source s1 = suggestion /\
   findTab (activeTabId s1) (tabs s1) =
     Some (Store.setContent (suggestionHeading +:+ suggestion) active) /\
   suggestionHeading +:+ suggestion <> source s1 /\
   findTab (activeTabId s1) (tabs (Editor.syncEffect s1)) =
     Some (Store.setContent suggestion active)).
Proof.
  intros Hwf Hfind Hsync s1. pose proof Hwf as (Hne & Hact & Hnd & Hall).
  assert (Hid : activeTabId s <> "").
  { apply findTab_Some in Hfind as [Hin Hid'].
    apply (proj1 (Forall_forall _ _) Hall) in Hin as (k & _ & Hk).
    rewrite <- Hid', Hk. done. }
  assert (Hs1 : s1 =
    Store.withTabs
      (Store.setSource
         (if decide (source s = "") then suggestion
          else source s +:+ suggestionHeading +:+ suggestion) s)
      (mapTab (activeTabId s)
         (Store.setContent (source s +:+ suggestionHeading +:+ suggestion))
         (tabs s))).
  { unfold s1, Editor.insertSuggestion. rewrite decide_False by done.
    by rewrite Hfind, Hsync. }
  assert (Hwf1 : wf s1).
  { rewrite Hs1. apply wf_withTabs; [|by apply mapTab_ids].
    destruct Hwf as (? & ? & ? & ?). by repeat split. }
  assert (Hfind1 : findTab (activeTabId s1) (tabs s1) =
    Some (Store.setContent (source s +:+ suggestionHeading +:+ suggestion) active)).
  { rewrite Hs1. simpl. rewrite findTab_mapTab by done. by rewrite Hfind. }
  split.
  - intros Hsrc.
    assert (Hsrc1 : source s1 = source s +:+ suggestionHeading +:+ suggestion).
    { rewrite Hs1. simpl. by rewrite decide_False. }
    split; [exact Hsrc1|]. split; [by rewrite Hsrc1|].
    destruct (syncEffect_aligns_active_tab s1 _ Hwf1 Hfind1) as (Hal & _).
    unfold Editor.syncEffect. rewrite decide_False by (by rewrite Hs1).
    rewrite Hfind1. simpl. rewrite decide_True; [done|by rewrite Hsrc1].
  - intros Hempty.
    assert (Hsrc1 : source s1 = suggestion).
    { rewrite Hs1. simpl. by rewrite decide_True. }
    rewrite Hempty in Hfind1. simpl in Hfind1.
    split; [exact Hsrc1|]. split; [exact Hfind1|]. split.
    + rewrite Hsrc1. intros E. apply (f_equal String.length) in E.
      rewrite string_app_length in E. simpl in E. lia.
    + destruct (syncEffect_aligns_active_tab s1 _ Hwf1 Hfind1)
        as (Hal & _ & Hact1 & _).
      rewrite Hact1 in Hal. rewrite Hal, Hsrc1. done.
Qed.

Lemma wf_onChange (v : string) (s : State) : wf s -> wf (Editor.onChange v s).
Proof.
  intros (Hne & Hact & Hnd & Hall). unfold Editor.onChange. simpl.
  case_decide; [by repeat split|]. simpl.
  apply (wf_withTabs (Store.setUnsavedFile (activeTabId s) true
                        (Store.setSource v s))); [by repeat split|].
  by apply mapTab_ids.
Qed.

Lemma suggestion_into_empty_buffer_drops_heading_witness :
  let s := Editor.onChange "" twoTabs in
  let s1 := Editor.insertSuggestion "print(5)" s in
  source s1 = "print(5)" /\
  findTab "tab-1" (tabs (Editor.syncEffect s1)) =
    Some (Tab.mk "tab-1" "main.py" "print(5)" true (Some 71%Z) (Some "main.py")).
Proof.
  intros s s1.
  pose proof (wf_onChange "" twoTabs wf_twoTabs) as Hwf.
  destruct (suggestion_into_empty_buffer_drops_heading "print(5)" s
              (Tab.mk "tab-1" "main.py" "" true (Some 71%Z) (Some "main.py"))
              Hwf eq_refl eq_refl)
    as (_ & Hempty).
  destruct Hempty as (Hsrc & _ & _ & Hsync); [reflexivity|].
  split; [exact Hsrc|exact Hsync].
Defined.

(** ** Deleting and renaming files *)

Section Deleting.
Context `{LanguageUtils}.

(** X13. Deleting the file of a tab: when the user declines, or the id
    names no tab, no request is made and nothing changes.  When the request
    fails, the tab stays open, the store is untouched and one alert is
    shown that carries the error text.  When it succeeds on a well-formed
    store, the tab is removed by [deleteTab] without an alert, the
    structure-changed event is dispatched, and the store is well formed
    again. *)
Theorem delete_handler_outcomes
    (thrown : ApiError.t) (tabId : string) (w : Delete.World) :
  wf (Delete.store w) ->
  Delete.start false tabId w = (w, false) /\
  (findTab tabId (tabs (Delete.store w)) = None ->
   Delete.start true tabId w = (w, false)) /\
  (forall tab, findTab tabId (tabs (Delete.store w)) = Some tab ->
     exists w1, Delete.start true tabId w = (w1, true) /\
       Delete.store w1 = Delete.store w /\
       Delete.requests w1 = (Delete.requests w ++ [Tab.key tab])%list) /\
  (forall err,
     let w2 := Delete.finish thrown tabId (Delete.Failed err) w in
     Delete.store w2 = Delete.store w /\
     Delete.events w2 = Delete.events w /\
     Delete.alerts w2 =
       (Delete.alerts w ++ ["Failed to delete file: " +:+ ApiError.text err])%list) /\
  (let w2 := Delete.finish thrown tabId Delete.Deleted w in
   Some (Delete.store w2) = Store.deleteTab tabId (Delete.store w) /\
   wf (Delete.store w2) /\
   Delete.alerts w2 = Delete.alerts w /\
   Delete.events w2 = (Delete.events w ++ ["project-structure-changed"])%list).
Proof.
  intros Hwf. split; [|split; [|split; [|split]]].
  - unfold Delete.start. by destruct (findTab _ _).
  - intros E. unfold Delete.start. by rewrite E.
  - intros tab E. unfold Delete.start. rewrite E. by eexists.
  - done.
  - destruct (perform_wf (Store.DeleteTab tabId) _ Hwf) as (s' & Hdel & Hwf').
    simpl in Hdel. unfold Delete.finish. rewrite Hdel. by simpl.
Qed.

End Deleting.

Lemma delete_handler_outcomes_witness :
  let w := Delete.mkWorld twoTabs [] [] [] in
  let w2 := Delete.finish (H := sampleLanguageUtils)
              (ApiError.mk None None "TypeError") "tab-1" Delete.Deleted w in
  (Tab.id <$> tabs (Delete.store w2)) = ["tab-2"] /\
  wf (Delete.store w2) /\
  Delete.alerts w2 = [].
Proof.
  intros w w2.
  destruct (delete_handler_outcomes (H := sampleLanguageUtils)
              (ApiError.mk None None "TypeError") "tab-1" w wf_twoTabs)
    as (_ & _ & _ & _ & _ & Hwf & Halerts & _).
  split; [reflexivity|]. split; [exact Hwf|exact Halerts].
Defined.

(** X14. After a rename that the server confirmed, the tab has the new
    name, a custom name and its old content.  Its collaboration key is the
    [newPath] of the response when that is non-empty; without it the key
    is the path the tab had before, and the new name only if it had no
    path. *)
Theorem renamed_tab_key
    (tabId name : string) (newPath : option string) (w : Rename.World)
    (tab : Tab.t) :
  findTab tabId (tabs (Rename.store w)) = Some tab ->
  let w' := Rename.finish tabId name (Rename.Renamed newPath) w in
  exists tab',
    findTab tabId (tabs (Rename.store w')) = Some tab' /\
    Tab.name tab' = name /\
    Tab.isCustomName tab' = true /\
    Tab.content tab' = Tab.content tab /\
    Tab.id tab' = Tab.id tab /\
    Tab.key tab' =
      match truthyPath newPath with
      | Some p => p
      | None => Js.or_opt (Tab.path tab) name
      end /\
    Rename.editingTabId (Rename.ui w') = None /\
    Rename.events w' = (Rename.events w ++ ["project-structure-changed"])%list.
Proof.
  intros Hfind w'. eexists. split.
  - unfold w', Rename.finish. simpl. rewrite findTab_mapTab by done.
    by rewrite Hfind.
  - simpl. repeat split; try done.
    unfold Tab.key, truthyPath. simpl. destruct newPath as [p|]; [|done].
    case_decide as Hp; [by subst p|]. simpl. unfold Js.or_str.
    by rewrite decide_False.
Qed.

Lemma renamed_tab_key_witness :
  let w := Rename.mkWorld twoTabs (Rename.mkUi (Some "tab-1") "app.py" "") [] [] in
  let w' := Rename.finish "tab-1" "app.py" (Rename.Renamed None) w in
  exists tab',
    findTab "tab-1" (tabs (Rename.store w')) = Some tab' /\
    Tab.name tab' = "app.py" /\ Tab.key tab' = "main.py".
Proof.
  intros w w'.
  destruct (renamed_tab_key "tab-1" "app.py" None w
              (Tab.mk "tab-1" "main.py" "print(1)" true (Some 71%Z) (Some "main.py"))
              eq_refl)
    as (tab' & Hfind & Hname & _ & _ & _ & Hkey & _).
  exists tab'. by repeat split.
Defined.

(** ** What a remote edit leaves alone *)

(** X15. Whatever arrives on the socket, the message listener leaves the
    ids, names and paths of the tabs, the active id, the unsaved flags,
    the sockets and the timers as they are, and every tab other than the
    active one unchanged; a well-formed store stays well formed.  In
    particular a remote edit never flags a tab unsaved. *)
Theorem remote_edit_frame (self : string) (msg : Inbound) (p : Panel.t) :
  let p' := Panel.onMessage self msg p in
  Tab.id <$> tabs (Panel.store p') = Tab.id <$> tabs (Panel.store p) /\
  Tab.name <$> tabs (Panel.store p') = Tab.name <$> tabs (Panel.store p) /\
  Tab.path <$> tabs (Panel.store p') = Tab.path <$> tabs (Panel.store p) /\
  activeTabId (Panel.store p') = activeTabId (Panel.store p) /\
  unsavedFiles (Panel.store p') = unsavedFiles (Panel.store p) /\
  Panel.sockets p' = Panel.sockets p /\
  Panel.wsRef p' = Panel.wsRef p /\
  Panel.timers p' = Panel.timers p /\
  (forall x, x ∈ tabs (Panel.store p) ->
     Tab.id x <> activeTabId (Panel.store p) -> x ∈ tabs (Panel.store p')) /\
  (wf (Panel.store p) -> wf (Panel.store p')).
Proof.
  intros p'. unfold p', Panel.onMessage.
  destruct msg as [m|]; [|by repeat (split; [done|])].
  case_decide; [by repeat (split; [done|])|].
  destruct (truthyPath _) as [k|]; [|by repeat (split; [done|])].
  case_decide; [|by repeat (split; [done|])].
  case_decide; [|by repeat (split; [done|])].
  simpl. unfold mapTab. rewrite <- !list_fmap_compose.
  split; [|split; [|split; [|repeat (split; [done|]); split]]].
  - apply list_fmap_ext. intros _ x _. simpl. by case_decide.
  - apply list_fmap_ext. intros _ x _. simpl. by case_decide.
  - apply list_fmap_ext. intros _ x _. simpl. by case_decide.
  - intros x Hx Hother. apply list_elem_of_fmap. exists x.
    by rewrite decide_False.
  - intros Hwf.
    apply (wf_withTabs (Store.setSource (Js.or_str (EditMsg.content m) "")
                          (Panel.store p))).
    + destruct Hwf as (? & ? & ? & ?). by repeat split.
    + by apply mapTab_ids.
Qed.


(** ** The open socket *)

Lemma runSendCleanup_frame (p : Panel.t) :
  Panel.sockets (Panel.runSendCleanup p) = Panel.sockets p /\
  Panel.wsRef (Panel.runSendCleanup p) = Panel.wsRef p /\
  Panel.subscribeCleanup (Panel.runSendCleanup p) = Panel.subscribeCleanup p /\
  Panel.store (Panel.runSendCleanup p) = Panel.store p /\
  Panel.now (Panel.runSendCleanup p) = Panel.now p.
Proof. unfold Panel.runSendCleanup. by destruct (Panel.sendCleanup p). Qed.

Lemma sendEffect_frame (p : Panel.t) :
  Panel.sockets (Panel.sendEffect p) = Panel.sockets p /\
  Panel.wsRef (Panel.sendEffect p) = Panel.wsRef p /\
  Panel.subscribeCleanup (Panel.sendEffect p) = Panel.subscribeCleanup p /\
  Panel.store (Panel.sendEffect p) = Panel.store p /\
  Panel.now (Panel.sendEffect p) = Panel.now p.
Proof.
  unfold Panel.sendEffect. destruct (Panel.wsRef p) as [i|] eqn:E; [|done].
  destruct (Panel.sockets p !! i); [|done]. case_decide; [|done].
  by destruct (truthyPath _).
Qed.

(** The clean-up of the subscribe effect, seen from an open socket that
    [wsRef] holds. *)
Lemma runSubscribeCleanup_open (p : Panel.t) (i : nat)
    (ls : list (option string)) (fr : list Frame) :
  Panel.wsRef p = Some i ->
  Panel.sockets p !! i = Some (Socket.mk OPEN ls fr) ->
  let q := Panel.runSubscribeCleanup p in
  Panel.wsRef q = Some i /\
  Panel.sockets q !! i = Some (Socket.mk OPEN ls (fr ++ unsubscribeFrames p)) /\
  length (Panel.sockets q) = length (Panel.sockets p).
Proof.
  intros Hws Hsock q. unfold q, Panel.runSubscribeCleanup, unsubscribeFrames.
  rewrite Hws.
  destruct (Panel.subscribeCleanup p) as [[j [f|]]|]; simpl;
    rewrite ?app_nil_r; try done.
  destruct (decide (j = i)) as [->|Hne].
  - rewrite Hsock. simpl. unfold Panel.onSocket. simpl.
    rewrite list_lookup_alter_eq, Hsock, length_alter. simpl.
    by rewrite trySend_open.
  - rewrite app_nil_r.
    destruct (Panel.sockets p !! j) as [wj|]; [|done].
    case_decide; [|done]. unfold Panel.onSocket. simpl.
    by rewrite list_lookup_alter_ne, length_alter.
Qed.

(** The subscribe effect on an open socket. *)
Lemma subscribeEffect_open (p : Panel.t) (i : nat)
    (ls : list (option string)) (fr : list Frame) :
  Panel.wsRef p = Some i ->
  Panel.sockets p !! i = Some (Socket.mk OPEN ls fr) ->
  let path := truthyPath (activePath (Panel.store p)) in
  let q := Panel.subscribeEffect p in
  Panel.sockets q !! i = Some (Socket.mk OPEN ls (fr ++ subscribeFrames path)) /\
  Panel.subscribeCleanup q = Some (i, path) /\
  length (Panel.sockets q) = length (Panel.sockets p).
Proof.
  intros Hws Hsock path q. unfold q, Panel.subscribeEffect.
  rewrite Hws, Hsock. simpl. rewrite list_lookup_alter_eq, Hsock, length_alter.
  simpl. split; [|done]. fold path. unfold subscribeFrames.
  destruct path as [f|]; simpl; rewrite !trySend_open; [|done].
  by rewrite <- app_assoc.
Qed.

Section Open.
Context `{LanguageUtils}.

(** A change of the tabs that keeps the language, with the socket open:
    the clean-up writes its [unsubscribe], the effect writes
    [unsubscribe-all] and the [subscribe] for the key of the tab that is
    active now. *)
Lemma tabsChanged_open (self : string) (s : State) (p : Panel.t) (i : nat)
    (ls : list (option string)) (fr : list Frame) :
  Panel.wsRef p = Some i ->
  Panel.sockets p !! i = Some (Socket.mk OPEN ls fr) ->
  Panel.socketDeps s = Panel.socketDeps (Panel.store p) ->
  let path := truthyPath (activePath s) in
  let p' := Panel.step self (Panel.TabsChanged s) p in
  Panel.wsRef p' = Some i /\
  Panel.sockets p' !! i =
    Some (Socket.mk OPEN ls (fr ++ unsubscribeFrames p ++ subscribeFrames path)) /\
  Panel.subscribeCleanup p' = Some (i, path) /\
  Panel.store p' = s /\
  Panel.now p' = Panel.now p /\
  length (Panel.sockets p') = length (Panel.sockets p) /\
  (timersOwned p ->
   exists n, Panel.pending p' =
     match path with
     | Some k => [(Timer.mk n (Panel.now p + 800) k (source s), i)]
     | None => []
     end).
Proof.
  intros Hws Hsock Hdeps path p'. unfold p'.
  rewrite step_tabsChanged_same by done.
  destruct (runSubscribeCleanup_open p i ls fr Hws Hsock) as (Hws1 & Hsock1 & Hlen1).
  destruct (runSubscribeCleanup_timers p) as (_ & _ & _ & Hnow1 & _).
  set (q1 := Panel.runSubscribeCleanup p) in *.
  destruct (runSendCleanup_frame q1) as (Hs2 & Hws2 & _ & _ & Hnow2).
  set (q3 := Panel.withStore s (Panel.runSendCleanup q1)).
  assert (Hws3 : Panel.wsRef q3 = Some i) by (by rewrite <- Hws1, <- Hws2).
  assert (Hsock3 : Panel.sockets q3 !! i =
                   Some (Socket.mk OPEN ls (fr ++ unsubscribeFrames p))).
  { unfold q3. simpl. by rewrite Hs2. }
  destruct (subscribeEffect_open q3 i ls _ Hws3 Hsock3) as (Hsock4 & Hclean4 & Hlen4).
  destruct (subscribeEffect_timers q3) as (_ & _ & _ & Hnow4 & Hstore4 & Hws4).
  destruct (sendEffect_frame (Panel.subscribeEffect q3))
    as (Hs5 & Hws5 & Hclean5 & Hstore5 & Hnow5).
  rewrite Hs5, Hws5, Hclean5, Hstore5, Hnow5, Hws4, Hsock4, Hclean4, Hstore4,
    Hnow4, Hlen4.
  rewrite <- app_assoc.
  assert (Hnow3 : Panel.now q3 = Panel.now p) by (simpl; by rewrite Hnow2).
  split; [done|]. split; [done|]. split; [done|]. split; [done|].
  split; [done|]. split; [simpl; by rewrite Hs2|].
  intros Hown.
  destruct (before_sendEffect s p Hown) as (Hnone & _ & _).
  fold q1 in Hnone. fold q3 in Hnone.
  exists (Panel.nextTimerId (Panel.subscribeEffect q3)).
  unfold Panel.sendEffect. rewrite Hws4, Hws3, Hsock4. simpl.
  rewrite Hstore4. simpl. fold path.
  destruct path as [k|]; simpl; [|done].
  rewrite Hnone, Hnow4, Hnow3, or_str_empty.
  by destruct (Panel.debouncedSendRef (Panel.subscribeEffect q3)).
Qed.


(** The clock reaches [at_] with one timer pending. *)
Lemma elapse_early (self : string) (at_ : Z) (p : Panel.t) (x : Timer.t)
    (i : nat) :
  Panel.pending p = [(x, i)] -> (at_ < Timer.due x)%Z ->
  let q := Panel.elapse self at_ p in
  Panel.sockets q = Panel.sockets p /\ Panel.pending q = [(x, i)] /\
  Panel.wsRef q = Panel.wsRef p /\ Panel.store q = Panel.store p /\
  Panel.subscribeCleanup q = Panel.subscribeCleanup p /\
  Panel.debouncedSendRef q = Panel.debouncedSendRef p /\
  Panel.sendCleanup q = Panel.sendCleanup p /\
  Panel.now q = at_.
Proof.
  intros Hp Hearly q. unfold q, Panel.elapse. rewrite Hp. simpl.
  rewrite !filter_cons, !filter_nil. simpl.
  rewrite decide_False by lia. rewrite decide_True by lia. done.
Qed.

Lemma elapse_due (self : string) (at_ : Z) (p : Panel.t) (x : Timer.t)
    (i : nat) (ls : list (option string)) (fr : list Frame) :
  Panel.pending p = [(x, i)] -> (Timer.due x <= at_)%Z ->
  Panel.sockets p !! i = Some (Socket.mk OPEN ls fr) ->
  let q := Panel.elapse self at_ p in
  Panel.sockets q !! i =
    Some (Socket.mk OPEN ls
            (fr ++ [EditFrame (Timer.filePath x) (Timer.content x) self at_])) /\
  Panel.pending q = [] /\
  Panel.wsRef q = Panel.wsRef p /\ Panel.store q = Panel.store p.
Proof.
  intros Hp Hdue Hsock q. unfold q, Panel.elapse. rewrite Hp. simpl.
  rewrite !filter_cons, !filter_nil. simpl.
  rewrite decide_True by lia. rewrite decide_False by lia. simpl.
  by rewrite list_lookup_alter_eq, Hsock.
Qed.

(** What [onChange] of the editor leaves of the active tab. *)
Lemma onChange_active (v : string) (s : State) (tab : Tab.t) :
  activeTabId s <> "" ->
  findTab (activeTabId s) (tabs s) = Some tab ->
  let s' := Editor.onChange v s in
  activeTabId s' = activeTabId s /\
  findTab (activeTabId s') (tabs s') =
    Some (Tab.mk (Tab.id tab) (Tab.name tab) v (Tab.isCustomName tab)
                 (Tab.languageId tab) (Tab.path tab)) /\
  source s' = v /\
  languageId s' = languageId s /\
  activePath s' = Some (Tab.key tab).
Proof.
  intros Hid Hfind s'. unfold s', Editor.onChange. simpl.
  rewrite decide_False by done. unfold activePath. simpl.
  rewrite findTab_mapTab by done. by rewrite Hfind.
Qed.

(** X16. Two changes made in the editor less than 800 ms apart, with the
    socket open and the same tab active, give one publish only: the timer
    of the first change is cleared by the second, and once 800 ms have
    passed since the second change the socket has written a single edit,
    with the key of the active tab and the text of the second change.
    Each change also makes the client leave and rejoin the file: the
    socket gets [unsubscribe], [unsubscribe-all] and [subscribe] for the
    same key every time. *)
Theorem keystrokes_coalesce
    (self a b k : string) (t1 t2 : Z) (p : Panel.t) (tab : Tab.t) (i : nat)
    (ls : list (option string)) (fr : list Frame) :
  Panel.wsRef p = Some i ->
  Panel.sockets p !! i = Some (Socket.mk OPEN ls fr) ->
  timersOwned p ->
  activeTabId (Panel.store p) <> "" ->
  findTab (activeTabId (Panel.store p)) (tabs (Panel.store p)) = Some tab ->
  Tab.key tab = k -> k <> "" ->
  (t1 < Panel.now p + 800)%Z -> (t1 + 800 <= t2)%Z ->
  let typedA := Editor.onChange a (Panel.store p) in
  let typedB := Editor.onChange b typedA in
  let q := Panel.steps self
             [Panel.TabsChanged typedA; Panel.Elapsed t1;
              Panel.TabsChanged typedB; Panel.Elapsed t2] p in
  Panel.frames q =
    (fr ++ unsubscribeFrames p ++ [UnsubscribeAll; Subscribe k] ++
     [Unsubscribe k; UnsubscribeAll; Subscribe k] ++
     [EditFrame k b self t2])%list /\
  filter isEdit (Panel.frames q) =
    (filter isEdit fr ++ [EditFrame k b self t2])%list /\
  Panel.timers q = [] /\
  source (Panel.store q) = b /\
  (exists tab', findTab (activeTabId (Panel.store q)) (tabs (Panel.store q)) =
                  Some tab' /\ Tab.content tab' = b /\ Tab.key tab' = k).
Proof.
  intros Hws Hsock Hown Hid Hfind Hkey Hne Ht1 Ht2 typedA typedB q.
  destruct (onChange_active a _ tab Hid Hfind)
    as (HidA & HfindA & HsrcA & HlangA & HpathA).
  fold typedA in HidA, HfindA, HsrcA, HlangA, HpathA.
  assert (HidA' : activeTabId typedA <> "") by congruence.
  destruct (onChange_active b _ _ HidA' HfindA)
    as (HidB & HfindB & HsrcB & HlangB & HpathB).
  fold typedB in HidB, HfindB, HsrcB, HlangB, HpathB.
  change (Tab.key _) with (Tab.key tab) in HpathB.
  rewrite Hkey in HpathA, HpathB.
  assert (Htruthy : truthyPath (Some k) = Some k).
  { simpl. by rewrite decide_False. }
  (* the first change *)
  destruct (tabsChanged_open self typedA p i ls fr Hws Hsock
              (socketDeps_languageId _ _ HlangA))
    as (Hws1 & Hsock1 & Hclean1 & Hstore1 & Hnow1 & _ & Hpend1).
  destruct (Hpend1 Hown) as (n1 & Hp1). clear Hpend1.
  rewrite HpathA, Htruthy in Hsock1, Hclean1, Hp1.
  assert (Hown1 : timersOwned (Panel.step self (Panel.TabsChanged typedA) p))
    by (by apply step_owned).
  set (p1 := Panel.step self (Panel.TabsChanged typedA) p) in *.
  (* the clock, before the timer is due *)
  destruct (elapse_early self t1 p1 _ i Hp1)
    as (Hs2 & Hp2 & Hws2 & Hstore2 & Hclean2 & Href2 & Hsc2 & Hnow2).
  { simpl. lia. }
  assert (Hown2 : timersOwned (Panel.step self (Panel.Elapsed t1) p1))
    by (by apply step_owned).
  set (p2 := Panel.elapse self t1 p1) in *.
  change (Panel.step self (Panel.Elapsed t1) p1) with p2 in Hown2.
  (* the second change *)
  assert (Hdeps2 : Panel.socketDeps typedB = Panel.socketDeps (Panel.store p2)).
  { apply socketDeps_languageId. by rewrite Hstore2, Hstore1. }
  assert (Hsock2 : Panel.sockets p2 !! i = Some _) by (rewrite Hs2; exact Hsock1).
  assert (Hws2' : Panel.wsRef p2 = Some i) by (by rewrite Hws2).
  destruct (tabsChanged_open self typedB p2 i ls _ Hws2' Hsock2 Hdeps2)
    as (Hws3 & Hsock3 & _ & Hstore3 & Hnow3 & _ & Hpend3).
  destruct (Hpend3 Hown2) as (n3 & Hp3). clear Hpend3.
  rewrite HpathB, Htruthy in Hsock3, Hp3.
  assert (Hunsub : unsubscribeFrames p2 = [Unsubscribe k]).
  { unfold unsubscribeFrames. rewrite Hclean2, Hclean1, Hws2'.
    by rewrite decide_True. }
  rewrite Hunsub, Hnow2, HsrcB in *.
  set (p3 := Panel.step self (Panel.TabsChanged typedB) p2) in *.
  (* the clock, 800 ms later *)
  edestruct (elapse_due self t2 p3) as (Hsock4 & Hp4 & Hws4 & Hstore4);
    [exact Hp3|simpl; lia|exact Hsock3|].
  change (Panel.steps self _ p) with (Panel.elapse self t2 p3) in q.
  assert (Hframes : Panel.frames q =
    (fr ++ unsubscribeFrames p ++ [UnsubscribeAll; Subscribe k] ++
     [Unsubscribe k; UnsubscribeAll; Subscribe k] ++
     [EditFrame k b self t2])%list).
  { unfold Panel.frames, Panel.framesAt, q. rewrite Hws4, Hws3, Hsock4. simpl.
    unfold subscribeFrames. by rewrite <- !app_assoc. }
  split; [exact Hframes|]. split; [|split; [|split]].
  - rewrite Hframes. rewrite !filter_app.
    assert (Hno : filter isEdit (unsubscribeFrames p) = []).
    { unfold unsubscribeFrames.
      destruct (Panel.subscribeCleanup p) as [[j [f|]]|]; try done.
      destruct (Panel.wsRef p); [|done]. by case_decide. }
    by rewrite Hno.
  - unfold Panel.timers, q. by rewrite Hp4.
  - unfold q. by rewrite Hstore4, Hstore3.
  - unfold q. rewrite Hstore4, Hstore3. eexists. split; [exact HfindB|]. done.
Qed.

End Open.

(** [main.py] is active and the socket is open; [x] is typed at time 0 and
    [xy] at 300 ms; at 1100 ms one edit has gone out, after the frames of
    two rounds of leaving and rejoining the file. *)
Lemma keystrokes_coalesce_witness :
  let p := Panel.steps (H := sampleLanguageUtils) "A" [Panel.SocketOpened]
             (Panel.firstRender (H := sampleLanguageUtils) twoTabs) in
  let typedA := Editor.onChange "x" twoTabs in
  let typedB := Editor.onChange "xy" typedA in
  let q := Panel.steps (H := sampleLanguageUtils) "A"
             [Panel.TabsChanged typedA; Panel.Elapsed 300;
              Panel.TabsChanged typedB; Panel.Elapsed 1100] p in
  Panel.frames p = [Subscribe "main.py"] /\
  Panel.frames q =
    [Subscribe "main.py"; UnsubscribeAll; Subscribe "main.py";
     Unsubscribe "main.py"; UnsubscribeAll; Subscribe "main.py";
     EditFrame "main.py" "xy" "A" 1100] /\
  filter isEdit (Panel.frames q) = [EditFrame "main.py" "xy" "A" 1100].
Proof.
  intros p typedA typedB q. split; [reflexivity|].
  destruct (keystrokes_coalesce (H := sampleLanguageUtils)
              "A" "x" "xy" "main.py" 300 1100 p
              (Tab.mk "tab-1" "main.py" "print(1)" true (Some 71%Z) (Some "main.py"))
              0 [] [Subscribe "main.py"])
    as (Hframes & Hedits & _).
  - reflexivity.
  - reflexivity.
  - apply (steps_owned (H := sampleLanguageUtils)), firstRender_owned.
  - discriminate.
  - reflexivity.
  - reflexivity.
  - discriminate.
  - reflexivity.
  - discriminate.
  - split; [exact Hframes|exact Hedits].
Defined.

(** ** One subscription at a time, while the language stays *)

Lemma bracketed_edits (b : bool) (l edits : list Frame) :
  Forall (fun f => isEdit f = true) edits ->
  subscribesBracketed b (l ++ edits) = subscribesBracketed b l.
Proof.
  intros Hed. revert b. induction l as [|f l IH]; intros b; simpl.
  - induction Hed as [|f edits Hf _ IH]; [done|].
    by destruct f.
  - destruct f; simpl; by rewrite ?IH.
Qed.

(** The timers that run write edits, and nothing else, to an open socket. *)
Lemma sendNow_fold_open (self : string) (at_ : Z) (i : nat)
    (ls : list (option string)) (due : list (Timer.t * nat))
    (socks : list Socket.t) (fr : list Frame) :
  socks !! i = Some (Socket.mk OPEN ls fr) ->
  exists edits,
    foldl (fun l x => alter (Panel.sendNow self at_ x.1) x.2 l) socks due !! i =
      Some (Socket.mk OPEN ls (fr ++ edits)) /\
    Forall (fun f => isEdit f = true) edits.
Proof.
  revert socks fr. induction due as [|x due IH]; intros socks fr Hsock; simpl.
  - exists []. by rewrite app_nil_r.
  - destruct (decide (x.2 = i)) as [E|Hne].
    + destruct (IH (alter (Panel.sendNow self at_ x.1) x.2 socks)
                   (fr ++ [EditFrame (Timer.filePath x.1) (Timer.content x.1)
                                     self at_])%list)
        as (edits & Hfold & Hed).
      { rewrite E, list_lookup_alter_eq, Hsock. simpl.
        unfold Panel.sendNow. by rewrite trySend_open. }
      eexists. rewrite Hfold, <- app_assoc. split; [done|].
      by apply Forall_cons.
    + apply IH. by rewrite list_lookup_alter_ne.
Qed.

Lemma opened_ready (fr : list Frame) :
  Panel.opened (Socket.mk OPEN [] fr) = Socket.mk OPEN [] fr.
Proof. done. Qed.

Section OneSubscription.
Context `{LanguageUtils}.

(** With the socket open, a change of the active tab that keeps the
    language writes an optional [unsubscribe], then [unsubscribe-all],
    then the [subscribe]: the log stays bracketed. *)
Lemma tabsChanged_open_bracketed
    (self : string) (s : State) (p : Panel.t) (i : nat)
    (ls : list (option string)) (fr : list Frame) :
  Panel.wsRef p = Some i ->
  Panel.sockets p !! i = Some (Socket.mk OPEN ls fr) ->
  Panel.socketDeps s = Panel.socketDeps (Panel.store p) ->
  subscribesBracketed false (Panel.frames p) = true ->
  subscribesBracketed false
    (Panel.frames (Panel.step self (Panel.TabsChanged s) p)) = true.
Proof.
  intros Hws Hsock Hdeps Hlog.
  destruct (tabsChanged_open self s p i ls fr Hws Hsock Hdeps)
    as (Hws' & Hsock' & _).
  unfold Panel.frames, Panel.framesAt in *. rewrite Hws, Hsock in Hlog.
  rewrite Hws', Hsock'. simpl in Hlog. simpl.
  apply subscribesBracketed_app; [done|]. intros b'.
  unfold unsubscribeFrames, subscribeFrames.
  destruct (Panel.subscribeCleanup p) as [[j [f|]]|]; rewrite ?Hws;
    try destruct (decide (j = i)); destruct (truthyPath (activePath s));
    by destruct b'.
Qed.

(** One event that keeps the language, with the socket open and no
    listener pending. *)
Lemma step_ready (self : string) (deps : string * string) (e : Panel.Event)
    (p : Panel.t) :
  socketReady p ->
  Panel.socketDeps (Panel.store p) = deps ->
  keepsLanguage deps e ->
  subscribesBracketed false (Panel.frames p) = true ->
  let p' := Panel.step self e p in
  socketReady p' /\
  Panel.socketDeps (Panel.store p') = deps /\
  subscribesBracketed false (Panel.frames p') = true /\
  Panel.wsRef p' = Panel.wsRef p /\
  length (Panel.sockets p') = length (Panel.sockets p).
Proof.
  intros (i & ws & Hws & Hsock & Hopen & Hnone) Hdeps Hkeep Hlog p'.
  destruct ws as [rs ls fr]. simpl in Hopen, Hnone. subst rs ls.
  unfold Panel.frames, Panel.framesAt in Hlog. rewrite Hws, Hsock in Hlog.
  simpl in Hlog.
  assert (Hready : forall q fr',
    Panel.wsRef q = Some i ->
    Panel.sockets q !! i = Some (Socket.mk OPEN [] fr') ->
    Panel.socketDeps (Panel.store q) = deps ->
    subscribesBracketed false fr' = true ->
    length (Panel.sockets q) = length (Panel.sockets p) ->
    socketReady q /\
    Panel.socketDeps (Panel.store q) = deps /\
    subscribesBracketed false (Panel.frames q) = true /\
    Panel.wsRef q = Panel.wsRef p /\
    length (Panel.sockets q) = length (Panel.sockets p)).
  { intros q fr' Hq Hqs Hqd Hql Hlen. split; [by exists i, (Socket.mk OPEN [] fr')|].
    split; [done|]. unfold Panel.frames, Panel.framesAt. rewrite Hq, Hqs.
    by rewrite Hws. }
  destruct e as [s|src| |at_|id|j]; simpl in Hkeep.
  - destruct (tabsChanged_open self s p i [] fr Hws Hsock)
      as (Hws' & Hsock' & _ & Hstore' & _ & Hlen' & _); [congruence|].
    apply (Hready _ _ Hws' Hsock'); [by rewrite Hstore'| |done].
    apply subscribesBracketed_app; [done|]. intros b'.
    unfold unsubscribeFrames, subscribeFrames.
    destruct (Panel.subscribeCleanup p) as [[j [f|]]|]; rewrite ?Hws;
      try case_decide; destruct (truthyPath (activePath s));
      by destruct b'.
  - change p' with
      (Panel.sendEffect
         (Panel.withStore (Store.setSource src (Panel.store p))
                          (Panel.runSendCleanup p))).
    destruct (sendEffect_frame
                (Panel.withStore (Store.setSource src (Panel.store p))
                                 (Panel.runSendCleanup p)))
      as (Hs & Hw & _ & Hst & _).
    destruct (runSendCleanup_frame p) as (Hs0 & Hw0 & _).
    apply (Hready _ fr).
    + rewrite Hw. simpl. by rewrite Hw0.
    + rewrite Hs. simpl. by rewrite Hs0.
    + rewrite Hst. simpl. by rewrite <- Hdeps.
    + done.
    + rewrite Hs. simpl. by rewrite Hs0.
  - assert (E : p' = Panel.socketOpenedAt i p).
    { unfold p'. simpl. unfold Panel.socketOpened. by rewrite Hws. }
    rewrite E. unfold Panel.socketOpenedAt, Panel.onSocket.
    apply (Hready _ fr); simpl; try done.
    + by rewrite list_lookup_alter_eq, Hsock.
    + apply length_alter.
  - change p' with (Panel.elapse self at_ p).
    destruct (sendNow_fold_open self at_ i []
                (filter (fun x => (Timer.due x.1 <= at_)%Z) (Panel.pending p))
                (Panel.sockets p) fr Hsock) as (edits & Hfold & Hed).
    apply (Hready _ (fr ++ edits)%list); try done.
    + by rewrite bracketed_edits.
    + unfold Panel.elapse. simpl.
      generalize (filter (fun x => (Timer.due x.1 <= at_)%Z) (Panel.pending p)).
      intros due. generalize (Panel.sockets p).
      induction due as [|x due IH]; intros socks; [done|].
      simpl. by rewrite IH, length_alter.
  - assert (E : p' = Panel.withStore (Store.setLanguageId id (Panel.store p)) p).
    { unfold p'. simpl. rewrite decide_True; [done|]. rewrite Hdeps. exact Hkeep. }
    rewrite E. apply (Hready _ fr); try done.
  - change p' with (Panel.socketOpenedAt j p).
    unfold Panel.socketOpenedAt, Panel.onSocket.
    apply (Hready _ fr); simpl; try done.
    + destruct (decide (j = i)) as [->|Hne].
      * by rewrite list_lookup_alter_eq, Hsock.
      * by rewrite list_lookup_alter_ne.
    + apply length_alter.
Qed.

(** X17. While the language stays the same (no render and no choice in
    the language menu changes the default file name or the Monaco
    language), an open socket with no listener of [open] pending stays
    the socket of the component and stays in that state, and no sequence
    of tab changes, edits, timers and [open] events of sockets makes the
    client write two [subscribe] frames to it without an [unsubscribe] or
    [unsubscribe-all] between them. *)
Theorem open_socket_one_subscription
    (self : string) (deps : string * string) (evs : list Panel.Event)
    (p : Panel.t) :
  socketReady p ->
  Panel.socketDeps (Panel.store p) = deps ->
  Forall (keepsLanguage deps) evs ->
  subscribesBracketed false (Panel.frames p) = true ->
  let p' := Panel.steps self evs p in
  socketReady p' /\
  subscribesBracketed false (Panel.frames p') = true /\
  Panel.wsRef p' = Panel.wsRef p /\
  length (Panel.sockets p') = length (Panel.sockets p).
Proof.
  intros Hready Hdeps Hkeep. revert p Hready Hdeps.
  induction Hkeep as [|e evs He _ IH]; intros p Hready Hdeps Hlog; [done|].
  destruct (step_ready self deps e p Hready Hdeps He Hlog)
    as (Hready' & Hdeps' & Hlog' & Hws' & Hlen').
  destruct (IH _ Hready' Hdeps' Hlog') as (? & ? & Hws'' & Hlen'').
  simpl. rewrite <- Hws', <- Hlen'. by repeat split.
Qed.

End OneSubscription.

(** The socket opens with [main.py] active; then the second tab is
    selected, text is typed, the timer runs, and the first tab is
    selected again. *)
Lemma open_socket_one_subscription_witness :
  let p := Panel.steps (H := sampleLanguageUtils) "A" [Panel.SocketOpened]
             (Panel.firstRender (H := sampleLanguageUtils) twoTabs) in
  let evs := [Panel.TabsChanged twoTabsSecond;
              Panel.TabsChanged (Editor.onChange "x" twoTabsSecond);
              Panel.Elapsed 5000; Panel.TabsChanged twoTabs] in
  let p' := Panel.steps (H := sampleLanguageUtils) "A" evs p in
  socketReady p /\
  Panel.frames p' =
    [Subscribe "main.py"; UnsubscribeAll; Subscribe "main.py Copy";
     Unsubscribe "main.py Copy"; UnsubscribeAll; Subscribe "main.py Copy";
     EditFrame "main.py Copy" "x" "A" 5000;
     Unsubscribe "main.py Copy"; UnsubscribeAll; Subscribe "main.py"] /\
  subscribesBracketed false (Panel.frames p') = true.
Proof.
  intros p evs p'.
  assert (Hready : socketReady p).
  { exists 0, (Socket.mk OPEN [] [Subscribe "main.py"]). by repeat split. }
  split; [exact Hready|]. split; [reflexivity|].
  apply (open_socket_one_subscription (H := sampleLanguageUtils) "A"
           ("main.js", "javascript") evs p Hready).
  - reflexivity.
  - repeat constructor.
  - reflexivity.
Defined.

(** ** Subscriptions deferred until the socket opens *)

(** When a socket opens, every listener registered while it was
    connecting writes its own [subscribe]; nothing is written in between. *)
Lemma opened_frames (ws : Socket.t) :
  Panel.opened ws =
    Socket.mk OPEN []
      (Socket.sent ws ++ omap (fmap Subscribe) (Socket.openListeners ws)).
Proof.
  unfold Panel.opened. generalize (Socket.sent ws) as fr.
  induction (Socket.openListeners ws) as [|c l IH]; intros fr; simpl.
  - by rewrite app_nil_r.
  - destruct c as [f|]; simpl; [|apply IH].
    rewrite trySend_open, IH. by rewrite <- app_assoc.
Qed.

Lemma socketOpened_frames (p : Panel.t) (i : nat) (ws : Socket.t) :
  Panel.wsRef p = Some i -> Panel.sockets p !! i = Some ws ->
  Panel.frames (Panel.socketOpened p) =
    (Socket.sent ws ++ omap (fmap Subscribe) (Socket.openListeners ws))%list.
Proof.
  intros Hws Hsock.
  unfold Panel.socketOpened, Panel.frames, Panel.framesAt. rewrite Hws.
  unfold Panel.socketOpenedAt, Panel.onSocket. simpl.
  rewrite Hws, list_lookup_alter_eq, Hsock. simpl. by rewrite opened_frames.
Qed.

Section Deferred.
Context `{LanguageUtils}.

Lemma languageId_syncFirstTab (s : State) :
  languageId (Panel.syncFirstTab s) = languageId s.
Proof.
  unfold Panel.syncFirstTab. destruct (tabs s) as [|first rest]; [done|].
  destruct (_ && _); [|done]. by destruct (_ || _).
Qed.

(** A change of the tabs that keeps the language, while the socket is
    connecting: one more listener, and no clean-up. *)
Lemma connecting_step
    (self : string) (s : State) (p : Panel.t) (i : nat)
    (ls : list (option string)) :
  Panel.wsRef p = Some i ->
  Panel.sockets p !! i = Some (Socket.mk CONNECTING ls []) ->
  Panel.subscribeCleanup p = None ->
  Panel.socketDeps s = Panel.socketDeps (Panel.store p) ->
  let p' := Panel.step self (Panel.TabsChanged s) p in
  Panel.wsRef p' = Some i /\
  Panel.sockets p' !! i =
    Some (Socket.mk CONNECTING (ls ++ [truthyPath (activePath s)])%list []) /\
  Panel.subscribeCleanup p' = None /\
  Panel.store p' = s.
Proof.
  intros Hws Hsock Hclean Hdeps p'. unfold p'.
  rewrite step_tabsChanged_same by done.
  assert (E : Panel.runSubscribeCleanup p = p).
  { unfold Panel.runSubscribeCleanup. by rewrite Hclean. }
  rewrite E.
  destruct (runSendCleanup_frame p) as (Hs2 & Hws2 & Hclean2 & _).
  set (q3 := Panel.withStore s (Panel.runSendCleanup p)).
  destruct (sendEffect_frame (Panel.subscribeEffect q3))
    as (Hs5 & Hws5 & Hclean5 & Hstore5 & _).
  rewrite Hs5, Hws5, Hclean5, Hstore5.
  assert (Hws3 : Panel.wsRef q3 = Some i) by (unfold q3; simpl; congruence).
  assert (Hsock3 : Panel.sockets q3 !! i = Some (Socket.mk CONNECTING ls []))
    by (unfold q3; simpl; congruence).
  destruct (subscribeEffect_timers q3) as (_ & _ & _ & _ & Hst4 & Hws4).
  rewrite Hws4, Hst4.
  unfold Panel.subscribeEffect. rewrite Hws3, Hsock3. simpl.
  rewrite list_lookup_alter_eq. rewrite Hs2, Hsock. done.
Qed.

(** X27. While the socket is still connecting and the language stays the
    same, every run of the subscribe effect adds a listener and none is
    ever removed: when the socket opens, the client writes one
    [subscribe] for each render made until then whose active tab had a
    non-empty key, in the order of the renders, and no [unsubscribe] at
    all.  (The store of the first render is the one the socket effect
    left.) *)
Theorem deferred_subscribes_all_fire
    (self : string) (s0 : State) (renders : list State) :
  Forall (fun s => Panel.socketDeps s = Panel.socketDeps s0) renders ->
  let events := ((Panel.TabsChanged <$> renders) ++ [Panel.SocketOpened])%list in
  Panel.frames (Panel.steps self events (Panel.firstRender s0)) =
    omap (fun s => Subscribe <$> truthyPath (activePath s))
         (Panel.syncFirstTab s0 :: renders).
Proof.
  intros Hsame events.
  assert (Hfirst :
    Panel.wsRef (Panel.firstRender s0) = Some 0 /\
    Panel.sockets (Panel.firstRender s0) !! 0 =
      Some (Socket.mk CONNECTING
              [truthyPath (activePath (Panel.syncFirstTab s0))] []) /\
    Panel.subscribeCleanup (Panel.firstRender s0) = None /\
    Panel.store (Panel.firstRender s0) = Panel.syncFirstTab s0).
  { destruct (effects_on_new_socket (Panel.unmounted s0))
      as (Hws & Hsock & _ & _ & _ & Hclean & _ & Hstore).
    unfold Panel.firstRender. by rewrite Hws, Hsock, Hclean, Hstore. }
  destruct Hfirst as (Hws & Hsock & Hclean & Hstore).
  assert (Hgen : forall l p ls s,
    Forall (fun s' => Panel.socketDeps s' = Panel.socketDeps s0) l ->
    Panel.wsRef p = Some 0 ->
    Panel.sockets p !! 0 = Some (Socket.mk CONNECTING ls []) ->
    Panel.subscribeCleanup p = None ->
    Panel.store p = s -> Panel.socketDeps s = Panel.socketDeps s0 ->
    Panel.frames (Panel.steps self ((Panel.TabsChanged <$> l) ++ [Panel.SocketOpened]) p) =
      omap (fmap Subscribe) (ls ++ ((fun s => truthyPath (activePath s)) <$> l))%list).
  { induction l as [|s l IH]; intros p ls s' Hl Hw Hs Hc Hst Hd.
    - simpl. rewrite (socketOpened_frames p 0 _ Hw Hs). simpl.
      by rewrite app_nil_r.
    - destruct (connecting_step self s p 0 ls Hw Hs Hc) as (Hw' & Hs' & Hc' & Hst').
      { rewrite Hst, Hd. by apply Forall_cons_1 in Hl as [-> _]. }
      rewrite fmap_cons.
      change (Panel.steps self
                ((Panel.TabsChanged s :: (Panel.TabsChanged <$> l)) ++
                 [Panel.SocketOpened])%list p)
        with (Panel.steps self
                ((Panel.TabsChanged <$> l) ++ [Panel.SocketOpened])%list
                (Panel.step self (Panel.TabsChanged s) p)).
      apply Forall_cons_1 in Hl as [Hd' Hl].
      rewrite (IH _ _ s Hl Hw' Hs' Hc' Hst' Hd').
      by rewrite <- app_assoc. }
  unfold events.
  rewrite (Hgen renders _ _ (Panel.syncFirstTab s0) Hsame Hws Hsock Hclean Hstore).
  - assert (Hmap : forall l : list State,
      omap (fmap Subscribe) ((fun s => truthyPath (activePath s)) <$> l) =
      omap (fun s => Subscribe <$> truthyPath (activePath s)) l).
    { induction l as [|s1 l IH]; [done|]. rewrite fmap_cons.
      cbn [omap list_omap]. by rewrite IH. }
    change ([truthyPath (activePath (Panel.syncFirstTab s0))] ++
            ((fun s => truthyPath (activePath s)) <$> renders))%list
      with ((fun s => truthyPath (activePath s)) <$>
            (Panel.syncFirstTab s0 :: renders)).
    apply Hmap.
  - apply socketDeps_languageId, languageId_syncFirstTab.
Qed.

End Deferred.

(** Three renders before the socket opens: [main.py], its copy, and
    [main.py] again. *)
Lemma deferred_subscribes_all_fire_witness :
  Panel.frames
    (Panel.steps (H := sampleLanguageUtils) "A"
       [Panel.TabsChanged twoTabsSecond; Panel.TabsChanged twoTabs;
        Panel.SocketOpened]
       (Panel.firstRender (H := sampleLanguageUtils) twoTabs)) =
    [Subscribe "main.py"; Subscribe "main.py Copy"; Subscribe "main.py"].
Proof.
  apply (deferred_subscribes_all_fire (H := sampleLanguageUtils) "A" twoTabs
           [twoTabsSecond; twoTabs]).
  repeat constructor.
Defined.

(** ** A change of language *)

Lemma runSubscribeCleanup_socket (p : Panel.t) (i : nat) (ws : Socket.t) :
  Panel.sockets p !! i = Some ws ->
  exists ws',
    Panel.sockets (Panel.runSubscribeCleanup p) !! i = Some ws' /\
    Socket.readyState ws' = Socket.readyState ws /\
    Socket.openListeners ws' = Socket.openListeners ws /\
    (Socket.sent ws' = Socket.sent ws \/
     exists f, Socket.sent ws' = (Socket.sent ws ++ [Unsubscribe f])%list).
Proof.
  intros Hsock. unfold Panel.runSubscribeCleanup.
  destruct (Panel.subscribeCleanup p) as [[j [f|]]|];
    try (exists ws; by auto).
  destruct (Panel.sockets p !! j) as [wj|] eqn:Hj; [|exists ws; by auto].
  case_decide; [|exists ws; by auto].
  unfold Panel.onSocket. simpl.
  destruct (decide (j = i)) as [->|Hne].
  - rewrite list_lookup_alter_eq, Hsock. simpl. eexists. split; [done|].
    destruct (trySend_frame (Unsubscribe f) ws) as (Hr & Hl & [Hs|Hs]);
      rewrite Hr, Hl, Hs; eauto.
  - rewrite list_lookup_alter_ne by done. exists ws. by auto.
Qed.

Lemma runSubscribeCleanup_length (p : Panel.t) :
  length (Panel.sockets (Panel.runSubscribeCleanup p)) = length (Panel.sockets p).
Proof.
  unfold Panel.runSubscribeCleanup.
  destruct (Panel.subscribeCleanup p) as [[j [f|]]|]; try done.
  destruct (Panel.sockets p !! j); [|done]. case_decide; [|done].
  apply length_alter.
Qed.

Section Language.
Context `{LanguageUtils}.

(** X28. A change of the tabs that changes the language (the default file
    name or the Monaco language) makes the component open one more socket
    and move [wsRef] to it.  The new socket is connecting and holds one
    listener, for the key of the tab that is active after the socket
    effect; no publish is pending.  The socket used until then is not
    closed: it keeps its state and its listeners, and the only frame it
    may have got is the [unsubscribe] of the clean-up. *)
Theorem tab_switch_across_languages_opens_socket
    (self : string) (s : State) (p : Panel.t) (i : nat) (ws : Socket.t) :
  Panel.sockets p !! i = Some ws ->
  timersOwned p ->
  Panel.socketDeps s <> Panel.socketDeps (Panel.store p) ->
  let p' := Panel.step self (Panel.TabsChanged s) p in
  let n := length (Panel.sockets p) in
  Panel.wsRef p' = Some n /\
  length (Panel.sockets p') = S n /\
  Panel.sockets p' !! n =
    Some (Socket.mk CONNECTING
            [truthyPath (activePath (Panel.syncFirstTab s))] []) /\
  (exists ws',
     Panel.sockets p' !! i = Some ws' /\
     Socket.readyState ws' = Socket.readyState ws /\
     Socket.openListeners ws' = Socket.openListeners ws /\
     (Socket.sent ws' = Socket.sent ws \/
      exists f, Socket.sent ws' = (Socket.sent ws ++ [Unsubscribe f])%list)) /\
  Panel.timers p' = [] /\
  Panel.subscribeCleanup p' = None /\
  Panel.store p' = Panel.syncFirstTab s.
Proof.
  intros Hsock Hown Hdeps p' n.
  set (cleaned := Panel.withStore s
                    (Panel.runSendCleanup (Panel.runSubscribeCleanup p))).
  assert (E : p' = Panel.sendEffect
                     (Panel.subscribeEffect (Panel.socketEffect cleaned))).
  { unfold p'. simpl. by rewrite decide_False. }
  destruct (effects_on_new_socket cleaned)
    as (Hws' & Hs' & Hp' & _ & _ & Hc' & _ & Hst').
  rewrite <- E in Hws', Hs', Hp', Hc', Hst'.
  assert (Hsocks : Panel.sockets cleaned =
                   Panel.sockets (Panel.runSubscribeCleanup p)).
  { unfold cleaned. simpl.
    by destruct (runSendCleanup_frame (Panel.runSubscribeCleanup p)) as (-> & _). }
  assert (Hlen : length (Panel.sockets cleaned) = n).
  { rewrite Hsocks. apply runSubscribeCleanup_length. }
  assert (Hnone : Panel.pending cleaned = []).
  { apply runSendCleanup_no_timers.
    destruct (runSubscribeCleanup_timers p) as (? & ? & ? & _).
    by apply (timersOwned_ext p). }
  rewrite Hlen in Hws'. rewrite Hs', Hws'.
  split; [done|]. split; [rewrite length_app, Hlen; simpl; lia|].
  split; [rewrite <- Hlen; by apply list_lookup_middle|].
  split; [|split; [|split; [done|exact Hst']]].
  - destruct (runSubscribeCleanup_socket p i ws Hsock) as (ws' & Hi & Hrest).
    exists ws'. split; [|exact Hrest].
    apply lookup_app_l_Some. by rewrite Hsocks.
  - unfold Panel.timers. by rewrite Hp', Hnone.
Qed.

(** X29. Choosing another language in the language menu runs the socket
    effect alone: [wsRef] moves to a new socket that has no listener, and
    the timers and the clean-up of the subscribe effect, which closed
    over the socket used until then, stay as they are.  When the second
    half of the effect has nothing to change in the first tab, no render
    follows, and when the new socket opens nothing is written to it: the
    component has subscribed to no file on the socket it now holds. *)
Theorem language_menu_leaves_new_socket_unsubscribed
    (self : string) (id : Z) (p : Panel.t) :
  let state := Store.setLanguageId id (Panel.store p) in
  Panel.socketDeps state <> Panel.socketDeps (Panel.store p) ->
  let p' := Panel.step self (Panel.LanguageChanged id) p in
  Panel.wsRef p' = Some (length (Panel.sockets p)) /\
  Panel.sockets p' = (Panel.sockets p ++ [Socket.mk CONNECTING [] []])%list /\
  Panel.pending p' = Panel.pending p /\
  Panel.subscribeCleanup p' = Panel.subscribeCleanup p /\
  Panel.store p' = Panel.syncFirstTab state /\
  (Panel.syncFirstTab state = state ->
   Panel.store p' = state /\
   Panel.frames (Panel.step self Panel.SocketOpened p') = []).
Proof.
  intros state Hdeps p'.
  assert (E : p' = Panel.socketEffect (Panel.withStore state p)).
  { unfold p'. simpl. by rewrite decide_False. }
  rewrite E. do 5 (split; [done|]). intros Hsync. split; [exact Hsync|].
  rewrite (socketOpened_frames _ (length (Panel.sockets p))
             (Socket.mk CONNECTING [] [])); [done|done|].
  simpl. by apply list_lookup_middle.
Qed.

End Language.

(** The socket is open with [main.py], a Python file, active; the
    JavaScript tab is selected. *)
Lemma tab_switch_across_languages_opens_socket_witness :
  let p := Panel.steps (H := pythonOrJavascript) "A" [Panel.SocketOpened]
             (Panel.firstRender (H := pythonOrJavascript) mixedTabs) in
  let s := default mixedTabs (Store.selectTab "tab-2" mixedTabs) in
  let p' := Panel.step (H := pythonOrJavascript) "A" (Panel.TabsChanged s) p in
  languageId s = 63%Z /\
  Panel.wsRef p' = Some 1 /\
  Panel.sockets p' =
    [Socket.mk OPEN [] [Subscribe "main.py"];
     Socket.mk CONNECTING [Some "app.js"] []] /\
  Panel.timers p' = [].
Proof.
  intros p s p'. split; [reflexivity|].
  destruct (tab_switch_across_languages_opens_socket (H := pythonOrJavascript)
              "A" s p 0 (Socket.mk OPEN [] [Subscribe "main.py"]))
    as (Hws & _ & _ & _ & Htimers & _).
  - reflexivity.
  - apply (steps_owned (H := pythonOrJavascript)), firstRender_owned.
  - discriminate.
  - split; [exact Hws|]. split; [reflexivity|exact Htimers].
Defined.

(** The socket is open with [main.py] active; JavaScript is chosen in the
    language menu. *)
Lemma language_menu_leaves_new_socket_unsubscribed_witness :
  let p := Panel.steps (H := pythonOrJavascript) "A" [Panel.SocketOpened]
             (Panel.firstRender (H := pythonOrJavascript) mixedTabs) in
  let p' := Panel.steps (H := pythonOrJavascript) "A"
              [Panel.LanguageChanged 63; Panel.SocketOpened] p in
  Panel.sockets p' =
    [Socket.mk OPEN [] [Subscribe "main.py"]; Socket.mk OPEN [] []] /\
  Panel.wsRef p' = Some 1 /\
  Panel.frames p' = [].
Proof.
  intros p p'.
  destruct (language_menu_leaves_new_socket_unsubscribed
              (H := pythonOrJavascript) "A" 63 p) as (_ & _ & _ & _ & _ & Hquiet).
  - discriminate.
  - destruct Hquiet as (_ & Hframes); [reflexivity|].
    split; [reflexivity|]. split; [reflexivity|exact Hframes].
Defined.

(** ** The first tab and the language *)

Section FirstTab.
Context `{LanguageUtils}.

(** The second half of the socket effect when the first tab has
    content and neither a custom name nor the default name. *)
Lemma syncFirstTab_opens (s : State) (first : Tab.t) (rest : list Tab.t) :
  tabs s = first :: rest ->
  Tab.isCustomName first = false ->
  Tab.name first <> Store.defaultName s ->
  Js.trim (Tab.content first) <> "" ->
  Panel.syncFirstTab s =
    Store.opened s
      (Tab.mk (tabIdOf (nextTabCounter s + 1)) (Store.defaultName s)
              (snippetFor (getMonacoLanguage (languageId s))) false
              (Some (languageId s)) None)
      (nextTabCounter s + 1)
      (snippetFor (getMonacoLanguage (languageId s))) (languageId s).
Proof.
  intros Htabs Hc Hn Hfull.
  assert (Hne : Tab.content first <> "").
  { intros E. apply Hfull. by rewrite E. }
  unfold Panel.syncFirstTab. rewrite Htabs, Hc.
  rewrite !bool_decide_eq_false_2 by done. simpl.
  unfold Js.or_str. by case_decide.
Qed.

(** X30. The second half of the socket effect, on a store whose first tab
    is [first].  It never changes the language.  A first tab that is
    custom named, or already has the default name of the language, leaves
    the store as it is.  Otherwise a first tab whose content is blank
    takes the default name and nothing else changes; and for a first tab
    with content a new tab is opened at the end, named by the default
    name even if a tab of that name is open already, filled with the
    snippet of the language and made active, while the first tab stays
    as it is, so that the effect opens one more tab when it runs again
    for this language.  A well-formed store stays well formed. *)
Theorem first_tab_follows_language
    (s : State) (first : Tab.t) (rest : list Tab.t) :
  tabs s = first :: rest ->
  let s' := Panel.syncFirstTab s in
  let fileName := Store.defaultName s in
  let opened (k : nat) :=
    Tab.mk (tabIdOf (nextTabCounter s + k)) fileName
           (snippetFor (getMonacoLanguage (languageId s))) false
           (Some (languageId s)) None in
  languageId s' = languageId s /\
  (Tab.isCustomName first = true \/ Tab.name first = fileName -> s' = s) /\
  (Tab.isCustomName first = false -> Tab.name first <> fileName ->
   Js.trim (Tab.content first) = "" ->
   tabs s' =
     Tab.mk (Tab.id first) fileName (Tab.content first) false
            (Tab.languageId first) (Tab.path first) :: rest /\
   activeTabId s' = activeTabId s /\ source s' = source s /\
   nextTabCounter s' = nextTabCounter s) /\
  (Tab.isCustomName first = false -> Tab.name first <> fileName ->
   Js.trim (Tab.content first) <> "" ->
   tabs s' = (first :: rest ++ [opened 1])%list /\
   activeTabId s' = Tab.id (opened 1) /\
   source s' = Tab.content (opened 1) /\
   nextTabCounter s' = nextTabCounter s + 1 /\
   tabs (Panel.syncFirstTab s') =
     (first :: rest ++ [opened 1; opened 2])%list) /\
  (wf s -> wf s').
Proof.
  intros Htabs s' fileName opened.
  split; [apply languageId_syncFirstTab|].
  split; [|split; [|split]].
  - unfold s', Panel.syncFirstTab. rewrite Htabs. fold fileName.
    intros [Hc|Hn].
    + by rewrite Hc.
    + rewrite Hn, bool_decide_eq_true_2 by done. by rewrite andb_false_r.
  - unfold s', Panel.syncFirstTab. rewrite Htabs. fold fileName.
    intros Hc Hn Hblank. rewrite Hc, bool_decide_eq_false_2 by done. simpl.
    rewrite (bool_decide_eq_true_2 (Js.trim (Tab.content first) = "")) by done.
    rewrite orb_true_r. simpl. unfold Panel.withName. by rewrite Hc.
  - intros Hc Hn Hfull.
    assert (E : s' = Store.opened s (opened 1) (nextTabCounter s + 1)
                       (snippetFor (getMonacoLanguage (languageId s)))
                       (languageId s))
      by (by apply (syncFirstTab_opens s first rest)).
    rewrite E. simpl. rewrite Htabs.
    split; [done|]. split; [done|]. split; [done|]. split; [done|].
    rewrite (syncFirstTab_opens _ first (rest ++ [opened 1])); simpl;
      try done; [|by rewrite Htabs].
    rewrite Htabs. simpl. rewrite <- app_assoc. simpl.
    unfold opened, fileName, Store.defaultName. simpl.
    by replace (nextTabCounter s + 1 + 1) with (nextTabCounter s + 2) by lia.
  - intros Hwf. unfold s', Panel.syncFirstTab. rewrite Htabs. fold fileName.
    destruct (negb (Tab.isCustomName first) &&
              negb (bool_decide (Tab.name first = fileName))); [|done].
    destruct (_ || _).
    + apply wf_withTabs; [done|]. by rewrite Htabs.
    + simpl. by apply wf_opened.
Qed.

End FirstTab.

(** The first tab is [main.js] with some text and Python is the language
    of the store: a tab [main.py] with the Python snippet is opened. *)
Lemma first_tab_follows_language_witness :
  let first := Tab.mk "tab-1" "main.js" "let x;" false (Some 63%Z) None in
  let s := mkState [first] "tab-1" 1 "let x;" 71 0 ∅ false None in
  let s' := Panel.syncFirstTab (H := pythonOrJavascript) s in
  tabs s' =
    [first;
     Tab.mk "tab-2" "main.py"
       ("# Hello World - Python" +:+ String "010" "print('Hello, world!')")
       false (Some 71%Z) None] /\
  activeTabId s' = "tab-2".
Proof.
  intros first s s'.
  destruct (first_tab_follows_language (H := pythonOrJavascript) s first [])
    as (_ & _ & _ & Hopen & _); [reflexivity|].
  destruct Hopen as (Htabs & Hactive & _); [reflexivity|discriminate|discriminate|].
  split; [exact Htabs|exact Hactive].
Defined.
(** ** Recently opened files and favourites *)

(** X18. After [addRecentlyOpened] has stored its list, the list has at
    most ten entries and starts with the file just opened, stamped with
    the current time; every other entry was there before, under another
    path and in the same order, so a list with one entry per path keeps
    that property.  When local storage rejects the write, the list is as
    it was. *)
Theorem recently_opened_is_bounded_mru
    (now path name : string) (l : list Recent.Entry) :
  let l' := Recent.addRecentlyOpened true now path name l in
  length l' <= 10 /\
  head l' = Some (Recent.mkEntry path name now) /\
  tail l' `sublist_of` filter (fun r => Recent.path r <> path) l /\
  (forall r, r ∈ tail l' -> r ∈ l /\ Recent.path r <> path) /\
  (NoDup (Recent.path <$> l) -> NoDup (Recent.path <$> l')) /\
  (length l < 10 -> path ∉ (Recent.path <$> l) ->
   l' = Recent.mkEntry path name now :: l) /\
  Recent.addRecentlyOpened false now path name l = l.
Proof.
  intros l'. unfold l', Recent.addRecentlyOpened. simpl.
  set (kept := filter (fun r => Recent.path r <> path) l).
  assert (Hkept : forall r, r ∈ take 9 kept -> r ∈ l /\ Recent.path r <> path).
  { intros r Hr. apply (elem_of_sublist _ kept) in Hr; [|apply sublist_take].
    by apply list_elem_of_filter in Hr as [? ?]. }
  split; [rewrite length_take; lia|]. split; [done|].
  split; [apply sublist_take|]. split; [exact Hkept|]. split; [|split; [|done]].
  - intros Hnd. simpl. apply NoDup_cons. split.
    + intros [r [Hp Hr]]%list_elem_of_fmap. apply Hkept in Hr as [_ Hr]. done.
    + apply (sublist_NoDup _ (Recent.path <$> l)); [exact Hnd|].
      apply fmap_sublist. transitivity kept; [apply sublist_take|].
      apply sublist_filter.
  - intros Hlen Hfresh. f_equal.
    assert (Hall : kept = l).
    { unfold kept. clear Hlen Hkept. induction l as [|r l IH]; [done|].
      rewrite fmap_cons, not_elem_of_cons in Hfresh. destruct Hfresh as [Hr Hl].
      rewrite filter_cons_True by done. by rewrite IH. }
    rewrite Hall. apply take_ge. lia.
Qed.

(** X19. [toggleFavorite] changes the status of the given path and of no
    other: the path is a favourite afterwards exactly when it was not
    before.  It never creates a second entry for a path, and toggling a
    path that was not a favourite twice restores the list. *)
Theorem toggleFavorite_flips (filePath : string) (favorites : list string) :
  let toggled := Favorites.toggleFavorite filePath favorites in
  (Favorites.isFavorite filePath toggled =
     negb (Favorites.isFavorite filePath favorites)) /\
  (forall other, other <> filePath ->
     Favorites.isFavorite other toggled = Favorites.isFavorite other favorites) /\
  (NoDup favorites -> NoDup toggled) /\
  (filePath ∉ favorites ->
   Favorites.toggleFavorite filePath toggled = favorites).
Proof.
  intros toggled. unfold toggled, Favorites.toggleFavorite, Favorites.isFavorite.
  destruct (decide (filePath ∈ favorites)) as [Hin|Hout].
  - rewrite (bool_decide_eq_true_2 _ Hin). simpl. repeat split.
    + apply bool_decide_eq_false_2. intros [? _]%list_elem_of_filter. done.
    + intros other Hother. apply bool_decide_ext.
      rewrite list_elem_of_filter. split; [by intros [_ ?]|by intros ?].
    + intros Hnd. by apply NoDup_filter.
    + done.
  - rewrite (bool_decide_eq_false_2 _ Hout). simpl. repeat split.
    + apply bool_decide_eq_true_2. apply elem_of_app. right. by left.
    + intros other Hother. apply bool_decide_ext.
      rewrite elem_of_app, list_elem_of_singleton.
      split; [by intros [?|?]|by left].
    + intros Hnd. apply NoDup_app. repeat split; [done| |apply NoDup_singleton].
      intros x Hx Hx'. apply list_elem_of_singleton in Hx'. by subst.
    + intros _. rewrite decide_True by (apply elem_of_app; right; by left).
      rewrite filter_app, filter_cons_False, filter_nil by (by intros ?).
      rewrite app_nil_r. clear toggled.
      induction favorites as [|f l IH]; [done|].
      apply not_elem_of_cons in Hout as [Hf Hl].
      rewrite filter_cons_True by done. by rewrite IH.
Qed.

(** ** The run counters *)

(** X20. What a completed run does to the counters: [runCount] goes up by
    two (once in [recordRun], once in [incrementRunCount]) and the daily
    count by one from the value the store held when [recordRun] started,
    also when that value belongs to an earlier day, since the reset made
    by [_ensureDaily] is overwritten; the date of the daily count becomes
    today.  [leaderboardTick] goes up by three, and by four when somebody
    is signed in and the score was accepted.  The score submitted when
    somebody is signed in is the new [runCount]. *)
Theorem completed_run_counts
    (today today' : string) (submission : RunLimit.Submission)
    (state : RunLimit.t) :
  let after := (RunLimit.afterRun today today' submission state).1 in
  let score := (RunLimit.afterRun today today' submission state).2 in
  RunLimit.runCount after = (RunLimit.runCount state + 2)%Z /\
  RunLimit.leaderboardTick after =
    (RunLimit.leaderboardTick state +
     match submission with RunLimit.Submitted => 4 | _ => 3 end)%Z /\
  RunLimit.dailyRunCount after = (RunLimit.dailyRunCount state + 1)%Z /\
  RunLimit.dailyRunDate after = Some today /\
  RunLimit.runLimit after = RunLimit.runLimit state /\
  score = match submission with
          | RunLimit.NotSignedIn => None
          | _ => Some (RunLimit.runCount state + 2)%Z
          end.
Proof.
  intros after score.
  assert (Hlimit : RunLimit.runLimit (RunLimit.recordRun today today' state) =
                   RunLimit.runLimit state).
  { unfold RunLimit.recordRun. simpl. case_decide; [done|].
    unfold RunLimit.ensureDaily. by case_decide. }
  unfold after, score, RunLimit.afterRun.
  destruct submission; simpl; rewrite !or_zero_id, ?Hlimit;
    repeat split; try done; try lia; f_equal; lia.
Qed.

(** X21. With a limit set, [canRun] on a new day answers from the count of
    the day before, although the same call resets the count: when that
    count had reached the limit, the first call of the new day refuses and
    the second one, the count now being 0, allows the run if the limit is
    positive.  Run through [canRun] first, a run recorded on the new day
    counts as the first of that day. *)
Theorem canRun_answers_from_stale_count
    (today : string) (limit : Z) (state : RunLimit.t) :
  RunLimit.runLimit state = Some limit ->
  RunLimit.dailyRunDate state <> Some today ->
  let first := RunLimit.canRun today state in
  let second := RunLimit.canRun today (snd first) in
  fst first = bool_decide (RunLimit.dailyRunCount state < limit)%Z /\
  RunLimit.dailyRunCount (snd first) = 0%Z /\
  RunLimit.dailyRunDate (snd first) = Some today /\
  fst second = bool_decide (0 < limit)%Z /\
  snd second = snd first /\
  RunLimit.dailyRunCount (RunLimit.recordRun today today (snd first)) = 1%Z.
Proof.
  intros Hlimit Hdate first second.
  unfold second, first, RunLimit.canRun, RunLimit.ensureDaily.
  rewrite Hlimit. rewrite (decide_False (P := _ = Some today)) by done.
  simpl. rewrite ?Hlimit. rewrite ?decide_True by done. simpl.
  rewrite ?or_zero_id. by repeat split.
Qed.

Lemma canRun_answers_from_stale_count_witness :
  let state := RunLimit.mk (Some 3%Z) (Some "2026-01-01") 3 10 0 in
  let first := RunLimit.canRun "2026-01-02" state in
  fst first = false /\
  fst (RunLimit.canRun "2026-01-02" (snd first)) = true.
Proof.
  intros state first.
  destruct (canRun_answers_from_stale_count "2026-01-02" 3 state eq_refl)
    as (Hfirst & _ & _ & Hsecond & _); [discriminate|].
  split; [exact Hfirst|exact Hsecond].
Defined.

(** ** File names *)

Lemma dotless_app (a b : string) :
  dotless (a +:+ b) = dotless a && dotless b.
Proof.
  unfold dotless. induction a as [|c a IH]; [done|].
  change (String c a +:+ b) with (String c (a +:+ b)). simpl.
  rewrite IH. by rewrite andb_assoc.
Qed.

Lemma splitLastDot_None (s : string) :
  Names.splitLastDot s = None <-> dotless s = true.
Proof.
  unfold dotless. induction s as [|c s IH]; simpl; [done|].
  destruct (Names.splitLastDot s) as [[b e]|].
  - split; [done|]. intros [_ Hs]%andb_true_iff.
    apply IH in Hs. done.
  - destruct (Js.is_dot c); simpl; [done|]. split; [|done].
    intros _. by apply IH.
Qed.

Lemma splitLastDot_Some (s b e : string) :
  Names.splitLastDot s = Some (b, e) ->
  s = b +:+ "." +:+ e /\ dotless e = true.
Proof.
  revert b. induction s as [|c s IH]; intros b; simpl; [done|].
  destruct (Names.splitLastDot s) as [[b' e']|] eqn:E.
  - intros [= <- <-]. destruct (IH b' eq_refl) as [-> He]. by split.
  - destruct (Js.is_dot c) eqn:Hc; [|done]. intros [= <- <-].
    apply splitLastDot_None in E. split; [|done].
    unfold Js.is_dot in Hc. apply bool_decide_eq_true in Hc. by subst c.
Qed.

Lemma is_dot_ext_inner (c : ascii) (b e : string) :
  Js.is_dot_ext (String c (b +:+ "." +:+ e)) = false.
Proof.
  destruct b as [|d b]; simpl.
  - by rewrite andb_false_r.
  - fold (dotless (b +:+ "." +:+ e)). rewrite dotless_app.
    change (dotless ("." +:+ e)) with false. by rewrite !andb_false_r.
Qed.

Lemma insertBeforeExt_eq (sfx s : string) :
  insertBeforeExt sfx s =
    if Js.is_dot_ext s then sfx +:+ s
    else match s with
         | "" => sfx
         | String c s' => String c (insertBeforeExt sfx s')
         end.
Proof. by destruct s. Qed.

(** [replace(/(\.[^.]+)?$/, ...)] on a name with an extension: the suffix
    goes before the last dot. *)
Lemma insertBeforeExt_ext (sfx b e : string) :
  e <> "" -> dotless e = true ->
  insertBeforeExt sfx (b +:+ "." +:+ e) = b +:+ sfx +:+ "." +:+ e.
Proof.
  intros He Hdots. induction b as [|c b IH].
  - destruct e as [|d e]; [done|]. simpl in *.
    unfold dotless in Hdots. simpl in Hdots. by rewrite Hdots.
  - change (String c b +:+ "." +:+ e) with (String c (b +:+ "." +:+ e)).
    rewrite insertBeforeExt_eq, is_dot_ext_inner, IH. done.
Qed.

(** ... and on a name without one, be it that it has no dot or that it
    ends in a dot: the suffix goes to the end. *)
Lemma insertBeforeExt_no_ext (sfx s : string) :
  dotless s = true \/ (exists b, s = b +:+ ".") ->
  insertBeforeExt sfx s = s +:+ sfx.
Proof.
  intros Hs.
  assert (Hno : forall t, (dotless t = true \/ exists b, t = b +:+ ".") ->
                          Js.is_dot_ext t = false).
  { intros t [Ht|[b ->]].
    - destruct t as [|c [|d t]]; try done. unfold dotless in Ht. simpl in *.
      apply andb_true_iff in Ht as [Hc _]. by rewrite (negb_true_iff _) in Hc; rewrite Hc.
    - destruct b as [|c b]; [done|].
      change (String c b +:+ ".") with (String c (b +:+ "." +:+ "")).
      apply is_dot_ext_inner. }
  induction s as [|c s IH]; [done|].
  rewrite insertBeforeExt_eq, (Hno (String c s) Hs).
  rewrite IH; [done|].
  destruct Hs as [Hs|[b Hb]].
  - left. unfold dotless in *. simpl in Hs. by apply andb_true_iff in Hs as [_ ?].
  - destruct b as [|d b].
    + injection Hb as -> ->. by left.
    + right. exists b. by injection Hb.
Qed.

Section Naming.
Context `{LanguageUtils}.

(** X22. The tab opened by [addTab] is named after the default file name
    of the language with the new counter put in: [stem_N.ext] when the
    default name is [stem.ext] with a non-empty extension, and the whole
    name followed by [_N] when it has no dot or ends in one.  It is empty,
    has no path and no custom name, and is active. *)
Theorem addTab_numbers_the_default_name (s : State) :
  nextTabCounter s <> 0 ->
  let n := nextTabCounter s + 1 in
  let base := getDefaultFileNameForMonaco (getMonacoLanguage (languageId s)) in
  exists s' fresh,
    Store.addTab s = Some s' /\
    tabs s' = (tabs s ++ [fresh])%list /\
    activeTabId s' = Tab.id fresh /\
    Tab.id fresh = "tab-" +:+ pretty n /\
    Tab.content fresh = "" /\ Tab.path fresh = None /\
    Tab.isCustomName fresh = false /\
    source s' = "" /\
    (forall stem ext, base = stem +:+ "." +:+ ext -> ext <> "" ->
       dotless ext = true ->
       Tab.name fresh = stem +:+ "_" +:+ pretty n +:+ "." +:+ ext) /\
    (dotless base = true \/ (exists stem, base = stem +:+ ".") ->
     Tab.name fresh = base +:+ "_" +:+ pretty n).
Proof.
  intros Hcounter n base. eexists _, _. split; [done|]. simpl.
  rewrite decide_False by lia. fold n. unfold Store.defaultName. fold base.
  repeat split; try done.
  - intros stem ext -> Hext Hdots. by apply insertBeforeExt_ext.
  - intros Hbase. by apply insertBeforeExt_no_ext.
Qed.

End Naming.

Lemma addTab_numbers_the_default_name_witness :
  exists s' fresh,
    Store.addTab (H := sampleLanguageUtils) twoTabs = Some s' /\
    tabs s' = (tabs twoTabs ++ [fresh])%list /\
    Tab.name fresh = "main_3.js".
Proof.
  destruct (addTab_numbers_the_default_name (H := sampleLanguageUtils) twoTabs)
    as (s' & fresh & Hadd & Htabs & _ & _ & _ & _ & _ & _ & Hext & _);
    [discriminate|].
  exists s', fresh. split; [exact Hadd|]. split; [exact Htabs|].
  apply (Hext "main" "js"); [reflexivity|discriminate|reflexivity].
Defined.

Lemma splitLastDot_trailing (stem : string) :
  Names.splitLastDot (stem +:+ ".") = Some (stem, "").
Proof.
  induction stem as [|c stem IH]; [done|].
  change (String c stem +:+ ".") with (String c (stem +:+ ".")).
  simpl. by rewrite IH.
Qed.

(** X23. [generateFileName] of the panel and the naming of [addTab] in the
    store give the same name for every default name and every sequence
    number, except for a default name that ends in a dot: there the panel
    drops the dot and the store keeps it. *)
Theorem generateFileName_agrees_with_store (name : string) (sequence : nat) :
  sequence <> 1 ->
  let suffix := "_" +:+ pretty sequence in
  ((forall stem, name <> stem +:+ ".") ->
   Names.generateFileName name sequence = insertBeforeExt suffix name) /\
  (forall stem, name = stem +:+ "." ->
     Names.generateFileName name sequence = stem +:+ suffix /\
     insertBeforeExt suffix name = stem +:+ "." +:+ suffix).
Proof.
  intros Hseq suffix.
  assert (Hgen : Names.generateFileName name sequence =
    match Names.splitLastDot name with
    | None => name +:+ suffix
    | Some (b, e) => if decide (e = "") then b +:+ suffix
                     else b +:+ suffix +:+ "." +:+ e
    end).
  { unfold Names.generateFileName, Names.fileNaming.
    rewrite decide_False by done.
    by destruct (Names.splitLastDot name) as [[b e]|]. }
  split.
  - intros Hnodot. rewrite Hgen.
    destruct (Names.splitLastDot name) as [[b e]|] eqn:E.
    + apply splitLastDot_Some in E as [-> He].
      case_decide as Hempty.
      * subst e. by destruct (Hnodot b).
      * by rewrite insertBeforeExt_ext.
    + apply splitLastDot_None in E. rewrite insertBeforeExt_no_ext; [done|by left].
  - intros stem ->. split.
    + rewrite Hgen, splitLastDot_trailing. by rewrite decide_True.
    + rewrite insertBeforeExt_no_ext; [|right; by exists stem].
      by rewrite string_app_assoc.
Qed.

Lemma generateFileName_agrees_with_store_witness :
  Names.generateFileName "main.js" 2 = insertBeforeExt "_2" "main.js" /\
  Names.generateFileName "notes." 2 = "notes_2" /\
  insertBeforeExt "_2" "notes." = "notes._2".
Proof.
  destruct (generateFileName_agrees_with_store "main.js" 2) as [Hsame _];
    [discriminate|].
  destruct (generateFileName_agrees_with_store "notes." 2) as [_ Hdot];
    [discriminate|].
  destruct (Hdot "notes" eq_refl) as [Hgen Hins].
  split; [|split; [exact Hgen|exact Hins]].
  apply Hsame. intros stem E.
  pose proof (splitLastDot_trailing stem) as Hsplit.
  rewrite <- E in Hsplit. discriminate Hsplit.
Defined.

Lemma string_app_inj_r (a b e : string) : a +:+ e = b +:+ e -> a = b.
Proof.
  revert b. induction a as [|c a IH]; intros b E.
  - destruct b as [|d b]; [done|]. exfalso.
    apply (f_equal String.length) in E.
    rewrite !string_app_length in E. simpl in E. lia.
  - destruct b as [|d b].
    + exfalso. apply (f_equal String.length) in E.
      rewrite !string_app_length in E. simpl in E. lia.
    + change (String c (a +:+ e) = String d (b +:+ e)) in E.
      injection E as -> E. f_equal. by apply IH.
Qed.

Lemma duplicateAt_inj (b e : string) (j k : nat) :
  duplicateAt b e j = duplicateAt b e k -> j = k.
Proof.
  unfold duplicateAt. intros E.
  repeat case_decide; subst; try done;
    apply (inj (String.app b)) in E.
  - exfalso. apply (f_equal String.length) in E.
    rewrite !string_app_length in E. simpl in E. lia.
  - exfalso. apply (f_equal String.length) in E.
    rewrite !string_app_length in E. simpl in E. lia.
  - apply (inj (String.app " Copy ")) in E.
    apply string_app_inj_r in E. by apply pretty_nat_inj in E.
Qed.

(** Among the first [S (length names)] values of an injective numbering
    of names, one is not in [names]. *)
Lemma first_free (f : nat -> string) (names : list string) :
  (forall j k, f j = f k -> j = k) ->
  exists k, 1 <= k <= S (length names) /\
            (f k ∉ names) /\
            forall j, 1 <= j < k -> f j ∈ names.
Proof.
  intros Hinj.
  assert (Hex : exists k, 1 <= k <= S (length names) /\ f k ∉ names).
  { destruct (decide (Forall (fun k => f k ∈ names)
                             (seq 1 (S (length names))))) as [Hall|Hnot].
    - exfalso.
      assert (Hsub : f <$> seq 1 (S (length names)) ⊆+ names).
      { apply NoDup_submseteq.
        - apply NoDup_fmap_2_strong; [|apply NoDup_seq].
          intros ?? _ _. apply Hinj.
        - intros x [k [-> Hk]]%list_elem_of_fmap.
          by apply (proj1 (Forall_forall _ _) Hall). }
      apply submseteq_length in Hsub.
      rewrite length_fmap, length_seq in Hsub. lia.
    - apply not_Forall_Exists in Hnot; [|solve_decision].
      apply Exists_exists in Hnot as [k [Hk Hfree]].
      apply elem_of_seq in Hk. exists k. split; [lia|done]. }
  destruct Hex as [k Hk]. revert Hk.
  induction (lt_wf k) as [k _ IH]. intros [Hk Hfree].
  destruct (decide (Forall (fun j => f j ∈ names) (seq 1 (k - 1))))
    as [Hall|Hnot].
  - exists k. repeat split; [lia|lia|done|].
    intros j Hj. apply (proj1 (Forall_forall _ _) Hall), elem_of_seq. lia.
  - apply not_Forall_Exists in Hnot; [|solve_decision].
    apply Exists_exists in Hnot as [j [Hj Hjfree]].
    apply elem_of_seq in Hj.
    apply (IH j); [lia|]. split; [lia|done].
Qed.

Lemma duplicateLoop_found (taken : gset string) (b e : string) (fuel c k : nat) :
  1 <= c -> c <= k < c + fuel ->
  (duplicateAt b e k ∉ taken) ->
  (forall j, c <= j < k -> duplicateAt b e j ∈ taken) ->
  Names.duplicateLoop fuel taken b e c (duplicateAt b e c) =
    Some (duplicateAt b e k).
Proof.
  revert c. induction fuel as [|fuel IH]; intros c Hc Hk Hfree Hbusy; [lia|].
  simpl. case_decide as Hin.
  - destruct (decide (c = k)) as [->|Hne]; [done|].
    replace (b +:+ " Copy " +:+ pretty (S c) +:+ e) with (duplicateAt b e (S c)).
    + apply IH; [lia|lia|done|]. intros j Hj. apply Hbusy. lia.
    + unfold duplicateAt. case_decide; [lia|done].
  - destruct (decide (c = k)) as [->|Hne]; [done|].
    exfalso. apply Hin, Hbusy. lia.
Qed.

(** X24. [generateDuplicateName] ends: run for one round more than there
    are tabs it returns a name that no tab has.  The name is the part of
    the original before its last dot ([untitled] if that is empty), then
    [ Copy] or [ Copy N] with the least [N] from 2 that is free, then the
    extension of the original with its dot: the extension is kept. *)
Theorem generateDuplicateName_keeps_extension
    (baseName : string) (existingTabs : list Tab.t) :
  let '(stem, extSegment) :=
    match Names.splitLastDot baseName with
    | Some (b, e) => (Js.or_str b "untitled", "." +:+ e)
    | None => (Js.or_str baseName "untitled", "")
    end in
  exists k,
    1 <= k <= S (length existingTabs) /\
    Names.generateDuplicateName (S (length existingTabs)) baseName existingTabs =
      Some (duplicateAt stem extSegment k) /\
    (forall x, x ∈ existingTabs -> Tab.name x <> duplicateAt stem extSegment k) /\
    (forall j, 1 <= j < k ->
       exists x, x ∈ existingTabs /\ Tab.name x = duplicateAt stem extSegment j) /\
    (forall fuel, S (length existingTabs) <= fuel ->
       Names.generateDuplicateName fuel baseName existingTabs =
         Some (duplicateAt stem extSegment k)).
Proof.
  assert (Hmain : forall stem extSegment,
    exists k,
      1 <= k <= S (length existingTabs) /\
      (forall fuel, S (length existingTabs) <= fuel ->
         Names.duplicateLoop fuel (list_to_set (Tab.name <$> existingTabs))
           stem extSegment 1 (duplicateAt stem extSegment 1) =
           Some (duplicateAt stem extSegment k)) /\
      (forall x, x ∈ existingTabs -> Tab.name x <> duplicateAt stem extSegment k) /\
      (forall j, 1 <= j < k ->
         exists x, x ∈ existingTabs /\ Tab.name x = duplicateAt stem extSegment j)).
  { intros stem extSegment.
    destruct (first_free (duplicateAt stem extSegment) (Tab.name <$> existingTabs)
                (duplicateAt_inj stem extSegment))
      as (k & Hk & Hfree & Hbusy).
    rewrite length_fmap in Hk.
    exists k. split; [done|]. split; [|split].
    - intros fuel Hfuel. apply duplicateLoop_found; [lia|lia| |].
      + by rewrite elem_of_list_to_set.
      + intros j Hj. rewrite elem_of_list_to_set. by apply Hbusy.
    - intros x Hx E. apply Hfree. rewrite <- E. apply list_elem_of_fmap.
      by exists x.
    - intros j Hj. apply Hbusy in Hj.
      apply list_elem_of_fmap in Hj as [x [Hx Hin]]. by exists x. }
  unfold Names.generateDuplicateName.
  destruct (Names.splitLastDot baseName) as [[b e]|].
  - destruct (Hmain (Js.or_str b "untitled") ("." +:+ e))
      as (k & Hk & Hloop & Hfree & Hbusy).
    exists k. split; [done|]. split; [by apply Hloop|]. by repeat split.
  - destruct (Hmain (Js.or_str baseName "untitled") "")
      as (k & Hk & Hloop & Hfree & Hbusy).
    exists k. split; [done|]. split; [by apply Hloop|]. by repeat split.
Qed.

(** ** The output panel *)

Lemma typeOutFrom_spec (out str : string) :
  length (Output.typeOutFrom out str) = String.length str /\
  (str <> "" -> last (Output.typeOutFrom out str) = Some (out +:+ str)) /\
  forall i y, Output.typeOutFrom out str !! i = Some y ->
    exists typed rest,
      y = out +:+ typed /\ str = typed +:+ rest /\ String.length typed = S i.
Proof.
  revert out. induction str as [|c str IH]; intros out; simpl.
  - by repeat split.
  - destruct (IH (out +:+ String c "")) as (Hlen & Hlast & Hnth).
    split; [by rewrite Hlen|]. split.
    + intros _. destruct str as [|d str]; [done|].
      rewrite last_cons, Hlast by done. by rewrite string_app_assoc.
    + intros [|i] y Hy; simpl in Hy.
      * injection Hy as <-. by exists (String c ""), str.
      * apply Hnth in Hy as (typed & rest & -> & -> & Ht).
        exists (String c typed), rest.
        split; [by rewrite string_app_assoc|]. split; [done|].
        simpl. by rewrite Ht.
Qed.

(** X25. [typeOut] yields as many strings as its argument has characters;
    the one at position [i] is the argument cut after [i + 1] characters,
    and the last one is the whole argument.  For the empty string it
    yields nothing. *)
Theorem typeOut_yields_prefixes (str : string) :
  length (Output.typeOut str) = String.length str /\
  (str <> "" -> last (Output.typeOut str) = Some str) /\
  (forall i y, Output.typeOut str !! i = Some y ->
     String.length y = S i /\ exists rest, str = y +:+ rest) /\
  Output.typeOut "" = [].
Proof.
  destruct (typeOutFrom_spec "" str) as (Hlen & Hlast & Hnth).
  split; [exact Hlen|]. split; [exact Hlast|]. split; [|done].
  intros i y Hy. apply Hnth in Hy as (typed & rest & -> & -> & Ht).
  split; [done|]. by exists rest.
Qed.

Lemma string_length_pos (s : string) : s <> "" -> 0 < String.length s.
Proof. destruct s; [done|]. simpl. lia. Qed.

(** X26. The text typed into the output panel is never empty: it is
    [(no output)] when the three streams are blank, the trimmed standard
    output alone when only that is not blank, and it starts with the
    trimmed standard output whenever that is not blank. *)
Theorem output_text_never_empty (out err comp : string) :
  Output.fullText out err comp <> "" /\
  (Js.trim out = "" -> Js.trim err = "" -> Js.trim comp = "" ->
   Output.fullText out err comp = "(no output)") /\
  (Js.trim out <> "" -> Js.trim err = "" -> Js.trim comp = "" ->
   Output.fullText out err comp = Js.trim out) /\
  (Js.trim out <> "" ->
   exists rest, Output.fullText out err comp = Js.trim out +:+ rest).
Proof.
  unfold Output.fullText. split; [|split; [|split]].
  - destruct (decide (Js.trim out = "")), (decide (Js.trim err = "")),
      (decide (Js.trim comp = "")); simpl; try done;
      intros E; apply (f_equal String.length) in E;
      rewrite ?string_app_length in E; simpl in E;
      repeat match goal with
             | H : _ <> "" |- _ => apply string_length_pos in H
             end; lia.
  - intros -> -> ->. done.
  - intros Hout -> ->. by rewrite decide_False.
  - intros Hout. rewrite decide_False by done.
    destruct (decide (Js.trim err = "")), (decide (Js.trim comp = ""));
      simpl; eexists; try done. by rewrite string_app_nil_r.
Qed.

